(** * The multi-table pipeline of the OpenFlow 1.4 software switch

    A shallow embedding of [udatapath/pipeline.c]: the per-packet driver
    ([pipeline_process_packet], [execute_entry]), the flow-mod and table-mod
    handlers, the table-features / table-desc / table-stats multipart
    handlers, and the handlers that save and restore the table features.

    C integers are [Z]; arrays and hmap iteration orders are lists; pointers
    to flow entries are keys of a [gmap]; enums are inductive types.  The
    collaborators that live outside [pipeline.c] (the flow tables, the action
    executor, the meter table, oflib, libc's [qsort]) are the fields of one
    record, [Env], together with the two build-time constants. *)

From Stdlib Require Import ZArith Lia Bool Sorted Permutation.
From stdpp Require Import base option list gmap.
Local Open Scope Z_scope.

(** ** Outcomes

    Reading [pl->tables[i]] past the array, or dereferencing a NULL or
    dangling entry pointer, has no defined result in C: [Undefined].
    [OutOfFuel] only arises in the fuelled model of the driver loop. *)

Inductive outcome (A : Type) : Type :=
  | Done (a : A)
  | Undefined
  | OutOfFuel.
Arguments Done {A} a.
Arguments Undefined {A}.
Arguments OutOfFuel {A}.

#[global] Instance outcome_ret : MRet outcome := fun A a => Done a.
#[global] Instance outcome_bind : MBind outcome := fun A B f m =>
  match m with
  | Done a => f a
  | Undefined => Undefined
  | OutOfFuel => OutOfFuel
  end.

Definition of_option {A} (o : option A) : outcome A :=
  match o with Some a => Done a | None => Undefined end.

(** ** OpenFlow constants (openflow.h, oxm-match.h) *)

Module OF.

(* enum ofp_instruction_type *)
Definition OFPIT_GOTO_TABLE : Z := 1.
Definition OFPIT_WRITE_METADATA : Z := 2.
Definition OFPIT_WRITE_ACTIONS : Z := 3.
Definition OFPIT_APPLY_ACTIONS : Z := 4.
Definition OFPIT_CLEAR_ACTIONS : Z := 5.
Definition OFPIT_METER : Z := 6.
Definition OFPIT_EXPERIMENTER : Z := 0xFFFF.

(* #define OXM_HEADER__(CLASS, FIELD, HASMASK, LENGTH) *)
Definition OXM_HEADER__ (class field hasmask length : Z) : Z :=
  Z.lor (Z.lor (Z.lor (Z.shiftl class 16) (Z.shiftl field 9))
               (Z.shiftl hasmask 8)) length.
Definition OXM_HEADER (class field length : Z) : Z :=
  OXM_HEADER__ class field 0 length.
Definition OXM_HEADER_W (class field length : Z) : Z :=
  OXM_HEADER__ class field 1 (length * 2).

Definition OXM_OF_METADATA : Z := Eval cbv in OXM_HEADER 0x8000 2 8.
Definition OXM_OF_ETH_DST : Z := Eval cbv in OXM_HEADER 0x8000 3 6.
Definition OXM_OF_ETH_SRC : Z := Eval cbv in OXM_HEADER 0x8000 4 6.
Definition OXM_OF_IPV4_DST : Z := Eval cbv in OXM_HEADER 0x8000 12 4.
Definition OXM_OF_IPV4_DST_W : Z := Eval cbv in OXM_HEADER_W 0x8000 12 4.

Definition OFP_NO_BUFFER : Z := 0xffffffff.
Definition NO_BUFFER : Z := 0xffffffff.
Definition OFPCML_NO_BUFFER : Z := 0xffff.
Definition OFPC_INVALID_TTL_TO_CONTROLLER : Z := 4.
Definition OFPMPF_REQ_MORE : Z := 1.
Definition OFPMPF_REPLY_MORE : Z := 1.
Definition OFPTC_EVICTION : Z := 4.
Definition OFPTC_VACANCY_EVENTS : Z := 8.
Definition ALL_TABLES : Z := 0xff.
Definition COOKIE_ALL_ONES : Z := 0xffffffffffffffff.

End OF.
Import OF.

Inductive ofp_flow_mod_command :=
  | OFPFC_ADD | OFPFC_MODIFY | OFPFC_MODIFY_STRICT
  | OFPFC_DELETE | OFPFC_DELETE_STRICT.

Inductive ofp_controller_role :=
  | OFPCR_ROLE_NOCHANGE | OFPCR_ROLE_EQUAL | OFPCR_ROLE_MASTER | OFPCR_ROLE_SLAVE.

Inductive ofp_packet_in_reason :=
  | OFPR_TABLE_MISS | OFPR_APPLY_ACTION | OFPR_INVALID_TTL | OFPR_ACTION_SET.

Inductive ofp_error_type :=
  | OFPET_BAD_REQUEST | OFPET_BAD_ACTION | OFPET_BAD_MATCH
  | OFPET_FLOW_MOD_FAILED | OFPET_TABLE_FEATURES_FAILED.

Inductive ofp_error_code :=
  | OFPBRC_IS_SLAVE | OFPBRC_MULTIPART_BUFFER_OVERFLOW
  | OFPBMC_BAD_NW_ADDR_MASK
  | OFPFMFC_BAD_PRIORITY | OFPFMFC_BAD_TABLE_ID
  | OFPTFFC_BAD_ARGUMENT
  | OFP_OTHER_CODE (code : Z).

(** [ofl_err]: 0 on success, [ofl_error(type, code)] otherwise. *)
Inductive ofl_err :=
  | ofl_ok
  | ofl_error (type : ofp_error_type) (code : ofp_error_code).

Definition is_error (e : ofl_err) : bool :=
  match e with ofl_ok => false | ofl_error _ _ => true end.

(** ** Messages and structures (oflib) *)

Record ofl_action := { act_type : Z; act_arg : Z }.

Inductive ofl_instruction :=
  | ofl_instruction_goto_table (table_id : Z)
  | ofl_instruction_write_metadata (metadata metadata_mask : Z)
  | ofl_instruction_write_actions (actions : list ofl_action)
  | ofl_instruction_apply_actions (actions : list ofl_action)
  | ofl_instruction_clear_actions
  | ofl_instruction_meter (meter_id : Z)
  | ofl_instruction_experimenter (experimenter_id : Z).

(* inst->type *)
Definition inst_type (i : ofl_instruction) : Z :=
  match i with
  | ofl_instruction_goto_table _ => OFPIT_GOTO_TABLE
  | ofl_instruction_write_metadata _ _ => OFPIT_WRITE_METADATA
  | ofl_instruction_write_actions _ => OFPIT_WRITE_ACTIONS
  | ofl_instruction_apply_actions _ => OFPIT_APPLY_ACTIONS
  | ofl_instruction_clear_actions => OFPIT_CLEAR_ACTIONS
  | ofl_instruction_meter _ => OFPIT_METER
  | ofl_instruction_experimenter _ => OFPIT_EXPERIMENTER
  end.

(** A match TLV: the OXM header and the raw value bytes. *)
Record ofl_match_tlv := { header : Z; value : list Z }.

(** A match: [header.length] and the TLVs in the iteration order of the
    hmap [match_fields]. *)
Record ofl_match := { match_length : Z; match_fields : list ofl_match_tlv }.

Record ofl_msg_flow_mod := {
  fm_table_id : Z;
  fm_command : ofp_flow_mod_command;
  fm_priority : Z;
  fm_buffer_id : Z;
  fm_match : ofl_match;
  fm_instructions : list ofl_instruction
}.

Definition set_instructions (insts : list ofl_instruction) (m : ofl_msg_flow_mod) :=
  {| fm_table_id := fm_table_id m; fm_command := fm_command m;
     fm_priority := fm_priority m; fm_buffer_id := fm_buffer_id m;
     fm_match := fm_match m; fm_instructions := insts |}.

Definition set_match (mt : ofl_match) (m : ofl_msg_flow_mod) :=
  {| fm_table_id := fm_table_id m; fm_command := fm_command m;
     fm_priority := fm_priority m; fm_buffer_id := fm_buffer_id m;
     fm_match := mt; fm_instructions := fm_instructions m |}.

(** Table-mod properties; the [type] field of the C structs is the tag. *)
Record ofl_table_mod_prop_vacancy := {
  vacancy_down : Z;
  vacancy_up : Z;
  vacancy : Z;
  down_set : bool
}.

Inductive ofl_table_mod_prop :=
  | OFPTMPT_VACANCY (v : ofl_table_mod_prop_vacancy)
  | OFPTMPT_EVICTION (flags : Z)
  | OFPTMPT_OTHER (type : Z).

Record ofl_msg_table_mod := {
  tm_table_id : Z;
  tm_config : Z;
  tm_props : list ofl_table_mod_prop
}.

Record ofl_table_desc := {
  td_table_id : Z;
  td_config : Z;
  td_properties : list ofl_table_mod_prop
}.

Record ofl_table_stats := { ts_table_id : Z; ts_active_count : Z }.

(** A table-features descriptor; [tf_body] stands for its name, limits
    and property list, which the pipeline only passes on. *)
Record ofl_table_features := {
  tf_table_id : Z;
  tf_config : Z;
  tf_body : Z
}.

Record ofl_msg_multipart_request_table_features := {
  rq_flags : Z;
  rq_tables_num : nat;
  rq_table_features : option (list ofl_table_features)
}.

(** ** Datapath structures *)

Record flow_table := {
  stats : ofl_table_stats;
  features : ofl_table_features;
  saved_features : ofl_table_features;
  desc : ofl_table_desc
}.

Record ofl_flow_stats := {
  fs_priority : Z;
  fs_cookie : Z;
  fs_instructions : list ofl_instruction
}.

(** Flow entries live in their tables; the handler only holds pointers to
    them, here keys into [entries]. *)
Record flow_entry := {
  fe_stats : ofl_flow_stats;
  fe_match : ofl_match;
  sync_master : option nat;
  sync_slave : option nat
}.

Record dp_config := { cfg_flags : Z; miss_send_len : Z }.

(** [struct pipeline] with what it reaches through [pl->dp]: the table
    array, the switch configuration, and the store of flow entries. *)
Record pipeline := {
  tables : list flow_table;
  config : dp_config;
  entries : gmap nat flow_entry
}.

Definition set_tables (ts : list flow_table) (pl : pipeline) : pipeline :=
  {| tables := ts; config := config pl; entries := entries pl |}.

Definition set_entries (es : gmap nat flow_entry) (pl : pipeline) : pipeline :=
  {| tables := tables pl; config := config pl; entries := es |}.

(** The standard handle of a packet: its match fields, the table_miss
    flag, and ([hs_proto]) the parsed headers that
    [packet_handle_std_is_ttl_valid] looks at. *)
Record packet_handle_std := {
  hs_match : ofl_match;
  table_miss : bool;
  hs_proto : Z
}.

Record packet := {
  buffer : list Z;
  pkt_buffer_id : Z;
  handle_std : packet_handle_std;
  action_set : list ofl_action;
  pkt_table_id : Z
}.

(** A controller connection, with the slot for a table-features request
    under reassembly. *)
Record remote := {
  role : ofp_controller_role;
  mp_req_msg : option ofl_msg_multipart_request_table_features;
  mp_req_xid : Z;
  mp_req_lasttime : Z
}.

Record sender := { sender_remote : remote; xid : Z }.

Record ofl_msg_packet_in := {
  pi_total_len : Z;
  pi_reason : ofp_packet_in_reason;
  pi_table_id : Z;
  pi_cookie : Z;
  pi_buffer_id : Z;
  pi_data_length : Z;
  pi_data : list Z;
  pi_match : ofl_match
}.

Inductive ofl_msg :=
  | ofl_packet_in (m : ofl_msg_packet_in)
  | ofl_multipart_reply_table_features
      (flags : Z) (table_features : list ofl_table_features) (tables_num : Z)
  | ofl_multipart_reply_table_desc
      (flags : Z) (table_desc : list ofl_table_desc) (tables_num : Z).

(** Calls into collaborators that return nothing to the pipeline are
    recorded, in order, as events. *)
Inductive event :=
  | ev_dp_send_message (m : ofl_msg)
  | ev_dp_execute_action_list
      (pkt : packet) (actions : list ofl_action) (cookie : Z)
      (reason : ofp_packet_in_reason)
  | ev_action_set_execute
      (set : list ofl_action) (pkt : packet) (cookie : Z)
      (reason : ofp_packet_in_reason)
  | ev_meter_table_apply (pkt : packet) (meter_id : Z)
  | ev_dp_exp_inst (pkt : packet) (experimenter_id : Z)
  | ev_packet_destroy (pkt : packet)
  | ev_ofl_structs_free_match (m : ofl_match)
  | ev_ofl_msg_free_flow_mod (m : ofl_msg_flow_mod) (with_match with_insts : bool)
  | ev_ofl_msg_free_table_mod (m : ofl_msg_table_mod).

(** The in/out arguments of [flow_table_flow_mod]:
    [match_kept], [insts_kept] and the installed entry. *)
Definition kept : Type := (bool * bool * option nat)%type.

(** ** The environment of [pipeline.c] *)

Record Env := {
  PIPELINE_TABLES : nat;
  FLOW_TABLE_MAX_ENTRIES : Z;
  (* libc *)
  qsort : (ofl_instruction -> ofl_instruction -> Z) ->
          list ofl_instruction -> list ofl_instruction;
  (* dp_actions.c *)
  dp_actions_validate : pipeline -> list ofl_action -> ofl_err;
  dp_actions_check_set_field_req :
    ofl_msg_flow_mod -> list ofl_action -> ofl_err;
  dp_execute_action_list :
    packet -> list ofl_action -> Z -> ofp_packet_in_reason -> packet;
  (* flow_table.c, flow_entry.c *)
  flow_table_flow_mod :
    nat -> ofl_msg_flow_mod -> kept -> pipeline -> ofl_err * kept * pipeline;
  flow_table_lookup : flow_table -> packet -> option flow_entry;
  flow_entry_is_table_miss : flow_entry -> bool;
  (* oflib *)
  ofl_msg_clone : ofl_msg_flow_mod -> ofl_err * ofl_msg_flow_mod;
  ofl_msg_merge_multipart_request_table_features :
    ofl_msg_multipart_request_table_features ->
    ofl_msg_multipart_request_table_features ->
    bool * ofl_msg_multipart_request_table_features;
  (* dp_buffers.c, packet_handle_std.c, action_set.c, meter_table.c, dp_exp.c *)
  dp_buffers_retrieve : Z -> option packet;
  dp_buffers_save : packet -> packet;
  packet_handle_std_is_ttl_valid : packet_handle_std -> bool;
  packet_handle_std_validate : packet_handle_std -> packet_handle_std;
  action_set_write_actions : list ofl_action -> list ofl_action -> list ofl_action;
  action_set_clear_actions : list ofl_action -> list ofl_action;
  meter_table_apply : packet -> Z -> option packet;
  dp_exp_inst : packet -> Z -> packet
}.

(** ** The code of pipeline.c *)

Section Pipeline.

Variable E : Env.

(* static bool is_table_miss(struct flow_entry *entry) *)
Definition is_table_miss (entry : flow_entry) : bool :=
  (fs_priority (fe_stats entry) =? 0) && (match_length (fe_match entry) <=? 4).

Definition set_pkt_table_id (id : Z) (pkt : packet) : packet :=
  {| buffer := buffer pkt; pkt_buffer_id := pkt_buffer_id pkt;
     handle_std := handle_std pkt; action_set := action_set pkt;
     pkt_table_id := id |}.

Definition set_handle_std (hs : packet_handle_std) (pkt : packet) : packet :=
  {| buffer := buffer pkt; pkt_buffer_id := pkt_buffer_id pkt;
     handle_std := hs; action_set := action_set pkt;
     pkt_table_id := pkt_table_id pkt |}.

Definition set_action_set (s : list ofl_action) (pkt : packet) : packet :=
  {| buffer := buffer pkt; pkt_buffer_id := pkt_buffer_id pkt;
     handle_std := handle_std pkt; action_set := s;
     pkt_table_id := pkt_table_id pkt |}.

Definition set_table_miss (b : bool) (hs : packet_handle_std) : packet_handle_std :=
  {| hs_match := hs_match hs; table_miss := b; hs_proto := hs_proto hs |}.

Definition set_hs_match (m : ofl_match) (hs : packet_handle_std) : packet_handle_std :=
  {| hs_match := m; table_miss := table_miss hs; hs_proto := hs_proto hs |}.

Definition buffer_size (pkt : packet) : Z := Z.of_nat (length (buffer pkt)).

(* static void send_packet_to_controller(pl, pkt, table_id, reason);
   msg.total_len is a uint16_t; it and msg.data are read before
   dp_buffers_save, which stores the packet and sets pkt->buffer_id. *)
Definition send_packet_to_controller
    (pl : pipeline) (pkt : packet) (table_id : Z) (reason : ofp_packet_in_reason)
    : packet * list event :=
  let total_len := buffer_size pkt mod 2 ^ 16 in
  let data := buffer pkt in
  let '(pkt, buffer_id, data_length) :=
    if negb (miss_send_len (config pl) =? OFPCML_NO_BUFFER) then
      let pkt := dp_buffers_save E pkt in
      (pkt, pkt_buffer_id pkt, Z.min (miss_send_len (config pl)) (buffer_size pkt))
    else (pkt, OFP_NO_BUFFER, buffer_size pkt) in
  let m := hs_match (handle_std pkt) in
  let msg := {| pi_total_len := total_len; pi_reason := reason;
                pi_table_id := table_id; pi_cookie := COOKIE_ALL_ONES;
                pi_buffer_id := buffer_id; pi_data_length := data_length;
                pi_data := data; pi_match := m |} in
  (pkt, [ev_dp_send_message (ofl_packet_in msg); ev_ofl_structs_free_match m]).

(** *** execute_entry *)

(* the eight value bytes read and written as one uint64_t,
   on a little-endian host *)
Definition load_u64 (bytes : list Z) : Z :=
  foldr (fun b acc => b + 256 * acc) 0 (take 8 bytes).

Definition store_u64 (z : Z) (bytes : list Z) : list Z :=
  map (fun i => (z / 256 ^ Z.of_nat i) mod 256) (seq 0 8) ++ drop 8 bytes.

(* HMAP_FOR_EACH_WITH_HASH over the bucket of OXM_OF_METADATA *)
Fixpoint write_metadata (metadata metadata_mask : Z) (fields : list ofl_match_tlv)
    : outcome (list ofl_match_tlv) :=
  match fields with
  | [] => Done []
  | f :: rest =>
      rest' ← write_metadata metadata metadata_mask rest;
      if header f =? OXM_OF_METADATA then
        if (length (value f) <? 8)%nat then Undefined
        else
          let old := load_u64 (value f) in
          let new := Z.lor (Z.land old (Z.lnot metadata_mask))
                           (Z.land metadata metadata_mask) in
          Done ({| header := header f; value := store_u64 new (value f) |} :: rest')
      else Done (f :: rest')
  end.

(* One round of the switch in execute_entry, the packet being live. *)
Definition execute_instruction
    (pl : pipeline) (entry : flow_entry) (inst : ofl_instruction)
    (next_table : option flow_table) (pkt : packet)
    : outcome (option flow_table * option packet * list event) :=
  match inst with
  | ofl_instruction_goto_table table_id =>
      t ← of_option (tables pl !! Z.to_nat table_id);
      Done (Some t, Some pkt, [])
  | ofl_instruction_write_metadata metadata metadata_mask =>
      let hs := packet_handle_std_validate E (handle_std pkt) in
      fields ← write_metadata metadata metadata_mask (match_fields (hs_match hs));
      let m := {| match_length := match_length (hs_match hs);
                  match_fields := fields |} in
      Done (next_table, Some (set_handle_std (set_hs_match m hs) pkt), [])
  | ofl_instruction_write_actions actions =>
      Done (next_table,
            Some (set_action_set
                    (action_set_write_actions E (action_set pkt) actions) pkt),
            [])
  | ofl_instruction_apply_actions actions =>
      let reason := if flow_entry_is_table_miss E entry
                    then OFPR_TABLE_MISS else OFPR_APPLY_ACTION in
      let cookie := fs_cookie (fe_stats entry) in
      Done (next_table,
            Some (dp_execute_action_list E pkt actions cookie reason),
            [ev_dp_execute_action_list pkt actions cookie reason])
  | ofl_instruction_clear_actions =>
      Done (next_table,
            Some (set_action_set (action_set_clear_actions E (action_set pkt)) pkt),
            [])
  | ofl_instruction_meter meter_id =>
      Done (next_table, meter_table_apply E pkt meter_id,
            [ev_meter_table_apply pkt meter_id])
  | ofl_instruction_experimenter experimenter_id =>
      Done (next_table, Some (dp_exp_inst E pkt experimenter_id),
            [ev_dp_exp_inst pkt experimenter_id])
  end.

(* the loop over entry->stats->instructions; it returns as soon as the
   packet pointer is NULL *)
Fixpoint execute_insts
    (pl : pipeline) (entry : flow_entry) (insts : list ofl_instruction)
    (next_table : option flow_table) (pkt : option packet)
    : outcome (option flow_table * option packet * list event) :=
  match insts with
  | [] => Done (next_table, pkt, [])
  | inst :: rest =>
      match pkt with
      | None => Done (next_table, None, [])
      | Some p =>
          '(next_table, pkt, ev) ← execute_instruction pl entry inst next_table p;
          '(next_table, pkt, ev') ← execute_insts pl entry rest next_table pkt;
          Done (next_table, pkt, ev ++ ev')
      end
  end.

Definition execute_entry
    (pl : pipeline) (entry : flow_entry)
    (next_table : option flow_table) (pkt : packet)
    : outcome (option flow_table * option packet * list event) :=
  execute_insts pl entry (fs_instructions (fe_stats entry)) next_table (Some pkt).

(** *** pipeline_process_packet *)

(* One unit of fuel per round of: while (next_table != NULL) *)
Fixpoint pipeline_process_loop
    (fuel : nat) (pl : pipeline) (next_table : flow_table) (pkt : packet)
    : outcome (list event) :=
  match fuel with
  | O => OutOfFuel
  | S fuel =>
      let pkt := set_pkt_table_id (ts_table_id (stats next_table)) pkt in
      let table := next_table in
      match flow_table_lookup E table pkt with
      | Some entry =>
          let pkt :=
            set_handle_std (set_table_miss (is_table_miss entry) (handle_std pkt)) pkt in
          '(next_table, pkt, ev) ← execute_entry pl entry None pkt;
          match pkt with
          | None => Done ev
          | Some pkt =>
              match next_table with
              | None =>
                  Done (ev ++ [ev_action_set_execute (action_set pkt) pkt
                                 COOKIE_ALL_ONES OFPR_ACTION_SET;
                               ev_packet_destroy pkt])
              | Some next_table =>
                  rest ← pipeline_process_loop fuel pl next_table pkt;
                  Done (ev ++ rest)
              end
          end
      | None => Done [ev_packet_destroy pkt]
      end
  end.

Definition pipeline_process_packet (fuel : nat) (pl : pipeline) (pkt : packet)
    : outcome (list event) :=
  if negb (packet_handle_std_is_ttl_valid E (handle_std pkt)) then
    let '(pkt, ev) :=
      if negb (Z.land (cfg_flags (config pl)) OFPC_INVALID_TTL_TO_CONTROLLER =? 0)
      then send_packet_to_controller pl pkt 0 OFPR_INVALID_TTL
      else (pkt, []) in
    Done (ev ++ [ev_packet_destroy pkt])
  else
    next_table ← of_option (tables pl !! 0%nat);
    pipeline_process_loop fuel pl next_table pkt.

(** *** pipeline_handle_flow_mod *)

(* static int inst_compare(const void *inst1, const void *inst2) *)
Definition inst_compare (i1 i2 : ofl_instruction) : Z :=
  if (inst_type i1 =? OFPIT_APPLY_ACTIONS) && (inst_type i2 =? OFPIT_CLEAR_ACTIONS)
     || (inst_type i1 =? OFPIT_CLEAR_ACTIONS) && (inst_type i2 =? OFPIT_APPLY_ACTIONS)
  then Z.b2z (inst_type i1 >? inst_type i2)
  else Z.b2z (inst_type i1 <? inst_type i2).

(* qsort(msg->instructions, msg->instructions_num, ..., inst_compare) *)
Definition flow_mod_sort (msg : ofl_msg_flow_mod) : ofl_msg_flow_mod :=
  set_instructions (qsort E inst_compare (fm_instructions msg)) msg.

(* Validate actions in flow_mod *)
Fixpoint flow_mod_validate_actions
    (pl : pipeline) (msg : ofl_msg_flow_mod) (insts : list ofl_instruction)
    : ofl_err :=
  match insts with
  | [] => ofl_ok
  | inst :: rest =>
      let check actions :=
        let error := dp_actions_validate E pl actions in
        if is_error error then error
        else dp_actions_check_set_field_req E msg actions in
      let error :=
        match inst with
        | ofl_instruction_apply_actions actions => check actions
        | ofl_instruction_write_actions actions => check actions
        | _ => ofl_ok
        end in
      if is_error error then error
      else flow_mod_validate_actions pl msg rest
  end.

(* uint32_t mask = value[4] << 24 | value[5] << 16 | value[6] << 8 | value[7] *)
Definition lpm_mask (value : list Z) : outcome Z :=
  b4 ← of_option (value !! 4%nat);
  b5 ← of_option (value !! 5%nat);
  b6 ← of_option (value !! 6%nat);
  b7 ← of_option (value !! 7%nat);
  Done (Z.lor (Z.lor (Z.lor (Z.shiftl b4 24) (Z.shiftl b5 16)) (Z.shiftl b6 8)) b7
        mod 2 ^ 32).

(* for(i = 0; i < 32; i++) { ... mask >>= 1; } with [n] rounds left;
   [None] is the return taken at a hole, [Some num_zero] the normal exit. *)
Fixpoint lpm_scan (n : nat) (i : Z) (mask : Z) (found_one : bool) (num_zero : Z)
    : option Z :=
  match n with
  | O => Some num_zero
  | S n =>
      let low_bit := Z.land mask 1 in
      if negb (low_bit =? 0) then
        if negb found_one
        then lpm_scan n (i + 1) (Z.shiftr mask 1) true i
        else lpm_scan n (i + 1) (Z.shiftr mask 1) found_one num_zero
      else
        if found_one then None
        else lpm_scan n (i + 1) (Z.shiftr mask 1) found_one num_zero
  end.

(* The body of HMAP_FOR_EACH in the table-61 block, for one TLV. *)
Definition lpm_check_tlv (priority : Z) (oxm : ofl_match_tlv) : outcome ofl_err :=
  if header oxm =? OXM_OF_IPV4_DST_W then
    mask ← lpm_mask (value oxm);
    match lpm_scan 32 0 mask false 32 with
    | None => Done (ofl_error OFPET_BAD_MATCH OFPBMC_BAD_NW_ADDR_MASK)
    | Some num_zero =>
        if negb (priority =? 32 - num_zero)
        then Done (ofl_error OFPET_FLOW_MOD_FAILED OFPFMFC_BAD_PRIORITY)
        else Done ofl_ok
    end
  else if header oxm =? OXM_OF_IPV4_DST then
    if negb (priority =? 32)
    then Done (ofl_error OFPET_FLOW_MOD_FAILED OFPFMFC_BAD_PRIORITY)
    else Done ofl_ok
  else Done ofl_ok.

Fixpoint lpm_check_fields (priority : Z) (fields : list ofl_match_tlv)
    : outcome ofl_err :=
  match fields with
  | [] => Done ofl_ok
  | oxm :: rest =>
      error ← lpm_check_tlv priority oxm;
      if is_error error then Done error else lpm_check_fields priority rest
  end.

(* Validate match for table 61 for Longuest Prefix Match. *)
Definition flow_mod_validate_lpm (msg : ofl_msg_flow_mod) : outcome ofl_err :=
  match fm_command msg with
  | OFPFC_ADD =>
      if (fm_table_id msg =? 61) && negb (match_length (fm_match msg) =? 0)
      then lpm_check_fields (fm_priority msg) (match_fields (fm_match msg))
      else Done ofl_ok
  | _ => Done ofl_ok
  end.

(* for (i=0; i < PIPELINE_TABLES; i++) { error = flow_table_flow_mod(...);
   if (error) break; } with [n] rounds left *)
Fixpoint flow_mod_all_tables
    (n : nat) (i : nat) (msg : ofl_msg_flow_mod) (k : kept) (pl : pipeline)
    : ofl_err * kept * pipeline :=
  match n with
  | O => (ofl_ok, k, pl)
  | S n =>
      let '(error, k, pl) := flow_table_flow_mod E i msg k pl in
      if is_error error then (error, k, pl)
      else flow_mod_all_tables n (S i) msg k pl
  end.

(* Transpose the match. *)
Definition transpose_tlv (oxm : ofl_match_tlv) : ofl_match_tlv :=
  if header oxm =? OXM_OF_ETH_DST
  then {| header := OXM_OF_ETH_SRC; value := value oxm |}
  else if header oxm =? OXM_OF_ETH_SRC
  then {| header := OXM_OF_ETH_DST; value := value oxm |}
  else oxm.

Definition transpose_match (m : ofl_match) : ofl_match :=
  if negb (match_length m =? 0)
  then {| match_length := match_length m;
          match_fields := map transpose_tlv (match_fields m) |}
  else m.

Definition set_sync_master (p : option nat) (e : flow_entry) : flow_entry :=
  {| fe_stats := fe_stats e; fe_match := fe_match e;
     sync_master := p; sync_slave := sync_slave e |}.

Definition set_sync_slave (p : option nat) (e : flow_entry) : flow_entry :=
  {| fe_stats := fe_stats e; fe_match := fe_match e;
     sync_master := sync_master e; sync_slave := p |}.

(* slave_flow->sync_master = flow; flow->sync_slave = slave_flow; *)
Definition link_sync (flow : nat) (slave_flow : option nat) (pl : pipeline)
    : outcome pipeline :=
  slave ← of_option slave_flow;
  se ← of_option (entries pl !! slave);
  let es := <[slave := set_sync_master (Some flow) se]> (entries pl) in
  fe ← of_option (es !! flow);
  Done (set_entries (<[flow := set_sync_slave (Some slave) fe]> es) pl).

(* The clone once its match is transposed. *)
Definition flow_mod_slave_msg (slave_msg : ofl_msg_flow_mod) : ofl_msg_flow_mod :=
  set_match (transpose_match (fm_match slave_msg)) slave_msg.

(* Table 63 is synchronised with table 62: the block entered when
   table_id == 62, the command is ADD and flow != NULL. *)
Definition flow_mod_sync (pl : pipeline) (msg : ofl_msg_flow_mod) (flow : nat)
    : outcome (pipeline * list event) :=
  let '(error, slave_msg) := ofl_msg_clone E msg in
  if negb (is_error error) then
    let slave_msg := flow_mod_slave_msg slave_msg in
    if negb (63 <? PIPELINE_TABLES E)%nat then Undefined
    else
      let '(error, (slave_match_kept, slave_insts_kept, slave_flow), pl) :=
        flow_table_flow_mod E 63%nat slave_msg (false, false, None) pl in
      let ev := [ev_ofl_msg_free_flow_mod slave_msg
                   (negb slave_match_kept) (negb slave_insts_kept)] in
      if negb (is_error error) then
        pl ← link_sync flow slave_flow pl;
        Done (pl, ev)
      else Done (pl, ev)
  else Done (pl, []).

(* run buffered message through pipeline *)
Definition flow_mod_replay (fuel : nat) (pl : pipeline) (msg : ofl_msg_flow_mod)
    : outcome (list event) :=
  let replays := match fm_command msg with
                 | OFPFC_ADD | OFPFC_MODIFY | OFPFC_MODIFY_STRICT => true
                 | _ => false
                 end in
  if replays && negb (fm_buffer_id msg =? NO_BUFFER) then
    match dp_buffers_retrieve E (fm_buffer_id msg) with
    | Some pkt => pipeline_process_packet fuel pl pkt
    | None => Done []
    end
  else Done [].

(* From "if (msg->table_id == 0xff)" to the end of the handler. *)
Definition flow_mod_dispatch (fuel : nat) (pl : pipeline) (msg : ofl_msg_flow_mod)
    : outcome (ofl_err * pipeline * list event) :=
  if fm_table_id msg =? 0xff then
    match fm_command msg with
    | OFPFC_DELETE | OFPFC_DELETE_STRICT =>
        let '(error, (match_kept, insts_kept, _), pl) :=
          flow_mod_all_tables (PIPELINE_TABLES E) 0 msg (false, false, None) pl in
        if is_error error then Done (error, pl, [])
        else Done (ofl_ok, pl,
                   [ev_ofl_msg_free_flow_mod msg (negb match_kept) (negb insts_kept)])
    | _ => Done (ofl_error OFPET_FLOW_MOD_FAILED OFPFMFC_BAD_TABLE_ID, pl, [])
    end
  else
    if negb (Z.to_nat (fm_table_id msg) <? PIPELINE_TABLES E)%nat then Undefined
    else
      let '(error, (match_kept, insts_kept, flow), pl) :=
        flow_table_flow_mod E (Z.to_nat (fm_table_id msg)) msg (false, false, None) pl in
      if is_error error then Done (error, pl, [])
      else
        '(pl, ev_sync) ←
          match fm_table_id msg =? 62, fm_command msg, flow with
          | true, OFPFC_ADD, Some flow => flow_mod_sync pl msg flow
          | _, _, _ => Done (pl, [])
          end;
        ev_replay ← flow_mod_replay fuel pl msg;
        Done (ofl_ok, pl,
              ev_sync ++ ev_replay ++
              [ev_ofl_msg_free_flow_mod msg (negb match_kept) (negb insts_kept)]).

Definition pipeline_handle_flow_mod
    (fuel : nat) (pl : pipeline) (msg : ofl_msg_flow_mod) (sender : sender)
    : outcome (ofl_err * pipeline * list event) :=
  match role (sender_remote sender) with
  | OFPCR_ROLE_SLAVE => Done (ofl_error OFPET_BAD_REQUEST OFPBRC_IS_SLAVE, pl, [])
  | _ =>
      let msg := flow_mod_sort msg in
      let error := flow_mod_validate_actions pl msg (fm_instructions msg) in
      if is_error error then Done (error, pl, [])
      else
        error ← flow_mod_validate_lpm msg;
        if is_error error then Done (error, pl, [])
        else flow_mod_dispatch fuel pl msg
  end.

(** *** pipeline_handle_table_mod *)

(* (FLOW_TABLE_MAX_ENTRIES - active_count) * 100 / FLOW_TABLE_MAX_ENTRIES,
   computed in 32-bit unsigned arithmetic (active_count is a uint32_t) *)
Definition free_percentage (active_count : Z) : Z :=
  (((FLOW_TABLE_MAX_ENTRIES E - active_count) mod 2 ^ 32) * 100) mod 2 ^ 32
  / (FLOW_TABLE_MAX_ENTRIES E mod 2 ^ 32).

Definition set_desc (d : ofl_table_desc) (t : flow_table) : flow_table :=
  {| stats := stats t; features := features t;
     saved_features := saved_features t; desc := d |}.

Definition set_features (f : ofl_table_features) (t : flow_table) : flow_table :=
  {| stats := stats t; features := f;
     saved_features := saved_features t; desc := desc t |}.

Definition set_td_properties (ps : list ofl_table_mod_prop) (d : ofl_table_desc) :=
  {| td_table_id := td_table_id d; td_config := td_config d; td_properties := ps |}.

Definition set_td_config (c : Z) (d : ofl_table_desc) :=
  {| td_table_id := td_table_id d; td_config := c;
     td_properties := td_properties d |}.

(* The loop over tpi for one inbound VACANCY property prop_vaco:
   the properties as left by the loop, and the error it returned with. *)
Fixpoint table_mod_vacancy
    (active_count : Z) (prop_vaco : ofl_table_mod_prop_vacancy)
    (props : list ofl_table_mod_prop) : ofl_err * list ofl_table_mod_prop :=
  match props with
  | [] => (ofl_ok, [])
  | OFPTMPT_VACANCY prop_vacd :: rest =>
      if vacancy_down prop_vaco >? vacancy_up prop_vaco then
        (ofl_error OFPET_TABLE_FEATURES_FAILED OFPTFFC_BAD_ARGUMENT, props)
      else
        let prop_vacd :=
          {| vacancy_down := vacancy_down prop_vaco;
             vacancy_up := vacancy_up prop_vaco;
             vacancy := vacancy prop_vacd;
             down_set := free_percentage active_count >=? vacancy_up prop_vaco |} in
        let '(error, rest) := table_mod_vacancy active_count prop_vaco rest in
        (error, OFPTMPT_VACANCY prop_vacd :: rest)
  | p :: rest =>
      let '(error, rest) := table_mod_vacancy active_count prop_vaco rest in
      (error, p :: rest)
  end.

(* The loop over mpi: Update properties. *)
Fixpoint table_mod_props
    (active_count : Z) (msg_props : list ofl_table_mod_prop)
    (props : list ofl_table_mod_prop) : ofl_err * list ofl_table_mod_prop :=
  match msg_props with
  | [] => (ofl_ok, props)
  | OFPTMPT_VACANCY prop_vaco :: rest =>
      let '(error, props) := table_mod_vacancy active_count prop_vaco props in
      if is_error error then (error, props)
      else table_mod_props active_count rest props
  | _ :: rest => table_mod_props active_count rest props
  end.

(* for (ti = ti_start; ti < ti_stop; ti++), with [n] rounds left *)
Fixpoint table_mod_loop
    (n : nat) (ti : nat) (msg : ofl_msg_table_mod) (pl : pipeline)
    : outcome (ofl_err * pipeline) :=
  match n with
  | O => Done (ofl_ok, pl)
  | S n =>
      t ← of_option (tables pl !! ti);
      let table_desc := desc t in
      let '(error, props) :=
        table_mod_props (ts_active_count (stats t)) (tm_props msg)
                        (td_properties table_desc) in
      let table_desc := set_td_properties props table_desc in
      if is_error error then
        Done (error, set_tables (<[ti := set_desc table_desc t]> (tables pl)) pl)
      else
        (* Update config flag. *)
        let table_desc := set_td_config (tm_config msg) table_desc in
        table_mod_loop n (S ti) msg
          (set_tables (<[ti := set_desc table_desc t]> (tables pl)) pl)
  end.

Definition pipeline_handle_table_mod
    (pl : pipeline) (msg : ofl_msg_table_mod) (sender : sender)
    : outcome (ofl_err * pipeline * list event) :=
  match role (sender_remote sender) with
  | OFPCR_ROLE_SLAVE => Done (ofl_error OFPET_BAD_REQUEST OFPBRC_IS_SLAVE, pl, [])
  | _ =>
      let '(ti_start, ti_stop) :=
        if tm_table_id msg =? 0xff
        then (0%nat, PIPELINE_TABLES E)
        else (Z.to_nat (tm_table_id msg), Z.to_nat (tm_table_id msg)) in
      '(error, pl) ← table_mod_loop (ti_stop - ti_start) ti_start msg pl;
      if is_error error then Done (error, pl, [])
      else Done (ofl_ok, pl, [ev_ofl_msg_free_table_mod msg])
  end.

(** *** The table-features multipart request *)

Definition set_mp_req
    (m : option ofl_msg_multipart_request_table_features) (x t : Z) (r : remote)
    : remote :=
  {| role := role r; mp_req_msg := m; mp_req_xid := x; mp_req_lasttime := t |}.

(* Change tables configuration: the loop over feat->table_features,
   with [n] rounds left *)
Fixpoint features_update
    (n : nat) (i : nat) (table_features : list ofl_table_features)
    (ts : list flow_table) : outcome (list flow_table) :=
  match n with
  | O => Done ts
  | S n =>
      f ← of_option (table_features !! i);
      t ← of_option (ts !! Z.to_nat (tf_table_id f));
      features_update n (S i) table_features
        (<[Z.to_nat (tf_table_id f) := set_features f t]> ts)
  end.

(* if(feat->table_features != NULL) { ... } *)
Definition features_requested
    (feat : ofl_msg_multipart_request_table_features) (ts : list flow_table)
    : outcome (list flow_table) :=
  match rq_table_features feat with
  | Some table_features => features_update (rq_tables_num feat) 0 table_features ts
  | None => Done ts
  end.

(* for (i = 0; i < 8; i++) { features[i] = pl->tables[j]->features; j++; } *)
Fixpoint features_chunk (n : nat) (ts : list flow_table) (j : nat)
    : outcome (list ofl_table_features * nat) :=
  match n with
  | O => Done ([], j)
  | S n =>
      t ← of_option (ts !! j);
      '(rest, j') ← features_chunk n ts (S j);
      Done (features t :: rest, j')
  end.

(* loop: ... if (j < PIPELINE_TABLES) goto loop; *)
Fixpoint features_reply_loop (fuel : nat) (ts : list flow_table) (j : nat)
    : outcome (list event) :=
  match fuel with
  | O => OutOfFuel
  | S fuel =>
      '(chunk, j) ← features_chunk 8 ts j;
      let reply :=
        ofl_multipart_reply_table_features
          (if (j =? PIPELINE_TABLES E)%nat then 0 else OFPMPF_REPLY_MORE) chunk 8 in
      if (j <? PIPELINE_TABLES E)%nat then
        rest ← features_reply_loop fuel ts j;
        Done (ev_dp_send_message reply :: rest)
      else Done [ev_dp_send_message reply]
  end.

(* From "Check to see if the body is empty" to the end of the handler;
   [j] grows by 8 in every round, so PIPELINE_TABLES + 1 rounds suffice. *)
Definition features_complete
    (pl : pipeline) (feat : ofl_msg_multipart_request_table_features) (r : remote)
    : outcome (ofl_err * pipeline * remote * list event) :=
  ts ← features_requested feat (tables pl);
  let r := match mp_req_msg r with
           | Some _ => set_mp_req None 0 (mp_req_lasttime r) r
           | None => r
           end in
  ev ← features_reply_loop (S (PIPELINE_TABLES E)) ts 0;
  Done (ofl_ok, set_tables ts pl, r, ev).

Definition pipeline_handle_stats_request_table_features_request
    (time_now : Z) (pl : pipeline)
    (msg : ofl_msg_multipart_request_table_features) (sender : sender)
    : outcome (ofl_err * pipeline * remote * list event) :=
  let r := sender_remote sender in
  match mp_req_msg r with
  | Some saved =>
      if negb (xid sender =? mp_req_xid r) then
        Done (ofl_error OFPET_BAD_REQUEST OFPBRC_MULTIPART_BUFFER_OVERFLOW, pl, r, [])
      else
        let '(nomore, saved) :=
          ofl_msg_merge_multipart_request_table_features E saved msg in
        let r := set_mp_req (Some saved) (mp_req_xid r) time_now r in
        if negb nomore then Done (ofl_ok, pl, r, [])
        else features_complete pl saved r
  | None =>
      if negb (Z.land (rq_flags msg) OFPMPF_REQ_MORE =? 0) then
        let saved_msg :=
          {| rq_flags := 0; rq_tables_num := 0; rq_table_features := None |} in
        let '(_, saved_msg) :=
          ofl_msg_merge_multipart_request_table_features E saved_msg msg in
        Done (ofl_ok, pl, set_mp_req (Some saved_msg) (xid sender) time_now r, [])
      else features_complete pl msg r
  end.

(** *** The table-desc multipart request *)

Definition set_vacancy (v : Z) (p : ofl_table_mod_prop_vacancy) :=
  {| vacancy_down := vacancy_down p; vacancy_up := vacancy_up p;
     vacancy := v; down_set := down_set p |}.

(* Update vacancy: the loop over pi, for a table with the given config *)
Definition desc_update_vacancy (active_count : Z) (d : ofl_table_desc)
    : ofl_table_desc :=
  set_td_properties
    (map (fun p =>
            if negb (Z.land (td_config d) OFPTC_VACANCY_EVENTS =? 0) then
              match p with
              | OFPTMPT_VACANCY prop_vac =>
                  OFPTMPT_VACANCY
                    (set_vacancy (free_percentage active_count mod 2 ^ 8) prop_vac)
              | _ => p
              end
            else p)
         (td_properties d))
    d.

(* for (i = 0; i < 16; i++) { desc[i] = pl->tables[j]->desc; ...; j++; } *)
Fixpoint desc_chunk (n : nat) (ts : list flow_table) (j : nat)
    : outcome (list ofl_table_desc * list flow_table * nat) :=
  match n with
  | O => Done ([], ts, j)
  | S n =>
      t ← of_option (ts !! j);
      let d := desc_update_vacancy (ts_active_count (stats t)) (desc t) in
      '(rest, ts, j') ← desc_chunk n (<[j := set_desc d t]> ts) (S j);
      Done (d :: rest, ts, j')
  end.

Fixpoint desc_reply_loop (fuel : nat) (ts : list flow_table) (j : nat)
    : outcome (list flow_table * list event) :=
  match fuel with
  | O => OutOfFuel
  | S fuel =>
      '(chunk, ts, j) ← desc_chunk 16 ts j;
      let reply :=
        ofl_multipart_reply_table_desc
          (if (j =? PIPELINE_TABLES E)%nat then 0 else OFPMPF_REPLY_MORE) chunk 16 in
      if (j <? PIPELINE_TABLES E)%nat then
        '(ts, rest) ← desc_reply_loop fuel ts j;
        Done (ts, ev_dp_send_message reply :: rest)
      else Done (ts, [ev_dp_send_message reply])
  end.

Definition pipeline_handle_stats_request_table_desc_request (pl : pipeline)
    : outcome (ofl_err * pipeline * list event) :=
  '(ts, ev) ← desc_reply_loop (S (PIPELINE_TABLES E)) (tables pl) 0;
  Done (ofl_ok, set_tables ts pl, ev).

End Pipeline.

(** ** More of pipeline.c *)

Section PipelineMore.

Variable E : Env.

Definition set_tf_config (c : Z) (f : ofl_table_features) : ofl_table_features :=
  {| tf_table_id := tf_table_id f; tf_config := c; tf_body := tf_body f |}.

Definition set_saved_features (f : ofl_table_features) (t : flow_table) : flow_table :=
  {| stats := stats t; features := features t; saved_features := f; desc := desc t |}.

(* pl->tables[i]->saved_features->config = pl->tables[i]->features->config *)
Definition features_save (t : flow_table) : flow_table :=
  set_saved_features (set_tf_config (tf_config (features t)) (saved_features t)) t.

(* pl->tables[i]->features->config = pl->tables[i]->saved_features->config *)
Definition features_restore (t : flow_table) : flow_table :=
  set_features (set_tf_config (tf_config (saved_features t)) (features t)) t.

(* for (i=0; i<PIPELINE_TABLES; i++) { ... }, the body being [f] on
   pl->tables[i], with [n] rounds left *)
Fixpoint tables_loop (f : flow_table -> flow_table) (n i : nat) (ts : list flow_table)
    : outcome (list flow_table) :=
  match n with
  | O => Done ts
  | S n =>
      t ← of_option (ts !! i);
      tables_loop f n (S i) (<[i := f t]> ts)
  end.

Definition pipeline_handle_table_features_save (pl : pipeline)
    : outcome (ofl_err * pipeline) :=
  ts ← tables_loop features_save (PIPELINE_TABLES E) 0 (tables pl);
  Done (ofl_ok, set_tables ts pl).

Definition pipeline_handle_table_features_restore (pl : pipeline)
    : outcome (ofl_err * pipeline) :=
  ts ← tables_loop features_restore (PIPELINE_TABLES E) 0 (tables pl);
  Done (ofl_ok, set_tables ts pl).

(** The reply of the table-stats request: one message, flags 0. *)
Record ofl_msg_multipart_reply_table := {
  rt_flags : Z;
  rt_stats : list ofl_table_stats;
  rt_stats_num : nat
}.

(* for (i=0; i<PIPELINE_TABLES; i++) { stats[i] = pl->tables[i]->stats; } *)
Fixpoint table_stats_collect (n i : nat) (ts : list flow_table)
    : outcome (list ofl_table_stats) :=
  match n with
  | O => Done []
  | S n =>
      t ← of_option (ts !! i);
      rest ← table_stats_collect n (S i) ts;
      Done (stats t :: rest)
  end.

(* The reply handed to dp_send_message; the handler returns 0. *)
Definition pipeline_handle_stats_request_table (pl : pipeline)
    : outcome (ofl_err * ofl_msg_multipart_reply_table) :=
  stats ← table_stats_collect (PIPELINE_TABLES E) 0 (tables pl);
  Done (ofl_ok, {| rt_flags := 0; rt_stats := stats;
                   rt_stats_num := PIPELINE_TABLES E |}).

End PipelineMore.

(** ** What the claims are stated with *)

(** The contract of [qsort] used here: on a comparison whose verdict
    "not greater" ([cmp a b <= 0]) is total and transitive, the array is
    permuted so that no element is greater than a later one.  glibc's
    merge sort meets it: it moves the right element first exactly when
    [cmp left right > 0].  [inst_compare] never returns a negative value,
    so nothing is claimed of a [qsort] that branches on [cmp a b < 0]. *)
Definition qsort_contract
    (sort : (ofl_instruction -> ofl_instruction -> Z) ->
            list ofl_instruction -> list ofl_instruction) : Prop :=
  forall cmp l,
    (forall a b, cmp a b <= 0 \/ cmp b a <= 0) ->
    (forall a b c, cmp a b <= 0 -> cmp b c <= 0 -> cmp a c <= 0) ->
    sort cmp l ≡ₚ l /\ StronglySorted (fun a b => cmp a b <= 0) (sort cmp l).

(** Place in the execution order listed in [execute_entry]:
    Meter, Apply-Actions, Clear-Actions, Write-Actions, Write-Metadata,
    Goto-Table.  Experimenter instructions are not in that list. *)
Definition canonical_position (i : ofl_instruction) : option nat :=
  match i with
  | ofl_instruction_meter _ => Some 0%nat
  | ofl_instruction_apply_actions _ => Some 1%nat
  | ofl_instruction_clear_actions => Some 2%nat
  | ofl_instruction_write_actions _ => Some 3%nat
  | ofl_instruction_write_metadata _ _ => Some 4%nat
  | ofl_instruction_goto_table _ => Some 5%nat
  | ofl_instruction_experimenter _ => None
  end.

(** The order [inst_compare] induces: experimenter first, then the
    canonical positions. *)
Definition sort_key (i : ofl_instruction) : nat :=
  match canonical_position i with
  | Some p => S p
  | None => 0%nat
  end.

(** "Sorted by instruction type ascending": no instruction is followed
    by one of a smaller type.  In this order Apply-Actions (4) stands
    before Clear-Actions (5) already. *)
Definition type_ascending (l : list ofl_instruction) : Prop :=
  forall i j a b, (i < j)%nat -> l !! i = Some a -> l !! j = Some b ->
    inst_type a <= inst_type b.

(** Sorted by instruction type descending, but for Apply-Actions (4)
    placed before Clear-Actions (5). *)
Definition type_descending_apply_first (l : list ofl_instruction) : Prop :=
  forall i j a b, (i < j)%nat -> l !! i = Some a -> l !! j = Some b ->
    (inst_type a >= inst_type b /\
     ~ (inst_type a = OFPIT_CLEAR_ACTIONS /\ inst_type b = OFPIT_APPLY_ACTIONS))
    \/ (inst_type a = OFPIT_APPLY_ACTIONS /\ inst_type b = OFPIT_CLEAR_ACTIONS).

(** The packet as [flow_table_lookup] sees it in table [t], and as
    [execute_entry] receives it once [entry] has matched. *)
Definition at_table (t : flow_table) (pkt : packet) : packet :=
  set_pkt_table_id (ts_table_id (stats t)) pkt.

Definition with_table_miss (entry : flow_entry) (pkt : packet) : packet :=
  set_handle_std (set_table_miss (is_table_miss entry) (handle_std pkt)) pkt.

(** [loop_head E pl pkt0 t pkt tr]: [pipeline_process_packet], started on
    [pkt0], stands at the head of its while loop with next_table = [t] and
    the packet [pkt], the collaborators having been called as in [tr]. *)
Inductive loop_head (E : Env) (pl : pipeline) (pkt0 : packet)
    : flow_table -> packet -> list event -> Prop :=
  | loop_head_start (t0 : flow_table) :
      tables pl !! 0%nat = Some t0 ->
      loop_head E pl pkt0 t0 pkt0 []
  | loop_head_goto (t : flow_table) (pkt : packet) (tr : list event)
        (entry : flow_entry) (t' : flow_table) (pkt' : packet) (ev : list event) :
      loop_head E pl pkt0 t pkt tr ->
      flow_table_lookup E t (at_table t pkt) = Some entry ->
      execute_entry E pl entry None (with_table_miss entry (at_table t pkt))
      = Done (Some t', Some pkt', ev) ->
      loop_head E pl pkt0 t' pkt' (tr ++ ev).

Definition is_action_set_execute (e : event) : bool :=
  match e with ev_action_set_execute _ _ _ _ => true | _ => false end.

Definition is_packet_in (e : event) : bool :=
  match e with ev_dp_send_message (ofl_packet_in _) => true | _ => false end.

(** [eth_swapped f g]: [g] is the TLV [f] with an ETH_DST header replaced
    by ETH_SRC and an ETH_SRC header by ETH_DST.  [is_mirror msg slave]:
    [slave] is [msg] with every TLV of its match so replaced. *)
Definition eth_swapped (f g : ofl_match_tlv) : Prop :=
  value g = value f /\
  (header f = OXM_OF_ETH_DST -> header g = OXM_OF_ETH_SRC) /\
  (header f = OXM_OF_ETH_SRC -> header g = OXM_OF_ETH_DST) /\
  (header f <> OXM_OF_ETH_DST -> header f <> OXM_OF_ETH_SRC ->
   header g = header f).

Definition is_mirror (msg slave : ofl_msg_flow_mod) : Prop :=
  fm_table_id slave = fm_table_id msg /\
  fm_command slave = fm_command msg /\
  fm_priority slave = fm_priority msg /\
  fm_buffer_id slave = fm_buffer_id msg /\
  fm_instructions slave = fm_instructions msg /\
  match_length (fm_match slave) = match_length (fm_match msg) /\
  Forall2 eth_swapped (match_fields (fm_match msg)) (match_fields (fm_match slave)).

(** Bits 0 .. 31 of an IPv4 mask.  [zero_above_one]: some zero bit is more
    significant than some one bit, that is, the mask is not of the prefix
    form 1..10..0.  [zero_between_ones]: some zero bit lies between two
    one bits.  [trailing_zeros mask n]: [n] is the number of trailing
    zero bits, 32 for the mask 0. *)
Definition zero_above_one (mask : Z) : Prop :=
  exists a b, 0 <= a < b /\ b < 32 /\
    Z.testbit mask a = true /\ Z.testbit mask b = false.

Definition zero_between_ones (mask : Z) : bool :=
  existsb (fun a => existsb (fun b => existsb (fun c =>
    (a <? b)%nat && (b <? c)%nat
    && Z.testbit mask (Z.of_nat a) && negb (Z.testbit mask (Z.of_nat b))
    && Z.testbit mask (Z.of_nat c))
  (seq 0 32)) (seq 0 32)) (seq 0 32).

Definition trailing_zeros (mask n : Z) : Prop :=
  0 <= n <= 32 /\
  (forall k, 0 <= k < n -> Z.testbit mask k = false) /\
  (n < 32 -> Z.testbit mask n = true).

Definition no_ipv4_dst (fields : list ofl_match_tlv) : Prop :=
  Forall (fun f => header f <> OXM_OF_IPV4_DST_W /\ header f <> OXM_OF_IPV4_DST)
         fields.

(** A multipart reply stream over the items [all], as pairs of flags and
    payload: chunks of exactly [size] items whose concatenation is [all],
    REPLY_MORE on every chunk but the last, whose flags are 0. *)
Inductive reply_stream {A : Type} (size : nat)
    : list (Z * list A) -> list A -> Prop :=
  | reply_stream_last (c : list A) :
      length c = size -> reply_stream size [(0, c)] c
  | reply_stream_more (c : list A) (rest : list (Z * list A)) (all : list A) :
      length c = size -> reply_stream size rest all ->
      reply_stream size ((OFPMPF_REPLY_MORE, c) :: rest) (c ++ all).

(** The same, spelt out. *)
Definition chunked_stream {A : Type} (size : nat)
    (chunks : list (Z * list A)) (all : list A) : Prop :=
  Forall (fun c => length c.2 = size) chunks /\
  concat (chunks.*2) = all /\
  chunks.*1 = replicate (length chunks - 1) OFPMPF_REPLY_MORE ++ [0].

Definition features_reply (r : Z * list ofl_table_features) : event :=
  ev_dp_send_message (ofl_multipart_reply_table_features r.1 r.2 8).

Definition desc_reply (r : Z * list ofl_table_desc) : event :=
  ev_dp_send_message (ofl_multipart_reply_table_desc r.1 r.2 16).

(** The description of a table as the table-desc handler sends it, and
    the table it leaves behind. *)
Definition desc_sent (E : Env) (t : flow_table) : ofl_table_desc :=
  desc_update_vacancy E (ts_active_count (stats t)) (desc t).

Definition desc_refresh (E : Env) (t : flow_table) : flow_table :=
  set_desc (desc_sent E t) t.

(** The words of the specification for a flow-mod with table_id 0xff:
    "apply to every table, first-to-last, stopping on first error". *)
Fixpoint apply_first_to_last
    (E : Env) (ids : list nat) (msg : ofl_msg_flow_mod) (k : kept) (pl : pipeline)
    : ofl_err * kept * pipeline :=
  match ids with
  | [] => (ofl_ok, k, pl)
  | i :: rest =>
      let '(error, k', pl') := flow_table_flow_mod E i msg k pl in
      if is_error error then (error, k', pl')
      else apply_first_to_last E rest msg k' pl'
  end.

(** ** A concrete environment

    Small stand-ins for the collaborators, used to run the handlers on
    concrete inputs. *)

Module Demo.

Definition out_port (p : Z) : ofl_action := {| act_type := 0; act_arg := p |}.

(* dp_actions_validate rejects an output to a port the switch lacks;
   here port 0 stands for such a port *)
Definition validate (pl : pipeline) (actions : list ofl_action) : ofl_err :=
  if existsb (fun a => (act_type a =? 0) && (act_arg a =? 0)) actions
  then ofl_error OFPET_BAD_ACTION (OFP_OTHER_CODE 4)
  else ofl_ok.

Definition bump_active (t : flow_table) : flow_table :=
  {| stats := {| ts_table_id := ts_table_id (stats t);
                 ts_active_count := ts_active_count (stats t) + 1 |};
     features := features t; saved_features := saved_features t;
     desc := desc t |}.

(* An ADD installs a fresh entry unless the table is full (4 entries
   here); every other command succeeds and installs nothing. *)
Definition table_flow_mod
    (i : nat) (msg : ofl_msg_flow_mod) (k : kept) (pl : pipeline)
    : ofl_err * kept * pipeline :=
  match fm_command msg, tables pl !! i with
  | OFPFC_ADD, Some t =>
      if 4 <=? ts_active_count (stats t) then
        (ofl_error OFPET_FLOW_MOD_FAILED (OFP_OTHER_CODE 1), k, pl)
      else
        let p := (i * 10 + Z.to_nat (ts_active_count (stats t)))%nat in
        let e := {| fe_stats := {| fs_priority := fm_priority msg; fs_cookie := 0;
                                   fs_instructions := fm_instructions msg |};
                    fe_match := fm_match msg;
                    sync_master := None; sync_slave := None |} in
        (ofl_ok, (true, true, Some p),
         {| tables := <[i := bump_active t]> (tables pl);
            config := config pl;
            entries := <[p := e]> (entries pl) |})
  | _, _ => (ofl_ok, k, pl)
  end.

Definition entry_of (insts : list ofl_instruction) : flow_entry :=
  {| fe_stats := {| fs_priority := 10; fs_cookie := 5; fs_instructions := insts |};
     fe_match := {| match_length := 4; match_fields := [] |};
     sync_master := None; sync_slave := None |}.

(* Table 0 sends every packet on to table 2; table 2 writes an output
   action for protocol 1 and misses otherwise; other tables miss. *)
Definition lookup (t : flow_table) (pkt : packet) : option flow_entry :=
  if ts_table_id (stats t) =? 0 then
    Some (entry_of [ofl_instruction_apply_actions [out_port 2];
                    ofl_instruction_goto_table 2])
  else if (ts_table_id (stats t) =? 2) && (hs_proto (handle_std pkt) =? 1) then
    Some (entry_of [ofl_instruction_write_actions [out_port 3]])
  else None.

Definition merge
    (orig m : ofl_msg_multipart_request_table_features)
    : bool * ofl_msg_multipart_request_table_features :=
  (Z.land (rq_flags m) OFPMPF_REQ_MORE =? 0,
   {| rq_flags := rq_flags orig;
      rq_tables_num := (rq_tables_num orig + rq_tables_num m)%nat;
      rq_table_features :=
        match rq_table_features orig, rq_table_features m with
        | Some a, Some b => Some (a ++ b)
        | Some a, None => Some a
        | None, b => b
        end |}).

(* glibc's qsort is a merge sort that takes the left element when
   cmp(left, right) <= 0: it is stable.  On a comparison whose verdict
   "not greater" is total and transitive every stable sort returns the
   same array; it is computed here by insertion from the right, an element
   going in front of the first one it is not greater than. *)
Fixpoint insert_sorted
    (cmp : ofl_instruction -> ofl_instruction -> Z) (x : ofl_instruction)
    (l : list ofl_instruction) : list ofl_instruction :=
  match l with
  | [] => [x]
  | y :: l' => if cmp x y <=? 0 then x :: l else y :: insert_sorted cmp x l'
  end.

Definition stable_sort
    (cmp : ofl_instruction -> ofl_instruction -> Z) (l : list ofl_instruction)
    : list ofl_instruction :=
  foldr (insert_sorted cmp) [] l.

Definition env (tables_num : nat) : Env :=
  {| PIPELINE_TABLES := tables_num;
     FLOW_TABLE_MAX_ENTRIES := 4096;
     qsort := stable_sort;
     dp_actions_validate := validate;
     dp_actions_check_set_field_req := fun _ _ => ofl_ok;
     dp_execute_action_list := fun pkt _ _ _ => pkt;
     flow_table_flow_mod := table_flow_mod;
     flow_table_lookup := lookup;
     flow_entry_is_table_miss := is_table_miss;
     ofl_msg_clone := fun m => (ofl_ok, m);
     ofl_msg_merge_multipart_request_table_features := merge;
     dp_buffers_retrieve := fun _ => None;
     dp_buffers_save := fun pkt => pkt;
     packet_handle_std_is_ttl_valid := fun hs => negb (hs_proto hs =? 0);
     packet_handle_std_validate := fun hs => hs;
     action_set_write_actions := fun s a => s ++ a;
     action_set_clear_actions := fun _ => [];
     meter_table_apply := fun pkt id => if id =? 0 then None else Some pkt;
     dp_exp_inst := fun pkt _ => pkt |}.

Definition table (id : Z) (active cfg : Z) (props : list ofl_table_mod_prop)
    : flow_table :=
  {| stats := {| ts_table_id := id; ts_active_count := active |};
     features := {| tf_table_id := id; tf_config := 0; tf_body := 0 |};
     saved_features := {| tf_table_id := id; tf_config := 0; tf_body := 0 |};
     desc := {| td_table_id := id; td_config := cfg; td_properties := props |} |}.

Definition vac (down up v : Z) (set : bool) : ofl_table_mod_prop :=
  OFPTMPT_VACANCY {| vacancy_down := down; vacancy_up := up;
                     vacancy := v; down_set := set |}.

(* [n] empty tables numbered from 0, each with one VACANCY property *)
Definition fresh_tables (n : nat) (cfg : Z) : list flow_table :=
  map (fun i => table (Z.of_nat i) 0 cfg [vac 0 0 0 false]) (seq 0 n).

Definition pl (n : nat) (cfg : Z) : pipeline :=
  {| tables := fresh_tables n cfg;
     config := {| cfg_flags := 0; miss_send_len := 128 |};
     entries := ∅ |}.

Definition master : sender :=
  {| sender_remote := {| role := OFPCR_ROLE_MASTER; mp_req_msg := None;
                         mp_req_xid := 0; mp_req_lasttime := 0 |};
     xid := 7 |}.

Definition flow_mod
    (table_id : Z) (cmd : ofp_flow_mod_command) (prio : Z)
    (fields : list ofl_match_tlv) (insts : list ofl_instruction)
    : ofl_msg_flow_mod :=
  {| fm_table_id := table_id; fm_command := cmd; fm_priority := prio;
     fm_buffer_id := NO_BUFFER;
     fm_match := {| match_length := 4 + 8 * Z.of_nat (length fields);
                    match_fields := fields |};
     fm_instructions := insts |}.

Definition pkt0 : packet :=
  {| buffer := [0; 1; 2; 3]; pkt_buffer_id := NO_BUFFER;
     handle_std := {| hs_match := {| match_length := 4; match_fields := [] |};
                      table_miss := false; hs_proto := 1 |};
     action_set := []; pkt_table_id := 0 |}.

Definition unsorted_insts : list ofl_instruction :=
  [ofl_instruction_goto_table 1; ofl_instruction_clear_actions;
   ofl_instruction_write_actions []; ofl_instruction_apply_actions [];
   ofl_instruction_meter 1].

Definition pkt1 : packet :=
  {| buffer := [0; 1; 2; 3]; pkt_buffer_id := NO_BUFFER;
     handle_std := {| hs_match := {| match_length := 4; match_fields := [] |};
                      table_miss := false; hs_proto := 2 |};
     action_set := []; pkt_table_id := 0 |}.

Definition entry0 : flow_entry :=
  entry_of [ofl_instruction_apply_actions [out_port 2];
            ofl_instruction_goto_table 2].
Definition entry2 : flow_entry :=
  entry_of [ofl_instruction_write_actions [out_port 3]].
Definition t0 : flow_table := table 0 0 0 [vac 0 0 0 false].
Definition t2 : flow_table := table 2 0 0 [vac 0 0 0 false].

(* pkt0 and pkt1 as they leave table 0 for table 2 *)
Definition pkt0_table0 : packet := with_table_miss entry0 (at_table t0 pkt0).
Definition pkt1_table0 : packet := with_table_miss entry0 (at_table t0 pkt1).
Definition tr0 (pkt : packet) : list event :=
  [ev_dp_execute_action_list pkt [out_port 2] 5 OFPR_APPLY_ACTION].

(* pkt0 as it leaves table 2, with the written action in its set *)
Definition pkt0_table2 : packet :=
  set_action_set [out_port 3] (with_table_miss entry2 (at_table t2 pkt0_table0)).

(* an ADD into table 61 matching 10.0.0.0 under the given mask bytes *)
Definition ipv4_dst_w (m1 m2 m3 m4 : Z) : ofl_match_tlv :=
  {| header := OXM_OF_IPV4_DST_W; value := [10; 0; 0; 0; m1; m2; m3; m4] |}.

Definition lpm_add (prio : Z) (oxm : ofl_match_tlv) : ofl_msg_flow_mod :=
  flow_mod 61 OFPFC_ADD prio [oxm] [].

(* an ADD into table 62 matching ETH_SRC aa:.. and ETH_DST bb:.. *)
Definition eth_add : ofl_msg_flow_mod :=
  flow_mod 62 OFPFC_ADD 7
    [{| header := OXM_OF_ETH_SRC; value := [0xaa; 0; 0; 0; 0; 1] |};
     {| header := OXM_OF_ETH_DST; value := [0xbb; 0; 0; 0; 0; 2] |}] [].

Definition eth_sorted : ofl_msg_flow_mod := flow_mod_sort (env 64) eth_add.
Definition eth_slave : ofl_msg_flow_mod := flow_mod_slave_msg eth_sorted.
(* the pipeline once table 62, and then table 63, has installed its entry *)
Definition after_62 : pipeline :=
  (table_flow_mod 62 eth_sorted (false, false, None) (pl 64 0)).2.
Definition after_63 : pipeline :=
  (table_flow_mod 63 eth_slave (false, false, None) after_62).2.

(* a table-mod with inverted vacancy thresholds *)
Definition table_mod (table_id : Z) : ofl_msg_table_mod :=
  {| tm_table_id := table_id; tm_config := OFPTC_VACANCY_EVENTS;
     tm_props := [vac 90 10 0 false] |}.

End Demo.

(** ** What the further properties are stated with *)

(** The table ids the Goto-Table instructions of a list name. *)
Definition goto_targets (insts : list ofl_instruction) : list Z :=
  omap (fun i => match i with
                 | ofl_instruction_goto_table table_id => Some table_id
                 | _ => None
                 end) insts.

Definition is_packet_destroy (e : event) : bool :=
  match e with ev_packet_destroy _ => true | _ => false end.

(** Neither an action-set execution nor a packet destruction. *)
Definition quiet (tr : list event) : Prop :=
  Forall (fun e => is_action_set_execute e = false /\ is_packet_destroy e = false) tr.

(** The action lists that flow-mod validation looks at. *)
Definition validated_actions (inst : ofl_instruction) : option (list ofl_action) :=
  match inst with
  | ofl_instruction_apply_actions actions => Some actions
  | ofl_instruction_write_actions actions => Some actions
  | _ => None
  end.

Definition actions_valid (E : Env) (pl : pipeline) (msg : ofl_msg_flow_mod)
    (inst : ofl_instruction) : Prop :=
  forall actions, validated_actions inst = Some actions ->
    dp_actions_validate E pl actions = ofl_ok /\
    dp_actions_check_set_field_req E msg actions = ofl_ok.

(** The netmask of prefix length [p]: [p] one bits from bit 31 down. *)
Definition prefix_mask (p : Z) : Z := 2 ^ 32 - 2 ^ (32 - p).

Definition is_vacancy (p : ofl_table_mod_prop) : bool :=
  match p with OFPTMPT_VACANCY _ => true | _ => false end.

(** The thresholds of an inbound VACANCY property are in order. *)
Definition vacancy_ordered (p : ofl_table_mod_prop) : Prop :=
  match p with
  | OFPTMPT_VACANCY v => vacancy_down v <= vacancy_up v
  | _ => True
  end.

(** The last VACANCY property of a table-mod, if it has one. *)
Definition last_vacancy (props : list ofl_table_mod_prop)
    : option ofl_table_mod_prop_vacancy :=
  foldl (fun acc p => match p with OFPTMPT_VACANCY v => Some v | _ => acc end)
        None props.

(** A table property once the thresholds of [vaco] are stored in it. *)
Definition with_thresholds (E : Env) (active_count : Z)
    (vaco : option ofl_table_mod_prop_vacancy) (p : ofl_table_mod_prop)
    : ofl_table_mod_prop :=
  match vaco, p with
  | Some vaco, OFPTMPT_VACANCY vacd =>
      OFPTMPT_VACANCY
        {| vacancy_down := vacancy_down vaco; vacancy_up := vacancy_up vaco;
           vacancy := vacancy vacd;
           down_set := free_percentage E active_count >=? vacancy_up vaco |}
  | _, _ => p
  end.

(** A table once a table-mod [msg] has been applied to it. *)
Definition table_modded (E : Env) (msg : ofl_msg_table_mod) (t : flow_table)
    : flow_table :=
  set_desc
    {| td_table_id := td_table_id (desc t);
       td_config := tm_config msg;
       td_properties :=
         map (with_thresholds E (ts_active_count (stats t))
                (last_vacancy (tm_props msg)))
             (td_properties (desc t)) |}
    t.

(** A table whose desc.config alone is overwritten. *)
Definition config_set (c : Z) (t : flow_table) : flow_table :=
  set_desc (set_td_config c (desc t)) t.

(** How a run of [pipeline_process_packet] ends: the packet is destroyed
    (invalid TTL, or no entry matched), its action set is executed and
    then it is destroyed, or a meter has taken it. *)
Inductive run_end (E : Env) : list event -> Prop :=
  | run_end_destroy (pkt : packet) :
      run_end E [ev_packet_destroy pkt]
  | run_end_action_set (pkt : packet) :
      run_end E [ev_action_set_execute (action_set pkt) pkt
                   COOKIE_ALL_ONES OFPR_ACTION_SET;
                 ev_packet_destroy pkt]
  | run_end_meter (pkt : packet) (meter_id : Z) :
      meter_table_apply E pkt meter_id = None ->
      run_end E [ev_meter_table_apply pkt meter_id].

(** Every Goto-Table of an entry that a table of the pipeline can return
    names a table further down the array. *)
Definition forward_gotos (E : Env) (pl : pipeline) : Prop :=
  forall i t p entry id,
    tables pl !! i = Some t ->
    flow_table_lookup E t p = Some entry ->
    id ∈ goto_targets (fs_instructions (fe_stats entry)) ->
    (i < Z.to_nat id)%nat.

Definition is_free_flow_mod (e : event) : bool :=
  match e with ev_ofl_msg_free_flow_mod _ _ _ => true | _ => false end.

(** A table none of whose properties is a VACANCY property. *)
Definition no_vacancy_property (t : flow_table) : Prop :=
  Forall (fun p => is_vacancy p = false) (td_properties (desc t)).

(** The descriptor that a table-features request with [n] descriptors
    leaves in table [j]: the last one that names the table, if any. *)
Definition requested_features
    (n : nat) (table_features : list ofl_table_features) (j : nat)
    : option ofl_table_features :=
  last (filter (fun f => Z.to_nat (tf_table_id f) = j) (take n table_features)).

(** The body of a table-features request can be applied to the tables
    [ts]: it holds as many descriptors as tables_num says, and each of
    them names one of the tables. *)
Definition body_applies
    (feat : ofl_msg_multipart_request_table_features) (ts : list flow_table)
    : Prop :=
  match rq_table_features feat with
  | Some table_features =>
      (rq_tables_num feat <= length table_features)%nat /\
      Forall (fun f => (Z.to_nat (tf_table_id f) < length ts)%nat)
             (take (rq_tables_num feat) table_features)
  | None => True
  end.

(** The features of table [j], which held [old], once the body of the
    request is applied. *)
Definition features_after
    (feat : ofl_msg_multipart_request_table_features) (j : nat)
    (old : ofl_table_features) : ofl_table_features :=
  match rq_table_features feat with
  | Some table_features =>
      match requested_features (rq_tables_num feat) table_features j with
      | Some f => f
      | None => old
      end
  | None => old
  end.

(** Two table properties that differ at most in the vacancy field of a
    VACANCY property. *)
Definition same_but_vacancy (p p' : ofl_table_mod_prop) : Prop :=
  match p, p' with
  | OFPTMPT_VACANCY v, OFPTMPT_VACANCY v' =>
      vacancy_down v' = vacancy_down v /\ vacancy_up v' = vacancy_up v /\
      down_set v' = down_set v
  | _, _ => p' = p
  end.

Module DemoMore.

(* a table-mod for all tables with thresholds in order *)
Definition table_mod_all : ofl_msg_table_mod :=
  {| tm_table_id := 0xff; tm_config := OFPTC_VACANCY_EVENTS;
     tm_props := [Demo.vac 10 90 0 false] |}.

(* tables without any property *)
Definition bare_tables (n : nat) : list flow_table :=
  map (fun i => Demo.table (Z.of_nat i) 0 0 []) (seq 0 n).

(* two tables without properties, then tables 2 .. 63 with one VACANCY
   property each *)
Definition mixed_pl : pipeline :=
  {| tables := bare_tables 2 ++ drop 2 (Demo.fresh_tables 64 0);
     config := {| cfg_flags := 0; miss_send_len := 128 |};
     entries := ∅ |}.

(* a packet whose TTL is invalid *)
Definition pkt_ttl : packet :=
  {| buffer := [0; 1; 2; 3]; pkt_buffer_id := NO_BUFFER;
     handle_std := {| hs_match := {| match_length := 4; match_fields := [] |};
                      table_miss := false; hs_proto := 0 |};
     action_set := []; pkt_table_id := 0 |}.

Definition pl_ttl : pipeline :=
  {| tables := [];
     config := {| cfg_flags := OFPC_INVALID_TTL_TO_CONTROLLER;
                  miss_send_len := 2 |};
     entries := ∅ |}.

Definition metadata_tlv : ofl_match_tlv :=
  {| header := OXM_OF_METADATA; value := [0x11; 0x22; 0x33; 0x44; 0; 0; 0; 0] |}.

Definition features_of (id cfg : Z) : ofl_table_features :=
  {| tf_table_id := id; tf_config := cfg; tf_body := 9 |}.

(* one fragment of a table-features request, with one descriptor *)
Definition fragment (flags : Z) (id : Z) : ofl_msg_multipart_request_table_features :=
  {| rq_flags := flags; rq_tables_num := 1;
     rq_table_features := Some [features_of id 5] |}.

(* the remote of Demo.master once the fragment for table 3 is stored *)
Definition pending : remote :=
  {| role := OFPCR_ROLE_MASTER;
     mp_req_msg := Some {| rq_flags := 0; rq_tables_num := 1;
                           rq_table_features := Some [features_of 3 5] |};
     mp_req_xid := 7; mp_req_lasttime := 100 |}.

(* [n] tables, table i holding i + 1 entries, features with config 5 and
   saved features with config 9 *)
Definition configured_tables (n : nat) : list flow_table :=
  map (fun i =>
         {| stats := {| ts_table_id := Z.of_nat i;
                        ts_active_count := Z.of_nat i + 1 |};
            features := {| tf_table_id := Z.of_nat i; tf_config := 5; tf_body := 1 |};
            saved_features :=
              {| tf_table_id := Z.of_nat i; tf_config := 9; tf_body := 2 |};
            desc := {| td_table_id := Z.of_nat i; td_config := 0;
                       td_properties := [] |} |})
      (seq 0 n).

Definition configured_pl (n : nat) : pipeline :=
  {| tables := configured_tables n;
     config := {| cfg_flags := 0; miss_send_len := 128 |};
     entries := ∅ |}.

Definition features_request : ofl_msg_multipart_request_table_features :=
  {| rq_flags := 0; rq_tables_num := 2;
     rq_table_features := Some [features_of 3 5; features_of 1 6] |}.

End DemoMore.

(** * Theorems *)

(** ** The instruction sort *)

Lemma inst_compare_sort_key (a b : ofl_instruction) :
  inst_compare a b <= 0 <-> (sort_key a <= sort_key b)%nat.
Proof.
  destruct a, b; cbn; split; intros H; try lia; try (exfalso; cbn in H; lia).
Qed.

Lemma inst_compare_total (a b : ofl_instruction) :
  inst_compare a b <= 0 \/ inst_compare b a <= 0.
Proof. rewrite !inst_compare_sort_key. lia. Qed.

Lemma inst_compare_trans (a b c : ofl_instruction) :
  inst_compare a b <= 0 -> inst_compare b c <= 0 -> inst_compare a c <= 0.
Proof. rewrite !inst_compare_sort_key. lia. Qed.

Lemma StronglySorted_lookup {A} (R : A -> A -> Prop) (l : list A) :
  StronglySorted R l ->
  forall i j a b, (i < j)%nat -> l !! i = Some a -> l !! j = Some b -> R a b.
Proof.
  induction 1 as [|x l Hs IH Hall]; intros i j a b Hij Ha Hb.
  - by rewrite lookup_nil in Ha.
  - destruct j as [|j]; [lia|]. cbn in Hb.
    destruct i as [|i]; cbn in Ha.
    + injection Ha as <-. rewrite Forall_forall in Hall.
      apply Hall. eapply list_elem_of_lookup_2, Hb.
    + apply (IH i j); [lia|done..].
Qed.

Lemma insert_sorted_Permutation
    (cmp : ofl_instruction -> ofl_instruction -> Z) (x : ofl_instruction)
    (l : list ofl_instruction) :
  Demo.insert_sorted cmp x l ≡ₚ x :: l.
Proof.
  induction l as [|y l IH]; [done|]. cbn.
  destruct (cmp x y <=? 0); [done|]. by rewrite IH, Permutation_swap.
Qed.

Lemma insert_sorted_StronglySorted
    (cmp : ofl_instruction -> ofl_instruction -> Z) (x : ofl_instruction)
    (l : list ofl_instruction) :
  (forall a b, cmp a b <= 0 \/ cmp b a <= 0) ->
  (forall a b c, cmp a b <= 0 -> cmp b c <= 0 -> cmp a c <= 0) ->
  StronglySorted (fun a b => cmp a b <= 0) l ->
  StronglySorted (fun a b => cmp a b <= 0) (Demo.insert_sorted cmp x l).
Proof.
  intros Htot Htrans. induction 1 as [|y l Hs IH Hall]; cbn.
  - by repeat constructor.
  - destruct (Z.leb_spec (cmp x y) 0) as [Hle|Hgt].
    + constructor; [by constructor|]. constructor; [done|].
      eapply Forall_impl; [exact Hall|]. intros z Hz. by eapply Htrans.
    + constructor; [done|]. rewrite insert_sorted_Permutation.
      constructor; [|done]. destruct (Htot x y); [lia|done].
Qed.

Lemma stable_sort_contract : qsort_contract Demo.stable_sort.
Proof.
  intros cmp l Htot Htrans. unfold Demo.stable_sort.
  induction l as [|x l [Hperm Hsorted]]; [by split; [|constructor]|]. cbn. split.
  - by rewrite insert_sorted_Permutation, Hperm.
  - by apply insert_sorted_StronglySorted.
Qed.

(* equal keys keep their order *)
Lemma stable_sort_keeps_ties :
  Demo.stable_sort inst_compare
    [ofl_instruction_goto_table 1; ofl_instruction_meter 4;
     ofl_instruction_goto_table 2; ofl_instruction_goto_table 3]
  = [ofl_instruction_meter 4; ofl_instruction_goto_table 1;
     ofl_instruction_goto_table 2; ofl_instruction_goto_table 3].
Proof. reflexivity. Qed.

Lemma flow_mod_sort_sorted (E : Env) (msg : ofl_msg_flow_mod) :
  qsort_contract (qsort E) ->
  forall i j a b, (i < j)%nat ->
    fm_instructions (flow_mod_sort E msg) !! i = Some a ->
    fm_instructions (flow_mod_sort E msg) !! j = Some b ->
    (sort_key a <= sort_key b)%nat.
Proof.
  intros Hq i j a b Hij Ha Hb.
  destruct (Hq inst_compare (fm_instructions msg)
              inst_compare_total inst_compare_trans) as [_ Hs].
  apply inst_compare_sort_key.
  exact (StronglySorted_lookup _ _ Hs i j a b Hij Ha Hb).
Qed.

Lemma sort_key_type_order (a b : ofl_instruction) :
  (sort_key a <= sort_key b)%nat ->
  (inst_type a >= inst_type b /\
   ~ (inst_type a = OFPIT_CLEAR_ACTIONS /\ inst_type b = OFPIT_APPLY_ACTIONS))
  \/ (inst_type a = OFPIT_APPLY_ACTIONS /\ inst_type b = OFPIT_CLEAR_ACTIONS).
Proof.
  destruct a, b; cbn; intros H;
    first [ exfalso; lia
          | right; split; reflexivity
          | left; split; [ discriminate | intros [? ?]; discriminate ] ].
Qed.

(** C1, as amended.  After [pipeline_handle_flow_mod] has sorted the
    instruction array with a [qsort] that honours [inst_compare]'s
    "greater" verdicts, the array holds the same instructions, any two of
    them stand in the execution order Meter, Apply-Actions, Clear-Actions,
    Write-Actions, Write-Metadata, Goto-Table, and this is the order of
    instruction types descending with Apply-Actions before
    Clear-Actions. *)
Theorem flow_mod_sort_canonical_order (E : Env) (msg : ofl_msg_flow_mod) :
  qsort_contract (qsort E) ->
  fm_instructions (flow_mod_sort E msg) ≡ₚ fm_instructions msg /\
  (forall i j a b pa pb, (i < j)%nat ->
     fm_instructions (flow_mod_sort E msg) !! i = Some a ->
     fm_instructions (flow_mod_sort E msg) !! j = Some b ->
     canonical_position a = Some pa -> canonical_position b = Some pb ->
     (pa <= pb)%nat) /\
  type_descending_apply_first (fm_instructions (flow_mod_sort E msg)).
Proof.
  intros Hq. split; [|split].
  - apply (Hq inst_compare (fm_instructions msg));
      [apply inst_compare_total | apply inst_compare_trans].
  - intros i j a b pa pb Hij Ha Hb Hpa Hpb.
    pose proof (flow_mod_sort_sorted E msg Hq i j a b Hij Ha Hb) as Hk.
    unfold sort_key in Hk. rewrite Hpa, Hpb in Hk. lia.
  - intros i j a b Hij Ha Hb. apply sort_key_type_order.
    exact (flow_mod_sort_sorted E msg Hq i j a b Hij Ha Hb).
Qed.

Lemma flow_mod_sort_canonical_order_witness :
  qsort_contract (qsort (Demo.env 64)) /\
  fm_instructions
    (flow_mod_sort (Demo.env 64) (Demo.flow_mod 0 OFPFC_ADD 1 [] Demo.unsorted_insts))
  = [ofl_instruction_meter 1; ofl_instruction_apply_actions [];
     ofl_instruction_clear_actions; ofl_instruction_write_actions [];
     ofl_instruction_goto_table 1] /\
  type_descending_apply_first
    (fm_instructions
       (flow_mod_sort (Demo.env 64) (Demo.flow_mod 0 OFPFC_ADD 1 [] Demo.unsorted_insts))).
Proof.
  split; [exact stable_sort_contract|]. split; [vm_compute; reflexivity|].
  apply (flow_mod_sort_canonical_order (Demo.env 64)
           (Demo.flow_mod 0 OFPFC_ADD 1 [] Demo.unsorted_insts)).
  exact stable_sort_contract.
Defined.

(** C1 as stated fails in its gloss "sorted by instruction type
    ascending": Goto-Table (type 1) followed by Meter (type 6) is sorted
    into Meter, Goto-Table. *)
Lemma flow_mod_sort_not_type_ascending :
  ~ (forall (E : Env) (msg : ofl_msg_flow_mod),
       qsort_contract (qsort E) ->
       type_ascending (fm_instructions (flow_mod_sort E msg))).
Proof.
  intros H.
  specialize (H (Demo.env 64)
                (Demo.flow_mod 0 OFPFC_ADD 1 []
                   [ofl_instruction_goto_table 1; ofl_instruction_meter 1])
                stable_sort_contract
                0%nat 1%nat (ofl_instruction_meter 1) (ofl_instruction_goto_table 1)).
  assert (Hlt : (0 < 1)%nat) by lia.
  specialize (H Hlt eq_refl eq_refl).
  unfold inst_type, OFPIT_METER, OFPIT_GOTO_TABLE in H. lia.
Qed.

(** ** Table-mod *)

Lemma table_mod_single_table_noop
    (E : Env) (pl : pipeline) (msg : ofl_msg_table_mod) (sender : sender) :
  role (sender_remote sender) <> OFPCR_ROLE_SLAVE ->
  tm_table_id msg <> 0xff ->
  pipeline_handle_table_mod E pl msg sender
  = Done (ofl_ok, pl, [ev_ofl_msg_free_table_mod msg]).
Proof.
  intros Hrole Hid. unfold pipeline_handle_table_mod.
  destruct (role (sender_remote sender)); try congruence;
    (destruct (Z.eqb_spec (tm_table_id msg) 0xff) as [|_]; [congruence|]);
    by rewrite Nat.sub_diag.
Qed.

(** C2 fails on the code.  A table-mod for table 0 with
    vacancy_down = 90 > vacancy_up = 10 and a new config returns 0 and
    leaves the pipeline as it was: with ti_start = ti_stop = table_id the
    loop body is never entered.  The same message sent to all tables
    (0xff) does reach the body and is refused. *)
Theorem table_mod_single_table_ignored :
  pipeline_handle_table_mod (Demo.env 64) (Demo.pl 64 0) (Demo.table_mod 0) Demo.master
  = Done (ofl_ok, Demo.pl 64 0, [ev_ofl_msg_free_table_mod (Demo.table_mod 0)]) /\
  pipeline_handle_table_mod (Demo.env 64) (Demo.pl 64 0) (Demo.table_mod 0xff) Demo.master
  = Done (ofl_error OFPET_TABLE_FEATURES_FAILED OFPTFFC_BAD_ARGUMENT, Demo.pl 64 0, []).
Proof. split; vm_compute; reflexivity. Qed.

(** ** Flow-mod with table_id 0xff *)

Lemma flow_mod_all_tables_spec
    (E : Env) (n i : nat) (msg : ofl_msg_flow_mod) (k : kept) (pl : pipeline) :
  flow_mod_all_tables E n i msg k pl = apply_first_to_last E (seq i n) msg k pl.
Proof.
  revert i k pl. induction n as [|n IH]; intros i k pl; [done|].
  cbn. destruct (flow_table_flow_mod E i msg k pl) as [[e k'] pl'].
  destruct (is_error e); [done|]. apply IH.
Qed.

(** C9, as amended: for a flow-mod from a non-slave sender with
    table_id 0xff whose actions validate.  A DELETE or DELETE_STRICT is
    applied to the tables 0 .. PIPELINE_TABLES-1 in that order, stopping at
    the first error, which is returned with the earlier tables' changes
    kept; every other command returns FLOW_MOD_FAILED/BAD_TABLE_ID and
    leaves the pipeline untouched. *)
Theorem flow_mod_all_tables_dispatch
    (E : Env) (fuel : nat) (pl : pipeline) (msg : ofl_msg_flow_mod) (sender : sender) :
  role (sender_remote sender) <> OFPCR_ROLE_SLAVE ->
  fm_table_id msg = 0xff ->
  flow_mod_validate_actions E pl (flow_mod_sort E msg)
    (fm_instructions (flow_mod_sort E msg)) = ofl_ok ->
  pipeline_handle_flow_mod E fuel pl msg sender =
    match fm_command msg with
    | OFPFC_DELETE | OFPFC_DELETE_STRICT =>
        let '(error, (match_kept, insts_kept, _), pl') :=
          apply_first_to_last E (seq 0 (PIPELINE_TABLES E)) (flow_mod_sort E msg)
            (false, false, None) pl in
        if is_error error then Done (error, pl', [])
        else Done (ofl_ok, pl',
                   [ev_ofl_msg_free_flow_mod (flow_mod_sort E msg)
                      (negb match_kept) (negb insts_kept)])
    | _ => Done (ofl_error OFPET_FLOW_MOD_FAILED OFPFMFC_BAD_TABLE_ID, pl, [])
    end.
Proof.
  intros Hrole Hid Hval. unfold pipeline_handle_flow_mod.
  assert (Hlpm : flow_mod_validate_lpm (flow_mod_sort E msg) = Done ofl_ok).
  { unfold flow_mod_validate_lpm. cbn. rewrite Hid. by destruct (fm_command msg). }
  destruct (role (sender_remote sender)); try congruence;
    cbv zeta; rewrite Hval, Hlpm; cbn;
    unfold flow_mod_dispatch; cbn; rewrite Hid; cbn;
    rewrite flow_mod_all_tables_spec; reflexivity.
Qed.

Lemma flow_mod_all_tables_dispatch_witness :
  role (sender_remote Demo.master) <> OFPCR_ROLE_SLAVE /\
  pipeline_handle_flow_mod (Demo.env 64) 0 (Demo.pl 64 0)
    (Demo.flow_mod 0xff OFPFC_MODIFY 1 [] Demo.unsorted_insts) Demo.master
  = Done (ofl_error OFPET_FLOW_MOD_FAILED OFPFMFC_BAD_TABLE_ID, Demo.pl 64 0, []).
Proof.
  split; [discriminate|].
  apply (flow_mod_all_tables_dispatch (Demo.env 64) 0 (Demo.pl 64 0)
           (Demo.flow_mod 0xff OFPFC_MODIFY 1 [] Demo.unsorted_insts) Demo.master).
  - discriminate.
  - reflexivity.
  - vm_compute; reflexivity.
Defined.

(** C9 as stated fails when the actions do not validate: an ADD with
    table_id 0xff whose Apply-Actions outputs to a port the switch lacks
    returns the validation error, not BAD_TABLE_ID. *)
Lemma flow_mod_all_tables_validation_first :
  pipeline_handle_flow_mod (Demo.env 64) 0 (Demo.pl 64 0)
    (Demo.flow_mod 0xff OFPFC_ADD 1 []
       [ofl_instruction_apply_actions [Demo.out_port 0]]) Demo.master
  = Done (ofl_error OFPET_BAD_ACTION (OFP_OTHER_CODE 4), Demo.pl 64 0, []) /\
  pipeline_handle_flow_mod (Demo.env 64) 0 (Demo.pl 64 0)
    (Demo.flow_mod 0xff OFPFC_ADD 1 []
       [ofl_instruction_apply_actions [Demo.out_port 0]]) Demo.master
  <> Done (ofl_error OFPET_FLOW_MOD_FAILED OFPFMFC_BAD_TABLE_ID, Demo.pl 64 0, []).
Proof. split; [vm_compute; reflexivity | vm_compute; discriminate]. Qed.

(** ** Multipart replies *)

Lemma reply_stream_props {A} (size : nat) (chunks : list (Z * list A)) (all : list A) :
  reply_stream size chunks all ->
  Forall (fun c => length c.2 = size) chunks /\
  concat (chunks.*2) = all /\
  chunks.*1 = replicate (length chunks - 1) OFPMPF_REPLY_MORE ++ [0] /\
  (length all = length chunks * size)%nat.
Proof.
  induction 1 as [c Hc | c rest all Hc Hs (Hall & Hcat & Hfl & Hlen)].
  - repeat split; cbn; [by repeat constructor | by rewrite app_nil_r | lia].
  - repeat split; cbn.
    + by constructor.
    + by rewrite Hcat.
    + rewrite Hfl. destruct Hs; cbn; rewrite ?Nat.sub_0_r; reflexivity.
    + rewrite length_app, Hlen, Hc. lia.
Qed.

Section Replies.

Variable E : Env.
Variable ts : list flow_table.
Hypothesis Hlen : length ts = PIPELINE_TABLES E.

Lemma features_chunk_ok (n j : nat) :
  (j + n <= length ts)%nat ->
  features_chunk n ts j = Done (map features (take n (drop j ts)), (j + n)%nat).
Proof.
  revert j. induction n as [|n IH]; intros j Hj.
  - cbn. by rewrite take_0, Nat.add_0_r.
  - destruct (lookup_lt_is_Some_2 ts j ltac:(lia)) as [t Ht].
    cbn. rewrite Ht. cbn. rewrite IH by lia. cbn.
    rewrite (drop_S _ _ _ Ht). cbn. do 3 f_equal. lia.
Qed.

Lemma features_reply_loop_stream (m : nat) :
  forall fuel j, (m < fuel)%nat -> (j + 8 * S m = PIPELINE_TABLES E)%nat ->
  exists chunks,
    features_reply_loop E fuel ts j = Done (map features_reply chunks) /\
    reply_stream 8 chunks (map features (drop j ts)).
Proof.
  induction m as [|m IH]; intros fuel j Hfuel Hj;
    (destruct fuel as [|fuel]; [lia|]); cbn [features_reply_loop];
    rewrite features_chunk_ok by lia; cbn -[Nat.ltb Nat.eqb].
  - replace (j + 8)%nat with (PIPELINE_TABLES E) by lia.
    rewrite Nat.eqb_refl, Nat.ltb_irrefl.
    exists [(0, map features (take 8 (drop j ts)))]. split; [done|].
    rewrite take_ge by (rewrite length_drop; lia).
    constructor. rewrite length_map, length_drop. lia.
  - destruct (Nat.eqb_spec (j + 8) (PIPELINE_TABLES E)) as [|_]; [lia|].
    destruct (Nat.ltb_spec (j + 8) (PIPELINE_TABLES E)) as [_|]; [|lia].
    destruct (IH fuel (j + 8)%nat ltac:(lia) ltac:(lia)) as (chunks & -> & Hs).
    cbn. exists ((OFPMPF_REPLY_MORE, map features (take 8 (drop j ts))) :: chunks).
    split; [done|].
    rewrite <-(take_drop 8 (drop j ts)) at 2. rewrite map_app, drop_drop.
    constructor; [|done].
    rewrite length_map, length_take, length_drop. lia.
Qed.

End Replies.

Lemma desc_chunk_ok (E : Env) (n : nat) :
  forall (l : list flow_table) (j : nat), (j + n <= length l)%nat ->
  desc_chunk E n l j
  = Done (map (desc_sent E) (take n (drop j l)),
          take j l ++ map (desc_refresh E) (take n (drop j l)) ++ drop (j + n) l,
          (j + n)%nat).
Proof.
  induction n as [|n IH]; intros l j Hj.
  - cbn. rewrite take_0, Nat.add_0_r. cbn. by rewrite take_drop.
  - destruct (lookup_lt_is_Some_2 l j ltac:(lia)) as [t Ht].
    cbn [desc_chunk]. rewrite Ht. cbn.
    rewrite IH by (rewrite length_insert; lia). cbn.
    rewrite (drop_S _ _ _ Ht). cbn.
    rewrite drop_insert_lt by lia.
    rewrite (drop_insert_lt _ (S j + n)) by lia.
    rewrite (insert_take_drop l j) by lia.
    assert (Htk : forall x, take (S j) (take j l ++ x :: drop (S j) l)
                            = take j l ++ [x]).
    { intros x. rewrite cons_middle, app_assoc. apply take_app_length'.
      rewrite length_app, length_take. cbn. lia. }
    rewrite Htk.
    replace (S j + n)%nat with (j + S n)%nat by lia.
    replace (S (j + n)) with (j + S n)%nat by lia.
    rewrite <-app_assoc. reflexivity.
Qed.

Lemma desc_reply_loop_stream (E : Env) (m : nat) :
  forall fuel (l : list flow_table) j,
  (m < fuel)%nat -> length l = PIPELINE_TABLES E ->
  (j + 16 * S m = PIPELINE_TABLES E)%nat ->
  exists chunks,
    desc_reply_loop E fuel l j
    = Done (take j l ++ map (desc_refresh E) (drop j l), map desc_reply chunks) /\
    reply_stream 16 chunks (map (desc_sent E) (drop j l)).
Proof.
  induction m as [|m IH]; intros fuel l j Hfuel Hl Hj;
    (destruct fuel as [|fuel]; [lia|]); cbn [desc_reply_loop];
    rewrite desc_chunk_ok by lia; cbn -[Nat.ltb Nat.eqb].
  - replace (j + 16)%nat with (PIPELINE_TABLES E) by lia.
    rewrite Nat.eqb_refl, Nat.ltb_irrefl.
    exists [(0, map (desc_sent E) (take 16 (drop j l)))].
    rewrite (take_ge (drop j l)) by (rewrite length_drop; lia).
    rewrite (drop_ge l (PIPELINE_TABLES E)) by lia. rewrite app_nil_r.
    split; [done|]. constructor. rewrite length_map, length_drop. lia.
  - destruct (Nat.eqb_spec (j + 16) (PIPELINE_TABLES E)) as [|_]; [lia|].
    destruct (Nat.ltb_spec (j + 16) (PIPELINE_TABLES E)) as [_|]; [|lia].
    set (l1 := take j l ++ map (desc_refresh E) (take 16 (drop j l))
                 ++ drop (j + 16) l).
    assert (Hpre : length (take j l ++ map (desc_refresh E) (take 16 (drop j l)))
                   = (j + 16)%nat).
    { rewrite length_app, length_map, !length_take, length_drop. lia. }
    assert (Hl1 : length l1 = PIPELINE_TABLES E).
    { unfold l1. rewrite app_assoc, length_app, Hpre, length_drop. lia. }
    assert (Hdrop : drop (j + 16) l1 = drop (j + 16) l).
    { unfold l1. rewrite app_assoc. by rewrite drop_app_length'. }
    assert (Htake : take (j + 16) l1
                    = take j l ++ map (desc_refresh E) (take 16 (drop j l))).
    { unfold l1. rewrite app_assoc. by rewrite take_app_length'. }
    destruct (IH fuel l1 (j + 16)%nat ltac:(lia) Hl1 ltac:(lia))
      as (chunks & -> & Hs).
    cbn. exists ((OFPMPF_REPLY_MORE, map (desc_sent E) (take 16 (drop j l))) :: chunks).
    rewrite Hdrop in Hs |- *. rewrite Htake. split.
    + rewrite <-app_assoc, <-map_app.
      rewrite <-(drop_drop l 16 j), take_drop. reflexivity.
    + rewrite <-(take_drop 16 (drop j l)) at 2. rewrite map_app, drop_drop.
      constructor; [|done].
      rewrite length_map, length_take, length_drop. lia.
Qed.

Lemma reply_stream_chunked {A} (size : nat) (chunks : list (Z * list A)) (all : list A) :
  reply_stream size chunks all -> chunked_stream size chunks all.
Proof. intros H. destruct (reply_stream_props _ _ _ H) as (?&?&?&?). by repeat split. Qed.

Lemma features_update_length (n : nat) :
  forall i tf ts ts', features_update n i tf ts = Done ts' -> length ts' = length ts.
Proof.
  induction n as [|n IH]; intros i tf ts ts' H; cbn in H.
  - by injection H as <-.
  - destruct (tf !! i) as [f|]; [|done]. cbn in H.
    destruct (ts !! Z.to_nat (tf_table_id f)) as [t|]; [|done]. cbn in H.
    apply IH in H. by rewrite length_insert in H.
Qed.

Lemma divide_chunks (size n : nat) :
  (0 < size)%nat -> (0 < n)%nat -> (size | n)%nat ->
  exists m, (0 + size * S m = n)%nat /\ (m < S n)%nat.
Proof.
  intros Hs Hn [q Hq]. destruct q as [|q]; [lia|]. exists q. nia.
Qed.

(** C8, as amended.  With PIPELINE_TABLES a positive multiple of 8, every
    path of the table-features handler that replies sends the features of
    the tables 0 .. PIPELINE_TABLES-1 once each and in order, 8 per
    message, REPLY_MORE on every message but the last, whose flags are 0.
    With PIPELINE_TABLES a positive multiple of 16 the table-desc handler
    does the same with the table descriptions, 16 per message. *)
Theorem multipart_reply_streams (E : Env) (pl : pipeline) :
  (0 < PIPELINE_TABLES E)%nat ->
  length (tables pl) = PIPELINE_TABLES E ->
  ((8 | PIPELINE_TABLES E)%nat ->
   forall feat r ts,
     features_requested feat (tables pl) = Done ts ->
     exists chunks r',
       features_complete E pl feat r
       = Done (ofl_ok, set_tables ts pl, r', map features_reply chunks) /\
       length ts = PIPELINE_TABLES E /\
       chunked_stream 8 chunks (map features ts)) /\
  ((16 | PIPELINE_TABLES E)%nat ->
   exists chunks ts,
     pipeline_handle_stats_request_table_desc_request E pl
     = Done (ofl_ok, set_tables ts pl, map desc_reply chunks) /\
     length ts = PIPELINE_TABLES E /\
     chunked_stream 16 chunks (map desc ts)).
Proof.
  intros Hpos Hlen. split.
  - intros Hdiv feat r ts Hreq.
    assert (Hts : length ts = PIPELINE_TABLES E).
    { unfold features_requested in Hreq.
      destruct (rq_table_features feat).
      - apply features_update_length in Hreq. lia.
      - by injection Hreq as <-. }
    destruct (divide_chunks 8 _ ltac:(lia) Hpos Hdiv) as (m & Hm & Hfuel).
    destruct (features_reply_loop_stream E ts Hts m _ 0%nat Hfuel Hm)
      as (chunks & Hloop & Hs).
    exists chunks. eexists. unfold features_complete.
    rewrite Hreq. cbn -[features_reply_loop].
    rewrite Hloop. cbn. split; [reflexivity|]. split; [done|].
    by apply reply_stream_chunked.
  - intros Hdiv.
    destruct (divide_chunks 16 _ ltac:(lia) Hpos Hdiv) as (m & Hm & Hfuel).
    destruct (desc_reply_loop_stream E m _ (tables pl) 0%nat Hfuel Hlen Hm)
      as (chunks & Hloop & Hs).
    exists chunks, (map (desc_refresh E) (tables pl)).
    unfold pipeline_handle_stats_request_table_desc_request.
    rewrite Hloop. cbn. split; [reflexivity|].
    split; [by rewrite length_map|].
    apply reply_stream_chunked. cbn in Hs.
    replace (map desc (map (desc_refresh E) (tables pl)))
      with (map (desc_sent E) (tables pl)); [done|].
    rewrite map_map. reflexivity.
Qed.

Lemma multipart_reply_streams_witness :
  (0 < PIPELINE_TABLES (Demo.env 64))%nat /\
  length (tables (Demo.pl 64 0)) = PIPELINE_TABLES (Demo.env 64) /\
  exists chunks ts,
    pipeline_handle_stats_request_table_desc_request (Demo.env 64) (Demo.pl 64 0)
    = Done (ofl_ok, set_tables ts (Demo.pl 64 0), map desc_reply chunks) /\
    length ts = PIPELINE_TABLES (Demo.env 64) /\
    chunked_stream 16 chunks (map desc ts).
Proof.
  split; [cbn; lia|]. split; [reflexivity|].
  refine (proj2 (multipart_reply_streams (Demo.env 64) (Demo.pl 64 0) _ _) _).
  - cbn; lia.
  - reflexivity.
  - exists 4%nat. reflexivity.
Defined.

(** C8 as stated fails for the table-desc stream: 72 is a multiple of 8
    and at least 64, but the fifth round of 16 reads tables 64 .. 79 of
    an array of 72.  Were the memory behind the array readable as tables,
    the stream would carry 80 descriptions and end on a message with
    REPLY_MORE set, [j] stepping from 64 to 80 past 72. *)
Lemma table_desc_stream_needs_multiple_of_16 :
  (8 | 72)%nat /\ (64 <= 72)%nat /\
  length (tables (Demo.pl 72 0)) = PIPELINE_TABLES (Demo.env 72) /\
  pipeline_handle_stats_request_table_desc_request (Demo.env 72) (Demo.pl 72 0)
  = Undefined /\
  exists ts evs c,
    desc_reply_loop (Demo.env 72) 73 (Demo.fresh_tables 80 0) 0 = Done (ts, evs) /\
    length evs = 5%nat /\
    last evs = Some (desc_reply (OFPMPF_REPLY_MORE, c)).
Proof.
  split; [exists 9%nat; reflexivity|]. split; [lia|]. split; [reflexivity|].
  split; [vm_compute; reflexivity|].
  eexists _, _, _. split; [vm_compute; reflexivity|].
  split; reflexivity.
Qed.

(** ** Vacancy in table-desc replies *)

Lemma free_percentage_exact (E : Env) (active_count : Z) :
  0 < FLOW_TABLE_MAX_ENTRIES E ->
  FLOW_TABLE_MAX_ENTRIES E * 100 < 2 ^ 32 ->
  0 <= active_count <= FLOW_TABLE_MAX_ENTRIES E ->
  free_percentage E active_count mod 2 ^ 8
  = (FLOW_TABLE_MAX_ENTRIES E - active_count) * 100 / FLOW_TABLE_MAX_ENTRIES E.
Proof.
  intros Hpos Hmax Hac. unfold free_percentage.
  set (M := FLOW_TABLE_MAX_ENTRIES E) in *.
  rewrite (Z.mod_small (M - active_count)) by lia.
  rewrite (Z.mod_small ((M - active_count) * 100)) by nia.
  rewrite (Z.mod_small M) by lia.
  apply Z.mod_small. split.
  - apply Z.div_pos; nia.
  - apply Z.div_lt_upper_bound; nia.
Qed.

Lemma desc_sent_flag_set (E : Env) (t : flow_table) (v : ofl_table_mod_prop_vacancy) :
  Z.land (td_config (desc t)) OFPTC_VACANCY_EVENTS <> 0 ->
  OFPTMPT_VACANCY v ∈ td_properties (desc_sent E t) ->
  vacancy v = free_percentage E (ts_active_count (stats t)) mod 2 ^ 8.
Proof.
  intros Hflag Hin. unfold desc_sent, desc_update_vacancy in Hin. cbn in Hin.
  apply list_elem_of_fmap in Hin as (p & Hp & _).
  destruct (Z.eqb_spec (Z.land (td_config (desc t)) OFPTC_VACANCY_EVENTS) 0)
    as [|_]; [done|].
  cbn in Hp. destruct p; inversion Hp. reflexivity.
Qed.

Lemma desc_sent_flag_clear (E : Env) (t : flow_table) :
  Z.land (td_config (desc t)) OFPTC_VACANCY_EVENTS = 0 ->
  desc_sent E t = desc t.
Proof.
  intros Hflag. unfold desc_sent, desc_update_vacancy. rewrite Hflag. cbn.
  destruct (desc t) as [id cfg props]. unfold set_td_properties. cbn.
  f_equal. apply list_fmap_id.
Qed.

(** C10, as amended.  In every table-desc reply (PIPELINE_TABLES a
    positive multiple of 16, no table holding more than
    FLOW_TABLE_MAX_ENTRIES entries), for every table whose desc.config has
    OFPTC_VACANCY_EVENTS set, each VACANCY property is sent with
    vacancy = (FLOW_TABLE_MAX_ENTRIES - active_count) * 100 /
    FLOW_TABLE_MAX_ENTRIES from the table's active_count at that moment;
    a table without that flag is sent with its stored description
    unchanged. *)
Theorem table_desc_vacancy (E : Env) (pl : pipeline) :
  (0 < PIPELINE_TABLES E)%nat ->
  (16 | PIPELINE_TABLES E)%nat ->
  length (tables pl) = PIPELINE_TABLES E ->
  0 < FLOW_TABLE_MAX_ENTRIES E ->
  FLOW_TABLE_MAX_ENTRIES E * 100 < 2 ^ 32 ->
  Forall (fun t => 0 <= ts_active_count (stats t) <= FLOW_TABLE_MAX_ENTRIES E)
         (tables pl) ->
  exists chunks pl',
    pipeline_handle_stats_request_table_desc_request E pl
    = Done (ofl_ok, pl', map desc_reply chunks) /\
    forall j t, tables pl !! j = Some t ->
      exists d, concat (chunks.*2) !! j = Some d /\
        (Z.land (td_config (desc t)) OFPTC_VACANCY_EVENTS <> 0 ->
         forall v, OFPTMPT_VACANCY v ∈ td_properties d ->
           vacancy v = (FLOW_TABLE_MAX_ENTRIES E - ts_active_count (stats t)) * 100
                       / FLOW_TABLE_MAX_ENTRIES E) /\
        (Z.land (td_config (desc t)) OFPTC_VACANCY_EVENTS = 0 -> d = desc t).
Proof.
  intros Hpos Hdiv Hlen Hmax Hmax' Hac.
  destruct (divide_chunks 16 _ ltac:(lia) Hpos Hdiv) as (m & Hm & Hfuel).
  destruct (desc_reply_loop_stream E m _ (tables pl) 0%nat Hfuel Hlen Hm)
    as (chunks & Hloop & Hs).
  apply reply_stream_props in Hs as (_ & Hcat & _). rewrite drop_0 in Hcat.
  exists chunks. eexists.
  unfold pipeline_handle_stats_request_table_desc_request.
  rewrite Hloop. cbn. split; [reflexivity|].
  intros j t Ht. exists (desc_sent E t). rewrite Hcat. split.
  - by rewrite list_lookup_fmap, Ht.
  - split.
    + intros Hflag v Hv. rewrite (desc_sent_flag_set E t v Hflag Hv).
      apply free_percentage_exact; [done..|].
      rewrite Forall_forall in Hac. apply Hac.
      eapply list_elem_of_lookup_2, Ht.
    + apply desc_sent_flag_clear.
Qed.

Lemma table_desc_vacancy_witness :
  (0 < PIPELINE_TABLES (Demo.env 64))%nat /\
  (16 | PIPELINE_TABLES (Demo.env 64))%nat /\
  length (tables (Demo.pl 64 8)) = PIPELINE_TABLES (Demo.env 64) /\
  exists chunks pl',
    pipeline_handle_stats_request_table_desc_request (Demo.env 64) (Demo.pl 64 8)
    = Done (ofl_ok, pl', map desc_reply chunks) /\
    forall j t, tables (Demo.pl 64 8) !! j = Some t ->
      exists d, concat (chunks.*2) !! j = Some d /\
        (Z.land (td_config (desc t)) OFPTC_VACANCY_EVENTS <> 0 ->
         forall v, OFPTMPT_VACANCY v ∈ td_properties d ->
           vacancy v
           = (FLOW_TABLE_MAX_ENTRIES (Demo.env 64) - ts_active_count (stats t)) * 100
             / FLOW_TABLE_MAX_ENTRIES (Demo.env 64)) /\
        (Z.land (td_config (desc t)) OFPTC_VACANCY_EVENTS = 0 -> d = desc t).
Proof.
  split; [cbn; lia|]. split; [exists 4%nat; reflexivity|]. split; [reflexivity|].
  apply (table_desc_vacancy (Demo.env 64) (Demo.pl 64 8)).
  - cbn; lia.
  - exists 4%nat. reflexivity.
  - reflexivity.
  - cbn; lia.
  - cbn; lia.
  - unfold Demo.pl, Demo.fresh_tables. cbn [tables].
    apply Forall_fmap, Forall_true. intros i. cbn. lia.
Defined.

(** C10 as stated fails for a table whose desc.config lacks
    OFPTC_VACANCY_EVENTS: table 0 is empty, so the formula gives 100, but
    its VACANCY property is sent with the stored vacancy 0. *)
Lemma table_desc_vacancy_needs_flag :
  exists pl' evs flags d rest v,
    pipeline_handle_stats_request_table_desc_request (Demo.env 64) (Demo.pl 64 0)
    = Done (ofl_ok, pl', evs) /\
    evs !! 0%nat = Some (desc_reply (flags, d :: rest)) /\
    td_properties d = [OFPTMPT_VACANCY v] /\
    vacancy v = 0 /\
    (FLOW_TABLE_MAX_ENTRIES (Demo.env 64) - 0) * 100
      / FLOW_TABLE_MAX_ENTRIES (Demo.env 64) = 100.
Proof.
  eexists _, _, _, _, _, _. split; [vm_compute; reflexivity|].
  split; [reflexivity|]. split; [reflexivity|]. split; reflexivity.
Qed.

(** ** The packet driver *)

Section Driver.

Variable E : Env.
Variable pl : pipeline.

Lemma pipeline_process_loop_S (fuel : nat) (t : flow_table) (pkt : packet) :
  pipeline_process_loop E (S fuel) pl t pkt =
  match flow_table_lookup E t (at_table t pkt) with
  | Some entry =>
      '(next_table, pkt', ev) ←
        execute_entry E pl entry None (with_table_miss entry (at_table t pkt));
      match pkt' with
      | None => Done ev
      | Some pkt' =>
          match next_table with
          | None =>
              Done (ev ++ [ev_action_set_execute (action_set pkt') pkt'
                             COOKIE_ALL_ONES OFPR_ACTION_SET;
                           ev_packet_destroy pkt'])
          | Some next_table =>
              rest ← pipeline_process_loop E fuel pl next_table pkt';
              Done (ev ++ rest)
          end
      end
  | None => Done [ev_packet_destroy (at_table t pkt)]
  end.
Proof. reflexivity. Qed.

Lemma pipeline_process_loop_mono (fuel : nat) :
  forall fuel' t pkt r, (fuel <= fuel')%nat ->
  pipeline_process_loop E fuel pl t pkt = Done r ->
  pipeline_process_loop E fuel' pl t pkt = Done r.
Proof.
  induction fuel as [|fuel IH]; intros fuel' t pkt r Hle H; [done|].
  destruct fuel' as [|fuel']; [lia|]. rewrite pipeline_process_loop_S in H |- *.
  destruct (flow_table_lookup E t _) as [entry|]; [|done].
  destruct (execute_entry E pl entry None _) as [[[next pkt'] ev]| |]; [|done..].
  cbn in H |- *. destruct pkt' as [pkt'|]; [|done].
  destruct next as [t'|]; [|done].
  destruct (pipeline_process_loop E fuel pl t' pkt') as [rest| |] eqn:Hrest;
    [|done..].
  by rewrite (IH fuel' t' pkt' rest ltac:(lia) Hrest).
Qed.

Lemma loop_head_run (pkt0 : packet) (t : flow_table) (pkt : packet) (tr : list event) :
  packet_handle_std_is_ttl_valid E (handle_std pkt0) = true ->
  loop_head E pl pkt0 t pkt tr ->
  forall fuel r, pipeline_process_loop E fuel pl t pkt = Done r ->
  exists fuel0, forall fuel', (fuel0 <= fuel')%nat ->
    pipeline_process_packet E fuel' pl pkt0 = Done (tr ++ r).
Proof.
  intros Httl. induction 1 as [t0 Ht0 | t pkt tr entry t' pkt' ev _ IH Hl Hx];
    intros fuel r Hrun.
  - exists fuel. intros fuel' Hle. unfold pipeline_process_packet.
    rewrite Httl, Ht0. cbn. by apply (pipeline_process_loop_mono fuel).
  - destruct (IH (S fuel) (ev ++ r)) as [fuel0 H0].
    { rewrite pipeline_process_loop_S, Hl, Hx. cbn. by rewrite Hrun. }
    exists fuel0. intros fuel' Hle. rewrite <-app_assoc. by apply H0.
Qed.

Lemma execute_insts_events (entry : flow_entry) (insts : list ofl_instruction) :
  forall next pkt next' pkt' ev,
  execute_insts E pl entry insts next pkt = Done (next', pkt', ev) ->
  Forall (fun e => is_action_set_execute e = false /\ is_packet_in e = false) ev.
Proof.
  induction insts as [|inst insts IH]; intros next pkt next' pkt' ev H; cbn in H.
  - injection H as <- <- <-. constructor.
  - destruct pkt as [p|]; [|injection H as <- <- <-; constructor].
    destruct (execute_instruction E pl entry inst next p)
      as [[[n1 p1] ev1]| |] eqn:H1; [|done..].
    cbn in H.
    destruct (execute_insts E pl entry insts n1 p1)
      as [[[n2 p2] ev2]| |] eqn:H2; [|done..].
    cbn in H. injection H as <- <- <-.
    apply Forall_app. split; [|by eapply IH].
    destruct inst; cbn in H1;
      try (injection H1 as <- <- <-; repeat constructor).
    + destruct (tables pl !! Z.to_nat table_id); [|done]. cbn in H1.
      injection H1 as <- <- <-. constructor.
    + destruct (write_metadata _ _ _); [|done..]. cbn in H1.
      injection H1 as <- <- <-. constructor.
Qed.

Lemma loop_head_events (pkt0 : packet) (t : flow_table) (pkt : packet) (tr : list event) :
  loop_head E pl pkt0 t pkt tr ->
  Forall (fun e => is_action_set_execute e = false /\ is_packet_in e = false) tr.
Proof.
  induction 1 as [| t pkt tr entry t' pkt' ev _ IH _ Hx]; [constructor|].
  apply Forall_app. split; [done|]. by eapply execute_insts_events.
Qed.

Lemma filter_none {A} (f : A -> bool) (l : list A) :
  Forall (fun x => f x = false) l -> List.filter f l = [].
Proof.
  induction 1 as [|x l Hx _ IH]; [done|]. cbn. by rewrite Hx.
Qed.

End Driver.

(** C3.  A packet with valid TTL whose traversal has come to table [t],
    where the lookup matches [entry], the instructions leave the packet
    alive as [pkt'] and set no next table: the action set of [pkt'] is
    executed with cookie 0xffffffffffffffff and reason ACTION_SET, then
    the packet is destroyed, and that ends the run; it is the only
    execution of an action set in the whole run. *)
Theorem action_set_executed_once
    (E : Env) (pl : pipeline) (pkt0 : packet)
    (t : flow_table) (pkt : packet) (tr : list event)
    (entry : flow_entry) (pkt' : packet) (ev : list event) :
  packet_handle_std_is_ttl_valid E (handle_std pkt0) = true ->
  loop_head E pl pkt0 t pkt tr ->
  flow_table_lookup E t (at_table t pkt) = Some entry ->
  execute_entry E pl entry None (with_table_miss entry (at_table t pkt))
  = Done (None, Some pkt', ev) ->
  exists fuel0 trace,
    (forall fuel, (fuel0 <= fuel)%nat ->
       pipeline_process_packet E fuel pl pkt0 = Done trace) /\
    trace = tr ++ ev ++
            [ev_action_set_execute (action_set pkt') pkt'
               0xffffffffffffffff OFPR_ACTION_SET;
             ev_packet_destroy pkt'] /\
    List.filter is_action_set_execute trace
    = [ev_action_set_execute (action_set pkt') pkt'
         0xffffffffffffffff OFPR_ACTION_SET].
Proof.
  intros Httl Hhead Hl Hx.
  destruct (loop_head_run E pl pkt0 t pkt tr Httl Hhead 1%nat
              (ev ++ [ev_action_set_execute (action_set pkt') pkt'
                        COOKIE_ALL_ONES OFPR_ACTION_SET;
                      ev_packet_destroy pkt'])) as [fuel0 Hrun].
  { by rewrite pipeline_process_loop_S, Hl, Hx. }
  exists fuel0. eexists. split; [exact Hrun|]. split; [reflexivity|].
  rewrite !List.filter_app.
  rewrite (filter_none is_action_set_execute tr).
  2:{ eapply Forall_impl; [by eapply loop_head_events|]. by intros ? [? _]. }
  rewrite (filter_none is_action_set_execute ev).
  2:{ eapply Forall_impl; [by eapply execute_insts_events|]. by intros ? [? _]. }
  reflexivity.
Qed.

Lemma demo_loop_head_table2 (pkt : packet) :
  loop_head (Demo.env 64) (Demo.pl 64 0) pkt Demo.t2
    (with_table_miss Demo.entry0 (at_table Demo.t0 pkt))
    (Demo.tr0 (with_table_miss Demo.entry0 (at_table Demo.t0 pkt))).
Proof.
  apply (loop_head_goto _ _ _ Demo.t0 pkt [] Demo.entry0).
  - apply loop_head_start. reflexivity.
  - reflexivity.
  - reflexivity.
Defined.

Lemma action_set_executed_once_witness :
  packet_handle_std_is_ttl_valid (Demo.env 64) (handle_std Demo.pkt0) = true /\
  loop_head (Demo.env 64) (Demo.pl 64 0) Demo.pkt0
    Demo.t2 Demo.pkt0_table0 (Demo.tr0 Demo.pkt0_table0) /\
  exists fuel0 trace,
    (forall fuel, (fuel0 <= fuel)%nat ->
       pipeline_process_packet (Demo.env 64) fuel (Demo.pl 64 0) Demo.pkt0
       = Done trace) /\
    trace = Demo.tr0 Demo.pkt0_table0 ++ [] ++
            [ev_action_set_execute [Demo.out_port 3] Demo.pkt0_table2
               0xffffffffffffffff OFPR_ACTION_SET;
             ev_packet_destroy Demo.pkt0_table2] /\
    List.filter is_action_set_execute trace
    = [ev_action_set_execute [Demo.out_port 3] Demo.pkt0_table2
         0xffffffffffffffff OFPR_ACTION_SET].
Proof.
  split; [reflexivity|]. split; [apply demo_loop_head_table2|].
  apply (action_set_executed_once (Demo.env 64) (Demo.pl 64 0) Demo.pkt0
           Demo.t2 Demo.pkt0_table0 (Demo.tr0 Demo.pkt0_table0)
           Demo.entry2 Demo.pkt0_table2 []).
  - reflexivity.
  - apply demo_loop_head_table2.
  - reflexivity.
  - reflexivity.
Defined.

(** C4.  A packet with valid TTL whose traversal has come to table [t],
    where the lookup finds no entry: the packet is destroyed and that
    ends the run.  Whatever the tables' config, the run has sent no
    PACKET_IN and executed no action set. *)
Theorem table_miss_drops_packet
    (E : Env) (pl : pipeline) (pkt0 : packet)
    (t : flow_table) (pkt : packet) (tr : list event) :
  packet_handle_std_is_ttl_valid E (handle_std pkt0) = true ->
  loop_head E pl pkt0 t pkt tr ->
  flow_table_lookup E t (at_table t pkt) = None ->
  exists fuel0 trace,
    (forall fuel, (fuel0 <= fuel)%nat ->
       pipeline_process_packet E fuel pl pkt0 = Done trace) /\
    trace = tr ++ [ev_packet_destroy (at_table t pkt)] /\
    Forall (fun e => is_action_set_execute e = false /\ is_packet_in e = false)
           trace.
Proof.
  intros Httl Hhead Hl.
  destruct (loop_head_run E pl pkt0 t pkt tr Httl Hhead 1%nat
              [ev_packet_destroy (at_table t pkt)]) as [fuel0 Hrun].
  { by rewrite pipeline_process_loop_S, Hl. }
  exists fuel0. eexists. split; [exact Hrun|]. split; [reflexivity|].
  apply Forall_app. split; [by eapply loop_head_events|].
  by repeat constructor.
Qed.

Lemma table_miss_drops_packet_witness :
  packet_handle_std_is_ttl_valid (Demo.env 64) (handle_std Demo.pkt1) = true /\
  loop_head (Demo.env 64) (Demo.pl 64 0) Demo.pkt1
    Demo.t2 Demo.pkt1_table0 (Demo.tr0 Demo.pkt1_table0) /\
  flow_table_lookup (Demo.env 64) Demo.t2 (at_table Demo.t2 Demo.pkt1_table0) = None /\
  exists fuel0 trace,
    (forall fuel, (fuel0 <= fuel)%nat ->
       pipeline_process_packet (Demo.env 64) fuel (Demo.pl 64 0) Demo.pkt1
       = Done trace) /\
    trace = Demo.tr0 Demo.pkt1_table0
            ++ [ev_packet_destroy (at_table Demo.t2 Demo.pkt1_table0)] /\
    Forall (fun e => is_action_set_execute e = false /\ is_packet_in e = false)
           trace.
Proof.
  split; [reflexivity|]. split; [apply demo_loop_head_table2|].
  split; [reflexivity|].
  apply (table_miss_drops_packet (Demo.env 64) (Demo.pl 64 0) Demo.pkt1
           Demo.t2 Demo.pkt1_table0 (Demo.tr0 Demo.pkt1_table0)).
  - reflexivity.
  - apply demo_loop_head_table2.
  - reflexivity.
Defined.

(** ** The table-61 check *)

Lemma low_bit_testbit (m : Z) : (Z.land m 1 =? 0) = negb (Z.testbit m 0).
Proof.
  change 1 with (Z.ones 1). rewrite Z.land_ones by lia.
  change (2 ^ 1) with 2. rewrite <-Z.bit0_mod.
  by destruct (Z.testbit m 0).
Qed.

Lemma testbit_shiftr_1 (m k : Z) :
  0 <= k -> Z.testbit (Z.shiftr m 1) k = Z.testbit m (k + 1).
Proof. intros Hk. by rewrite Z.shiftr_spec. Qed.

Lemma lpm_scan_spec (n : nat) : forall i m found nz,
  match lpm_scan n i m found nz with
  | None =>
      exists b, 0 <= b < Z.of_nat n /\ Z.testbit m b = false /\
        (found = true \/ exists a, 0 <= a < b /\ Z.testbit m a = true)
  | Some z =>
      if found
      then (forall b, 0 <= b < Z.of_nat n -> Z.testbit m b = true) /\ z = nz
      else ((forall k, 0 <= k < Z.of_nat n -> Z.testbit m k = false) /\ z = nz)
           \/ (exists a, 0 <= a < Z.of_nat n /\ Z.testbit m a = true /\
                 (forall k, 0 <= k < a -> Z.testbit m k = false) /\
                 (forall k, a <= k < Z.of_nat n -> Z.testbit m k = true) /\
                 z = i + a)
  end.
Proof.
  induction n as [|n IH]; intros i m found nz.
  - cbn. destruct found; [split|left; split]; (lia || done).
  - cbn [lpm_scan]. rewrite low_bit_testbit, negb_involutive.
    destruct (Z.testbit m 0) eqn:H0; destruct found; cbn [negb].
    + specialize (IH (i + 1) (Z.shiftr m 1) true nz).
      destruct (lpm_scan n (i + 1) (Z.shiftr m 1) true nz) as [z|].
      * destruct IH as [Hall ->]. split; [|done]. intros b Hb.
        destruct (Z.eq_dec b 0) as [->|]; [done|].
        replace b with (b - 1 + 1) by lia.
        rewrite <-testbit_shiftr_1 by lia. apply Hall. lia.
      * destruct IH as (b & Hb & Hz & _). exists (b + 1).
        rewrite <-testbit_shiftr_1 by lia. repeat split; (lia || auto).
    + specialize (IH (i + 1) (Z.shiftr m 1) true i).
      destruct (lpm_scan n (i + 1) (Z.shiftr m 1) true i) as [z|].
      * destruct IH as [Hall ->]. right. exists 0.
        repeat split; try (lia || done). intros k Hk.
        destruct (Z.eq_dec k 0) as [->|]; [done|].
        replace k with (k - 1 + 1) by lia.
        rewrite <-testbit_shiftr_1 by lia. apply Hall. lia.
      * destruct IH as (b & Hb & Hz & _). exists (b + 1).
        rewrite <-testbit_shiftr_1 by lia.
        split; [lia|]. split; [done|]. right. exists 0. split; [lia|done].
    + exists 0. split; [lia|]. split; [done|]. by left.
    + specialize (IH (i + 1) (Z.shiftr m 1) false nz).
      destruct (lpm_scan n (i + 1) (Z.shiftr m 1) false nz) as [z|].
      * destruct IH as [[Hall ->]|(a & Ha & Hta & Hlow & Hhigh & ->)].
        -- left. split; [|done]. intros k Hk.
           destruct (Z.eq_dec k 0) as [->|]; [done|].
           replace k with (k - 1 + 1) by lia.
           rewrite <-testbit_shiftr_1 by lia. apply Hall. lia.
        -- right. exists (a + 1). rewrite <-testbit_shiftr_1 by lia.
           split; [lia|]. split; [done|]. split; [|split; [|lia]].
           ++ intros k Hk. destruct (Z.eq_dec k 0) as [->|]; [done|].
              replace k with (k - 1 + 1) by lia.
              rewrite <-testbit_shiftr_1 by lia. apply Hlow. lia.
           ++ intros k Hk. replace k with (k - 1 + 1) by lia.
              rewrite <-testbit_shiftr_1 by lia. apply Hhigh. lia.
      * destruct IH as (b & Hb & Hz & [|(a & Ha & Hta)]); [done|].
        exists (b + 1). rewrite <-testbit_shiftr_1 by lia.
        split; [lia|]. split; [done|]. right. exists (a + 1).
        rewrite <-testbit_shiftr_1 by lia. split; [lia|done].
Qed.

Lemma lpm_scan_hole (mask : Z) :
  lpm_scan 32 0 mask false 32 = None -> zero_above_one mask.
Proof.
  intros H. pose proof (lpm_scan_spec 32 0 mask false 32) as Hs.
  rewrite H in Hs. destruct Hs as (b & Hb & Hz & [|(a & Ha & Hta)]); [done|].
  exists a, b. repeat split; (lia || done).
Qed.

Lemma lpm_scan_prefix (mask n : Z) :
  lpm_scan 32 0 mask false 32 = Some n ->
  ~ zero_above_one mask /\ trailing_zeros mask n.
Proof.
  intros H. pose proof (lpm_scan_spec 32 0 mask false 32) as Hs.
  rewrite H in Hs. cbn beta iota in Hs.
  destruct Hs as [[Hall ->]|(a & Ha & Hta & Hlow & Hhigh & ->)].
  - split.
    + intros (a & b & Hab & Hb & Hta & _). rewrite Hall in Hta by lia. done.
    + split; [lia|]. split; [|lia]. intros k Hk. apply Hall. lia.
  - split.
    + intros (a' & b & Hab & Hb & Hta' & Htb).
      destruct (Z.lt_ge_cases a' a) as [Hlt|Hge].
      * rewrite Hlow in Hta' by lia. done.
      * rewrite Hhigh in Htb by lia. done.
    + split; [lia|]. split; [|by rewrite Z.add_0_l].
      intros k Hk. apply Hlow. lia.
Qed.

Lemma trailing_zeros_unique (mask n n' : Z) :
  trailing_zeros mask n -> trailing_zeros mask n' -> n = n'.
Proof.
  intros (Hn & Hz & Ho) (Hn' & Hz' & Ho').
  destruct (Z.lt_trichotomy n n') as [Hlt|[->|Hgt]]; [|done|].
  - rewrite Hz' in Ho by lia. specialize (Ho ltac:(lia)). done.
  - rewrite Hz in Ho' by lia. specialize (Ho' ltac:(lia)). done.
Qed.

Lemma lpm_scan_decides (mask : Z) :
  (zero_above_one mask /\ lpm_scan 32 0 mask false 32 = None) \/
  (~ zero_above_one mask /\ exists n,
     lpm_scan 32 0 mask false 32 = Some n /\ trailing_zeros mask n).
Proof.
  destruct (lpm_scan 32 0 mask false 32) as [n|] eqn:H.
  - right. destruct (lpm_scan_prefix _ _ H). eauto.
  - left. split; [by apply lpm_scan_hole|done].
Qed.

Lemma lpm_check_tlv_other (priority : Z) (f : ofl_match_tlv) :
  header f <> OXM_OF_IPV4_DST_W -> header f <> OXM_OF_IPV4_DST ->
  lpm_check_tlv priority f = Done ofl_ok.
Proof.
  intros Hw Hx. unfold lpm_check_tlv.
  destruct (Z.eqb_spec (header f) OXM_OF_IPV4_DST_W); [done|].
  by destruct (Z.eqb_spec (header f) OXM_OF_IPV4_DST).
Qed.

Lemma lpm_check_fields_skip (priority : Z) (pre rest : list ofl_match_tlv) :
  no_ipv4_dst pre ->
  lpm_check_fields priority (pre ++ rest) = lpm_check_fields priority rest.
Proof.
  induction 1 as [|f pre [Hw Hx] _ IH]; [done|].
  cbn. by rewrite lpm_check_tlv_other.
Qed.

Lemma lpm_check_fields_one (priority : Z) (pre post : list ofl_match_tlv)
    (oxm : ofl_match_tlv) :
  no_ipv4_dst pre -> no_ipv4_dst post ->
  lpm_check_fields priority (pre ++ oxm :: post) = lpm_check_tlv priority oxm.
Proof.
  intros Hpre Hpost. rewrite lpm_check_fields_skip by done. cbn.
  destruct (lpm_check_tlv priority oxm) as [e| |]; [|done..]. cbn.
  destruct e; cbn; [|done].
  rewrite <-(app_nil_r post), lpm_check_fields_skip by done. done.
Qed.

Lemma flow_mod_table61_check
    (E : Env) (fuel : nat) (pl : pipeline) (msg : ofl_msg_flow_mod) (sender : sender) :
  role (sender_remote sender) <> OFPCR_ROLE_SLAVE ->
  fm_table_id msg = 61 ->
  fm_command msg = OFPFC_ADD ->
  flow_mod_validate_actions E pl (flow_mod_sort E msg)
    (fm_instructions (flow_mod_sort E msg)) = ofl_ok ->
  match_length (fm_match msg) <> 0 ->
  pipeline_handle_flow_mod E fuel pl msg sender =
    error ← lpm_check_fields (fm_priority msg) (match_fields (fm_match msg));
    if is_error error then Done (error, pl, [])
    else flow_mod_dispatch E fuel pl (flow_mod_sort E msg).
Proof.
  intros Hrole Hid Hcmd Hval Hlen. unfold pipeline_handle_flow_mod.
  assert (Hlpm : flow_mod_validate_lpm (flow_mod_sort E msg)
                 = lpm_check_fields (fm_priority msg) (match_fields (fm_match msg))).
  { unfold flow_mod_validate_lpm. cbn. rewrite Hcmd, Hid. cbn.
    by destruct (Z.eqb_spec (match_length (fm_match msg)) 0). }
  destruct (role (sender_remote sender)); try congruence;
    cbv zeta; rewrite Hval, Hlpm; reflexivity.
Qed.

Lemma lpm_check_tlv_masked (priority : Z) (oxm : ofl_match_tlv) (mask : Z) :
  header oxm = OXM_OF_IPV4_DST_W ->
  lpm_mask (value oxm) = Done mask ->
  (zero_above_one mask ->
   lpm_check_tlv priority oxm
   = Done (ofl_error OFPET_BAD_MATCH OFPBMC_BAD_NW_ADDR_MASK)) /\
  (forall n, ~ zero_above_one mask -> trailing_zeros mask n ->
   lpm_check_tlv priority oxm
   = if negb (priority =? 32 - n)
     then Done (ofl_error OFPET_FLOW_MOD_FAILED OFPFMFC_BAD_PRIORITY)
     else Done ofl_ok).
Proof.
  intros Hw Hmask.
  assert (Hgen : forall r, lpm_scan 32 0 mask false 32 = r ->
            lpm_check_tlv priority oxm =
            match r with
            | None => Done (ofl_error OFPET_BAD_MATCH OFPBMC_BAD_NW_ADDR_MASK)
            | Some num_zero =>
                if negb (priority =? 32 - num_zero)
                then Done (ofl_error OFPET_FLOW_MOD_FAILED OFPFMFC_BAD_PRIORITY)
                else Done ofl_ok
            end).
  { intros r <-. unfold lpm_check_tlv. rewrite Hw, Z.eqb_refl, Hmask. reflexivity. }
  destruct (lpm_scan_decides mask) as [[Hhole Hscan]|(Hpfx & n' & Hscan & Htz)].
  - split; [intros _; exact (Hgen _ Hscan)|]. intros n Hn. contradiction.
  - split; [intros Hh; contradiction|]. intros n _ Hn.
    rewrite (trailing_zeros_unique _ _ _ Hn Htz). exact (Hgen _ Hscan).
Qed.

Lemma lpm_check_tlv_exact (priority : Z) (oxm : ofl_match_tlv) :
  header oxm = OXM_OF_IPV4_DST ->
  lpm_check_tlv priority oxm
  = if negb (priority =? 32)
    then Done (ofl_error OFPET_FLOW_MOD_FAILED OFPFMFC_BAD_PRIORITY)
    else Done ofl_ok.
Proof. intros Hx. unfold lpm_check_tlv. rewrite Hx. reflexivity. Qed.

(** C5, as amended.  A flow-mod ADD into table 61 from a non-slave
    sender whose actions validate and whose match (of non-zero length)
    holds one IPv4 destination TLV.  For IPV4_DST_W with the mask in value
    bytes 4..7: the handler returns BAD_MATCH/BAD_NW_ADDR_MASK when the
    mask has a zero bit above a one bit; when it has none and so is a
    prefix mask with [n] trailing zero bits, the handler returns
    FLOW_MOD_FAILED/BAD_PRIORITY if priority differs from 32 - n, and
    otherwise the check passes and the flow-mod goes on to the table.  For
    exact IPV4_DST the same with 32 for 32 - n. *)
Theorem flow_mod_table61_lpm
    (E : Env) (fuel : nat) (pl : pipeline) (msg : ofl_msg_flow_mod) (sender : sender)
    (pre post : list ofl_match_tlv) (oxm : ofl_match_tlv) :
  role (sender_remote sender) <> OFPCR_ROLE_SLAVE ->
  fm_table_id msg = 61 ->
  fm_command msg = OFPFC_ADD ->
  flow_mod_validate_actions E pl (flow_mod_sort E msg)
    (fm_instructions (flow_mod_sort E msg)) = ofl_ok ->
  match_length (fm_match msg) <> 0 ->
  match_fields (fm_match msg) = pre ++ oxm :: post ->
  no_ipv4_dst pre -> no_ipv4_dst post ->
  let result := pipeline_handle_flow_mod E fuel pl msg sender in
  let bad_mask := Done (ofl_error OFPET_BAD_MATCH OFPBMC_BAD_NW_ADDR_MASK, pl, []) in
  let bad_priority :=
    Done (ofl_error OFPET_FLOW_MOD_FAILED OFPFMFC_BAD_PRIORITY, pl, []) in
  let passed := flow_mod_dispatch E fuel pl (flow_mod_sort E msg) in
  (header oxm = OXM_OF_IPV4_DST_W ->
   forall mask, lpm_mask (value oxm) = Done mask ->
     (zero_above_one mask -> result = bad_mask) /\
     (forall n, ~ zero_above_one mask -> trailing_zeros mask n ->
        (fm_priority msg <> 32 - n -> result = bad_priority) /\
        (fm_priority msg = 32 - n -> result = passed))) /\
  (header oxm = OXM_OF_IPV4_DST ->
     (fm_priority msg <> 32 -> result = bad_priority) /\
     (fm_priority msg = 32 -> result = passed)).
Proof.
  intros Hrole Hid Hcmd Hval Hlen Hfields Hpre Hpost result bad_mask bad_priority passed.
  assert (Hres : result =
            error ← lpm_check_tlv (fm_priority msg) oxm;
            if is_error error then Done (error, pl, []) else passed).
  { unfold result. rewrite flow_mod_table61_check by done.
    by rewrite Hfields, lpm_check_fields_one. }
  split.
  - intros Hw mask Hmask.
    destruct (lpm_check_tlv_masked (fm_priority msg) oxm mask Hw Hmask)
      as [Hhole Hpfx].
    split.
    + intros Hh. rewrite Hres, (Hhole Hh). reflexivity.
    + intros n Hn Htz. rewrite Hres, (Hpfx n Hn Htz).
      destruct (Z.eqb_spec (fm_priority msg) (32 - n)) as [Heq|Hne].
      * split; [intros Hne; contradiction|intros _; reflexivity].
      * split; [intros _; reflexivity|intros Heq; contradiction].
  - intros Hx. rewrite Hres, (lpm_check_tlv_exact _ _ Hx).
    destruct (Z.eqb_spec (fm_priority msg) 32) as [Heq|Hne].
    + split; [intros Hne; contradiction|intros _; reflexivity].
    + split; [intros _; reflexivity|intros Heq; contradiction].
Qed.

Lemma flow_mod_table61_lpm_witness :
  role (sender_remote Demo.master) <> OFPCR_ROLE_SLAVE /\
  fm_table_id (Demo.lpm_add 16 (Demo.ipv4_dst_w 255 255 255 0)) = 61 /\
  match_length (fm_match (Demo.lpm_add 16 (Demo.ipv4_dst_w 255 255 255 0))) <> 0 /\
  no_ipv4_dst [] /\
  lpm_mask (value (Demo.ipv4_dst_w 255 255 255 0)) = Done 0xFFFFFF00 /\
  ~ zero_above_one 0xFFFFFF00 /\
  trailing_zeros 0xFFFFFF00 8 /\
  pipeline_handle_flow_mod (Demo.env 64) 0 (Demo.pl 64 0)
    (Demo.lpm_add 16 (Demo.ipv4_dst_w 255 255 255 0)) Demo.master
  = Done (ofl_error OFPET_FLOW_MOD_FAILED OFPFMFC_BAD_PRIORITY, Demo.pl 64 0, []).
Proof.
  assert (Hscan : lpm_scan 32 0 0xFFFFFF00 false 32 = Some 8)
    by (vm_compute; reflexivity).
  destruct (lpm_scan_prefix _ _ Hscan) as [Hpfx Htz].
  split; [discriminate|]. split; [reflexivity|]. split; [discriminate|].
  split; [constructor|]. split; [reflexivity|]. split; [exact Hpfx|].
  split; [exact Htz|].
  destruct (flow_mod_table61_lpm (Demo.env 64) 0 (Demo.pl 64 0)
              (Demo.lpm_add 16 (Demo.ipv4_dst_w 255 255 255 0)) Demo.master
              [] [] (Demo.ipv4_dst_w 255 255 255 0)) as [Hw _].
  - discriminate.
  - reflexivity.
  - reflexivity.
  - reflexivity.
  - discriminate.
  - reflexivity.
  - constructor.
  - constructor.
  - destruct (Hw eq_refl 0xFFFFFF00 eq_refl) as [_ Hp].
    destruct (Hp 8 Hpfx Htz) as [Hbad _]. apply Hbad. discriminate.
Defined.

(** C5 as stated fails for a mask whose one bits are contiguous but do
    not reach bit 31.  The mask 0x00FFFF00 has no zero bit between one
    bits and 8 trailing zero bits, and the priority is 24 = 32 - 8, yet
    the ADD is refused with BAD_MATCH/BAD_NW_ADDR_MASK: the scan takes
    the zero at bit 24, above the ones, for a hole. *)
Lemma flow_mod_table61_rejects_short_run :
  lpm_mask (value (Demo.ipv4_dst_w 0 255 255 0)) = Done 0x00FFFF00 /\
  zero_between_ones 0x00FFFF00 = false /\
  trailing_zeros 0x00FFFF00 8 /\
  pipeline_handle_flow_mod (Demo.env 64) 0 (Demo.pl 64 0)
    (Demo.lpm_add 24 (Demo.ipv4_dst_w 0 255 255 0)) Demo.master
  = Done (ofl_error OFPET_BAD_MATCH OFPBMC_BAD_NW_ADDR_MASK, Demo.pl 64 0, []).
Proof.
  split; [reflexivity|]. split; [vm_compute; reflexivity|]. split.
  - split; [lia|]. split; [|reflexivity]. intros k Hk.
    assert (Hc : k = 0 \/ k = 1 \/ k = 2 \/ k = 3 \/ k = 4 \/ k = 5 \/ k = 6 \/ k = 7)
      by lia.
    repeat (destruct Hc as [->|Hc]; [reflexivity|]). by subst.
  - vm_compute. reflexivity.
Qed.

(** ** The table-62 / table-63 mirror *)

Lemma transpose_tlv_swapped (f : ofl_match_tlv) : eth_swapped f (transpose_tlv f).
Proof.
  unfold eth_swapped, transpose_tlv.
  destruct (Z.eqb_spec (header f) OXM_OF_ETH_DST) as [Hd|Hd]; cbn.
  - rewrite Hd. repeat split; (done || intros; done).
  - destruct (Z.eqb_spec (header f) OXM_OF_ETH_SRC) as [Hs|Hs]; cbn;
      repeat split; (done || intros; done).
Qed.

Lemma flow_mod_slave_msg_mirror (msg : ofl_msg_flow_mod) :
  (match_length (fm_match msg) = 0 -> match_fields (fm_match msg) = []) ->
  is_mirror msg (flow_mod_slave_msg msg).
Proof.
  intros Hwf. unfold is_mirror, flow_mod_slave_msg, transpose_match. cbn.
  repeat split; try done;
    destruct (Z.eqb_spec (match_length (fm_match msg)) 0) as [H0|H0]; cbn; try done.
  - rewrite (Hwf H0). constructor.
  - apply Forall2_fmap_r, Forall_Forall2_diag, Forall_forall.
    intros f _. apply transpose_tlv_swapped.
Qed.

Lemma link_sync_links (flow slave : nat) (pl : pipeline) :
  is_Some (entries pl !! slave) -> is_Some (entries pl !! flow) ->
  exists pl',
    link_sync flow (Some slave) pl = Done pl' /\
    tables pl' = tables pl /\
    sync_slave <$> entries pl' !! flow = Some (Some slave) /\
    sync_master <$> entries pl' !! slave = Some (Some flow).
Proof.
  intros [se Hse] [fe Hfe]. unfold link_sync. cbn. rewrite Hse. cbn.
  destruct (decide (slave = flow)) as [->|Hne].
  - rewrite lookup_insert_eq. cbn. eexists. split; [reflexivity|]. cbn.
    rewrite lookup_insert_eq. done.
  - rewrite lookup_insert_ne by done. rewrite Hfe. cbn.
    eexists. split; [reflexivity|]. cbn.
    rewrite lookup_insert_eq, lookup_insert_ne by done.
    rewrite lookup_insert_eq. done.
Qed.

Lemma flow_mod_table62_installs
    (E : Env) (fuel : nat) (pl : pipeline) (msg : ofl_msg_flow_mod) (sender : sender)
    (match_kept insts_kept : bool) (flow : nat) (pl1 : pipeline) :
  role (sender_remote sender) <> OFPCR_ROLE_SLAVE ->
  fm_table_id msg = 62 ->
  fm_command msg = OFPFC_ADD ->
  flow_mod_validate_actions E pl (flow_mod_sort E msg)
    (fm_instructions (flow_mod_sort E msg)) = ofl_ok ->
  (63 < PIPELINE_TABLES E)%nat ->
  flow_table_flow_mod E 62 (flow_mod_sort E msg) (false, false, None) pl
  = (ofl_ok, (match_kept, insts_kept, Some flow), pl1) ->
  pipeline_handle_flow_mod E fuel pl msg sender =
    '(pl', ev_sync) ← flow_mod_sync E pl1 (flow_mod_sort E msg) flow;
    ev_replay ← flow_mod_replay E fuel pl' (flow_mod_sort E msg);
    Done (ofl_ok, pl',
          ev_sync ++ ev_replay ++
          [ev_ofl_msg_free_flow_mod (flow_mod_sort E msg)
             (negb match_kept) (negb insts_kept)]).
Proof.
  intros Hrole Hid Hcmd Hval Hpt Hmaster. unfold pipeline_handle_flow_mod.
  assert (Hlpm : flow_mod_validate_lpm (flow_mod_sort E msg) = Done ofl_ok).
  { unfold flow_mod_validate_lpm. cbn. by rewrite Hcmd, Hid. }
  assert (Hdisp : flow_mod_dispatch E fuel pl (flow_mod_sort E msg) =
    '(pl', ev_sync) ← flow_mod_sync E pl1 (flow_mod_sort E msg) flow;
    ev_replay ← flow_mod_replay E fuel pl' (flow_mod_sort E msg);
    Done (ofl_ok, pl',
          ev_sync ++ ev_replay ++
          [ev_ofl_msg_free_flow_mod (flow_mod_sort E msg)
             (negb match_kept) (negb insts_kept)])).
  { unfold flow_mod_dispatch.
    change (fm_table_id (flow_mod_sort E msg)) with (fm_table_id msg).
    change (fm_command (flow_mod_sort E msg)) with (fm_command msg).
    rewrite Hid, Hcmd.
    change (62 =? 255) with false. change (Z.to_nat 62) with 62%nat.
    destruct (Nat.ltb_spec 62 (PIPELINE_TABLES E)) as [_|]; [|lia].
    cbn [negb]. rewrite Hmaster. reflexivity. }
  destruct (role (sender_remote sender)); try congruence;
    cbv zeta; rewrite Hval, Hlpm; exact Hdisp.
Qed.

Lemma flow_mod_sync_installs
    (E : Env) (pl1 : pipeline) (msg : ofl_msg_flow_mod) (flow : nat)
    (serr : ofl_err) (skept : kept) (pl2 : pipeline) :
  (63 < PIPELINE_TABLES E)%nat ->
  ofl_msg_clone E msg = (ofl_ok, msg) ->
  flow_table_flow_mod E 63 (flow_mod_slave_msg msg) (false, false, None) pl1
  = (serr, skept, pl2) ->
  flow_mod_sync E pl1 msg flow =
    if negb (is_error serr) then
      pl3 ← link_sync flow skept.2 pl2;
      Done (pl3, [ev_ofl_msg_free_flow_mod (flow_mod_slave_msg msg)
                    (negb skept.1.1) (negb skept.1.2)])
    else Done (pl2, [ev_ofl_msg_free_flow_mod (flow_mod_slave_msg msg)
                       (negb skept.1.1) (negb skept.1.2)]).
Proof.
  intros Hpt Hclone Hslave. unfold flow_mod_sync. rewrite Hclone.
  cbn [is_error negb].
  destruct (Nat.ltb_spec 63 (PIPELINE_TABLES E)) as [_|]; [|lia].
  cbn [negb]. rewrite Hslave. by destruct skept as [[smk sik] sflow].
Qed.

Lemma flow_mod_sync_clone_failed
    (E : Env) (pl1 : pipeline) (msg : ofl_msg_flow_mod) (flow : nat)
    (cerr : ofl_err) (clone : ofl_msg_flow_mod) :
  ofl_msg_clone E msg = (cerr, clone) -> is_error cerr = true ->
  flow_mod_sync E pl1 msg flow = Done (pl1, []).
Proof. intros Hclone Herr. unfold flow_mod_sync. by rewrite Hclone, Herr. Qed.

(** C6.  A flow-mod ADD into table 62 from a non-slave sender, whose
    actions validate and which the table accepts with a non-null entry
    [flow].  When ofl_msg_clone returns a copy, the message sent to table
    63 is that copy with every ETH_DST header replaced by ETH_SRC and
    every ETH_SRC by ETH_DST; if table 63 accepts it with the entry
    [slave], then afterwards flow->sync_slave is [slave] and
    slave->sync_master is [flow]; if table 63 refuses it, or if the clone
    could not be made, the error is dropped.  In every case the handler
    returns 0, once the buffered packet, if any, has been replayed. *)
Theorem flow_mod_table62_mirror
    (E : Env) (fuel : nat) (pl : pipeline) (msg : ofl_msg_flow_mod) (sender : sender)
    (match_kept insts_kept : bool) (flow : nat) (pl1 : pipeline) :
  role (sender_remote sender) <> OFPCR_ROLE_SLAVE ->
  fm_table_id msg = 62 ->
  fm_command msg = OFPFC_ADD ->
  flow_mod_validate_actions E pl (flow_mod_sort E msg)
    (fm_instructions (flow_mod_sort E msg)) = ofl_ok ->
  (63 < PIPELINE_TABLES E)%nat ->
  flow_table_flow_mod E 62 (flow_mod_sort E msg) (false, false, None) pl
  = (ofl_ok, (match_kept, insts_kept, Some flow), pl1) ->
  (ofl_msg_clone E (flow_mod_sort E msg) = (ofl_ok, flow_mod_sort E msg) ->
   ((match_length (fm_match msg) = 0 -> match_fields (fm_match msg) = []) ->
    is_mirror (flow_mod_sort E msg) (flow_mod_slave_msg (flow_mod_sort E msg))) /\
   forall serr skept pl2,
     flow_table_flow_mod E 63 (flow_mod_slave_msg (flow_mod_sort E msg))
       (false, false, None) pl1
     = (serr, skept, pl2) ->
     (serr = ofl_ok ->
      forall slave, skept.2 = Some slave ->
        is_Some (entries pl2 !! slave) -> is_Some (entries pl2 !! flow) ->
        exists pl3,
          tables pl3 = tables pl2 /\
          sync_slave <$> entries pl3 !! flow = Some (Some slave) /\
          sync_master <$> entries pl3 !! slave = Some (Some flow) /\
          forall replayed,
            flow_mod_replay E fuel pl3 (flow_mod_sort E msg) = Done replayed ->
            pipeline_handle_flow_mod E fuel pl msg sender
            = Done (ofl_ok, pl3,
                    [ev_ofl_msg_free_flow_mod
                       (flow_mod_slave_msg (flow_mod_sort E msg))
                       (negb skept.1.1) (negb skept.1.2)]
                    ++ replayed ++
                    [ev_ofl_msg_free_flow_mod (flow_mod_sort E msg)
                       (negb match_kept) (negb insts_kept)])) /\
     (is_error serr = true ->
      forall replayed,
        flow_mod_replay E fuel pl2 (flow_mod_sort E msg) = Done replayed ->
        pipeline_handle_flow_mod E fuel pl msg sender
        = Done (ofl_ok, pl2,
                [ev_ofl_msg_free_flow_mod
                   (flow_mod_slave_msg (flow_mod_sort E msg))
                   (negb skept.1.1) (negb skept.1.2)]
                ++ replayed ++
                [ev_ofl_msg_free_flow_mod (flow_mod_sort E msg)
                   (negb match_kept) (negb insts_kept)]))) /\
  (forall cerr clone,
     ofl_msg_clone E (flow_mod_sort E msg) = (cerr, clone) ->
     is_error cerr = true ->
     forall replayed,
       flow_mod_replay E fuel pl1 (flow_mod_sort E msg) = Done replayed ->
       pipeline_handle_flow_mod E fuel pl msg sender
       = Done (ofl_ok, pl1,
               replayed ++
               [ev_ofl_msg_free_flow_mod (flow_mod_sort E msg)
                  (negb match_kept) (negb insts_kept)])).
Proof.
  intros Hrole Hid Hcmd Hval Hpt Hmaster.
  pose proof (flow_mod_table62_installs E fuel pl msg sender match_kept insts_kept
                flow pl1 Hrole Hid Hcmd Hval Hpt Hmaster) as Hrun.
  split.
  - intros Hclone.
    split; [intros Hwf; apply flow_mod_slave_msg_mirror; exact Hwf|].
    intros serr skept pl2 Hslave.
    rewrite (flow_mod_sync_installs E pl1 _ flow serr skept pl2 Hpt Hclone Hslave)
      in Hrun.
    split.
    + intros -> slave Hs Hlive_s Hlive_f.
      destruct (link_sync_links flow slave pl2 Hlive_s Hlive_f)
        as (pl3 & Hlink & Htables & Hfs & Hsm).
      exists pl3. split; [done|]. split; [done|]. split; [done|].
      intros replayed Hreplay. rewrite Hrun, Hs, Hlink. cbn. rewrite Hreplay.
      reflexivity.
    + intros Herr replayed Hreplay. rewrite Hrun, Herr. cbn. rewrite Hreplay.
      reflexivity.
  - intros cerr clone Hclone Herr replayed Hreplay.
    rewrite Hrun, (flow_mod_sync_clone_failed E pl1 _ flow cerr clone Hclone Herr).
    cbn. rewrite Hreplay. reflexivity.
Qed.

Lemma flow_mod_table62_mirror_witness :
  role (sender_remote Demo.master) <> OFPCR_ROLE_SLAVE /\
  (63 < PIPELINE_TABLES (Demo.env 64))%nat /\
  flow_table_flow_mod (Demo.env 64) 62 Demo.eth_sorted (false, false, None)
    (Demo.pl 64 0)
  = (ofl_ok, (true, true, Some 620%nat), Demo.after_62) /\
  flow_table_flow_mod (Demo.env 64) 63 Demo.eth_slave (false, false, None)
    Demo.after_62
  = (ofl_ok, (true, true, Some 630%nat), Demo.after_63) /\
  match_fields (fm_match Demo.eth_slave)
  = [{| header := OXM_OF_ETH_DST; value := [0xaa; 0; 0; 0; 0; 1] |};
     {| header := OXM_OF_ETH_SRC; value := [0xbb; 0; 0; 0; 0; 2] |}] /\
  is_mirror Demo.eth_sorted Demo.eth_slave /\
  exists pl3,
    tables pl3 = tables Demo.after_63 /\
    sync_slave <$> entries pl3 !! 620%nat = Some (Some 630%nat) /\
    sync_master <$> entries pl3 !! 630%nat = Some (Some 620%nat) /\
    pipeline_handle_flow_mod (Demo.env 64) 0 (Demo.pl 64 0) Demo.eth_add Demo.master
    = Done (ofl_ok, pl3,
            [ev_ofl_msg_free_flow_mod Demo.eth_slave false false;
             ev_ofl_msg_free_flow_mod Demo.eth_sorted false false]).
Proof.
  split; [discriminate|]. split; [cbn; lia|].
  split; [vm_compute; reflexivity|]. split; [vm_compute; reflexivity|].
  split; [vm_compute; reflexivity|].
  destruct (flow_mod_table62_mirror (Demo.env 64) 0 (Demo.pl 64 0) Demo.eth_add
              Demo.master true true 620%nat Demo.after_62)
    as (Hcloned & _).
  - discriminate.
  - reflexivity.
  - reflexivity.
  - reflexivity.
  - cbn; lia.
  - vm_compute; reflexivity.
  - destruct (Hcloned eq_refl) as (Hmirror & Hsent).
    split; [apply Hmirror; discriminate|].
    destruct (Hsent ofl_ok (true, true, Some 630%nat) Demo.after_63) as (Hlinked & _).
    + vm_compute; reflexivity.
    + destruct (Hlinked eq_refl 630%nat eq_refl)
        as (pl3 & Htables & Hslave & Hmaster & Hreturn).
      * eexists. vm_compute. reflexivity.
      * eexists. vm_compute. reflexivity.
      * exists pl3. split; [exact Htables|]. split; [exact Hslave|].
        split; [exact Hmaster|]. exact (Hreturn [] eq_refl).
Defined.

(** ** Reassembly of a table-features request *)

Lemma features_update_spec (n : nat) :
  forall i tf ts ts', features_update n i tf ts = Done ts' ->
  length ts' = length ts /\
  forall j t, ts !! j = Some t ->
    ts' !! j
    = Some match last (filter (fun f => Z.to_nat (tf_table_id f) = j)
                         (take n (drop i tf))) with
           | Some f => set_features f t
           | None => t
           end.
Proof.
  induction n as [|n IH]; intros i tf ts ts' H; cbn [features_update] in H.
  - injection H as <-. split; [done|]. intros j t Ht. by rewrite take_0.
  - destruct (tf !! i) as [f|] eqn:Hf; [|done]. cbn in H.
    destruct (ts !! Z.to_nat (tf_table_id f)) as [t0|] eqn:Ht0; [|done]. cbn in H.
    apply IH in H as [Hlen Hspec]. rewrite length_insert in Hlen.
    split; [done|]. intros j t Ht.
    rewrite (drop_S _ _ _ Hf). cbn [take]. rewrite filter_cons.
    destruct (decide (Z.to_nat (tf_table_id f) = j)) as [<-|Hne].
    + assert (t0 = t) as -> by congruence.
      rewrite (Hspec _ (set_features f t)).
      2:{ apply list_lookup_insert_eq. by eapply lookup_lt_Some. }
      rewrite last_cons. by destruct (last _).
    + apply Hspec. by rewrite list_lookup_insert_ne.
Qed.

Lemma features_update_runs (n : nat) :
  forall i tf ts, (i + n <= length tf)%nat ->
  Forall (fun f => (Z.to_nat (tf_table_id f) < length ts)%nat) (take n (drop i tf)) ->
  exists ts', features_update n i tf ts = Done ts'.
Proof.
  induction n as [|n IH]; intros i tf ts Hlen Hids; [by eexists|].
  destruct (lookup_lt_is_Some_2 tf i ltac:(lia)) as [f Hf].
  rewrite (drop_S _ _ _ Hf) in Hids. cbn [take] in Hids.
  apply Forall_cons in Hids as [Hid Hids].
  destruct (lookup_lt_is_Some_2 ts _ Hid) as [t Ht].
  cbn [features_update]. rewrite Hf. cbn. rewrite Ht. cbn.
  apply IH; [lia|]. by rewrite length_insert.
Qed.

Lemma features_complete_spec
    (E : Env) (pl : pipeline) (feat : ofl_msg_multipart_request_table_features)
    (r : remote) :
  (0 < PIPELINE_TABLES E)%nat ->
  (8 | PIPELINE_TABLES E)%nat ->
  length (tables pl) = PIPELINE_TABLES E ->
  body_applies feat (tables pl) ->
  exists pl' r' chunks,
    features_complete E pl feat r = Done (ofl_ok, pl', r', map features_reply chunks) /\
    (role r' = role r /\ mp_req_msg r' = None /\
     mp_req_xid r' = match mp_req_msg r with Some _ => 0 | None => mp_req_xid r end /\
     mp_req_lasttime r' = mp_req_lasttime r) /\
    (config pl' = config pl /\ entries pl' = entries pl /\
     length (tables pl') = length (tables pl)) /\
    (forall j t, tables pl !! j = Some t ->
       exists t', tables pl' !! j = Some t' /\
         features t' = features_after feat j (features t) /\
         stats t' = stats t /\ saved_features t' = saved_features t /\
         desc t' = desc t) /\
    chunked_stream 8 chunks (map features (tables pl')).
Proof.
  intros Hpos Hdiv Hlen Hbody.
  assert (Hreq : exists ts,
            features_requested feat (tables pl) = Done ts /\
            length ts = length (tables pl) /\
            forall j t, tables pl !! j = Some t ->
              exists t', ts !! j = Some t' /\
                features t' = features_after feat j (features t) /\
                stats t' = stats t /\ saved_features t' = saved_features t /\
                desc t' = desc t).
  { unfold features_requested, features_after, body_applies in *.
    destruct (rq_table_features feat) as [tf|].
    - destruct Hbody as [Hn Hids].
      destruct (features_update_runs (rq_tables_num feat) 0 tf (tables pl))
        as [ts Hrun]; [lia|by rewrite drop_0|].
      exists ts. split; [done|].
      apply features_update_spec in Hrun as [Hl Hspec]. split; [done|].
      intros j t Ht. eexists. split; [by apply Hspec|].
      rewrite drop_0. unfold requested_features. by destruct (last _).
    - exists (tables pl). split; [done|]. split; [done|].
      intros j t Ht. by exists t. }
  destruct Hreq as (ts & Hreq & Hts & Hspec).
  destruct (divide_chunks 8 _ ltac:(lia) Hpos Hdiv) as (m & Hm & Hfuel).
  destruct (features_reply_loop_stream E ts ltac:(lia) m _ 0%nat Hfuel Hm)
    as (chunks & Hloop & Hs).
  unfold features_complete. rewrite Hreq. cbn -[features_reply_loop].
  rewrite Hloop. cbn. eexists _, _, chunks. split; [reflexivity|].
  split; [by destruct (mp_req_msg r) eqn:Hr|]. cbn. split; [done|]. split; [done|].
  by apply reply_stream_chunked.
Qed.

(** C7.  For a table-features request from a sender whose remote is [r].
    With a reassembly buffer pending and a different XID the handler
    returns BAD_REQUEST/MULTIPART_BUFFER_OVERFLOW and changes neither the
    pipeline nor the remote, so the buffer stays.  With a buffer pending
    and the same XID the fragment is merged into the buffer; if the merge
    reports that more fragments are to come the handler returns 0 at
    once, sending nothing, the remote holding the merged buffer under the
    same XID with the time of this fragment; otherwise it processes the
    merged request.  With no buffer pending and REQ_MORE set, a buffer is
    started from an empty request, the fragment merged into it, the buffer
    stored on the remote with the sender's XID and the time, and 0
    returned with nothing sent and no table changed.
    Processing a completed request (PIPELINE_TABLES a positive multiple
    of 8, the descriptors naming tables of the pipeline) means: every
    table named by a descriptor gets the last descriptor naming it as its
    features and nothing else changes in the tables; the buffer is dropped
    from the remote and the stored XID reset to 0; the features of all
    tables are sent, 8 per reply; 0 is returned. *)
Theorem table_features_request_reassembly
    (E : Env) (time_now : Z) (pl : pipeline)
    (msg : ofl_msg_multipart_request_table_features) (sender : sender) :
  (forall saved,
     mp_req_msg (sender_remote sender) = Some saved ->
     xid sender <> mp_req_xid (sender_remote sender) ->
     pipeline_handle_stats_request_table_features_request E time_now pl msg sender
     = Done (ofl_error OFPET_BAD_REQUEST OFPBRC_MULTIPART_BUFFER_OVERFLOW,
             pl, sender_remote sender, [])) /\
  (forall saved merged,
     mp_req_msg (sender_remote sender) = Some saved ->
     xid sender = mp_req_xid (sender_remote sender) ->
     ofl_msg_merge_multipart_request_table_features E saved msg = (false, merged) ->
     exists r',
       pipeline_handle_stats_request_table_features_request E time_now pl msg sender
       = Done (ofl_ok, pl, r', []) /\
       role r' = role (sender_remote sender) /\
       mp_req_msg r' = Some merged /\
       mp_req_xid r' = xid sender /\
       mp_req_lasttime r' = time_now) /\
  (forall saved merged,
     mp_req_msg (sender_remote sender) = Some saved ->
     xid sender = mp_req_xid (sender_remote sender) ->
     ofl_msg_merge_multipart_request_table_features E saved msg = (true, merged) ->
     (0 < PIPELINE_TABLES E)%nat ->
     (8 | PIPELINE_TABLES E)%nat ->
     length (tables pl) = PIPELINE_TABLES E ->
     body_applies merged (tables pl) ->
     exists pl' r' chunks,
       pipeline_handle_stats_request_table_features_request E time_now pl msg sender
       = Done (ofl_ok, pl', r', map features_reply chunks) /\
       (role r' = role (sender_remote sender) /\
        mp_req_msg r' = None /\ mp_req_xid r' = 0 /\
        mp_req_lasttime r' = time_now) /\
       (config pl' = config pl /\ entries pl' = entries pl /\
        length (tables pl') = length (tables pl)) /\
       (forall j t, tables pl !! j = Some t ->
          exists t', tables pl' !! j = Some t' /\
            features t' = features_after merged j (features t) /\
            stats t' = stats t /\ saved_features t' = saved_features t /\
            desc t' = desc t) /\
       chunked_stream 8 chunks (map features (tables pl'))) /\
  (forall nomore merged,
     mp_req_msg (sender_remote sender) = None ->
     Z.land (rq_flags msg) OFPMPF_REQ_MORE <> 0 ->
     ofl_msg_merge_multipart_request_table_features E
       {| rq_flags := 0; rq_tables_num := 0; rq_table_features := None |} msg
     = (nomore, merged) ->
     exists r',
       pipeline_handle_stats_request_table_features_request E time_now pl msg sender
       = Done (ofl_ok, pl, r', []) /\
       role r' = role (sender_remote sender) /\
       mp_req_msg r' = Some merged /\
       mp_req_xid r' = xid sender /\
       mp_req_lasttime r' = time_now).
Proof.
  unfold pipeline_handle_stats_request_table_features_request.
  split; [|split; [|split]].
  - intros saved -> Hxid.
    by destruct (Z.eqb_spec (xid sender) (mp_req_xid (sender_remote sender))).
  - intros saved merged -> Hxid Hmerge.
    rewrite Hxid, Z.eqb_refl. cbn [negb]. rewrite Hmerge. cbn [negb].
    eexists. split; [reflexivity|]. by repeat split.
  - intros saved merged -> Hxid Hmerge Hpos Hdiv Hlen Hbody.
    rewrite Hxid, Z.eqb_refl. cbn [negb]. rewrite Hmerge. cbn [negb].
    destruct (features_complete_spec E pl merged
                (set_mp_req (Some merged) (mp_req_xid (sender_remote sender))
                   time_now (sender_remote sender)) Hpos Hdiv Hlen Hbody)
      as (pl' & r' & chunks & Hrun & (Hrole & Hmsg & Hx & Htime) & Hpl & Hts & Hs).
    cbn in Hrole, Hx, Htime. exists pl', r', chunks. split; [exact Hrun|].
    split; [done|]. split; [exact Hpl|]. split; [exact Hts|exact Hs].
  - intros nomore merged -> Hmore Hmerge.
    destruct (Z.eqb_spec (Z.land (rq_flags msg) OFPMPF_REQ_MORE) 0); [done|].
    cbn [negb]. rewrite Hmerge. eexists. split; [reflexivity|]. by repeat split.
Qed.

Lemma table_features_request_reassembly_witness :
  (exists r1,
     pipeline_handle_stats_request_table_features_request (Demo.env 64) 100
       (Demo.pl 64 0) (DemoMore.fragment 1 3) Demo.master
     = Done (ofl_ok, Demo.pl 64 0, r1, []) /\
     mp_req_msg r1 = mp_req_msg DemoMore.pending /\
     mp_req_xid r1 = 7 /\ mp_req_lasttime r1 = 100) /\
  pipeline_handle_stats_request_table_features_request (Demo.env 64) 200
    (Demo.pl 64 0) (DemoMore.fragment 0 1)
    {| sender_remote := DemoMore.pending; xid := 8 |}
  = Done (ofl_error OFPET_BAD_REQUEST OFPBRC_MULTIPART_BUFFER_OVERFLOW,
          Demo.pl 64 0, DemoMore.pending, []) /\
  (exists r2,
     pipeline_handle_stats_request_table_features_request (Demo.env 64) 200
       (Demo.pl 64 0) (DemoMore.fragment 1 1)
       {| sender_remote := DemoMore.pending; xid := 7 |}
     = Done (ofl_ok, Demo.pl 64 0, r2, []) /\
     mp_req_msg r2
     = Some {| rq_flags := 0; rq_tables_num := 2;
               rq_table_features :=
                 Some [DemoMore.features_of 3 5; DemoMore.features_of 1 5] |} /\
     mp_req_xid r2 = 7 /\ mp_req_lasttime r2 = 200) /\
  (exists pl' r3 chunks,
     pipeline_handle_stats_request_table_features_request (Demo.env 64) 200
       (Demo.pl 64 0) (DemoMore.fragment 0 1)
       {| sender_remote := DemoMore.pending; xid := 7 |}
     = Done (ofl_ok, pl', r3, map features_reply chunks) /\
     mp_req_msg r3 = None /\ mp_req_xid r3 = 0 /\ mp_req_lasttime r3 = 200 /\
     features <$> tables pl' !! 3%nat = Some (DemoMore.features_of 3 5) /\
     features <$> tables pl' !! 1%nat = Some (DemoMore.features_of 1 5) /\
     features <$> tables pl' !! 2%nat = features <$> tables (Demo.pl 64 0) !! 2%nat /\
     chunked_stream 8 chunks (map features (tables pl'))).
Proof.
  split; [|split; [|split]].
  - destruct (table_features_request_reassembly (Demo.env 64) 100 (Demo.pl 64 0)
                (DemoMore.fragment 1 3) Demo.master) as (_ & _ & _ & Hfirst).
    destruct (Hfirst false
                {| rq_flags := 0; rq_tables_num := 1;
                   rq_table_features := Some [DemoMore.features_of 3 5] |}
                eq_refl ltac:(done) eq_refl)
      as (r1 & Hrun & _ & Hmsg & Hxid & Htime).
    exists r1. split; [exact Hrun|]. split; [exact Hmsg|]. split; [exact Hxid|exact Htime].
  - destruct (table_features_request_reassembly (Demo.env 64) 200 (Demo.pl 64 0)
                (DemoMore.fragment 0 1)
                {| sender_remote := DemoMore.pending; xid := 8 |}) as (Hother & _).
    apply (Hother _ eq_refl). done.
  - destruct (table_features_request_reassembly (Demo.env 64) 200 (Demo.pl 64 0)
                (DemoMore.fragment 1 1)
                {| sender_remote := DemoMore.pending; xid := 7 |})
      as (_ & Hmore & _).
    destruct (Hmore _ _ eq_refl eq_refl eq_refl)
      as (r2 & Hrun & _ & Hmsg & Hxid & Htime).
    exists r2. split; [exact Hrun|]. split; [exact Hmsg|]. split; [exact Hxid|exact Htime].
  - destruct (table_features_request_reassembly (Demo.env 64) 200 (Demo.pl 64 0)
                (DemoMore.fragment 0 1)
                {| sender_remote := DemoMore.pending; xid := 7 |})
      as (_ & _ & Hlast & _).
    destruct (Hlast _ _ eq_refl eq_refl eq_refl)
      as (pl' & r3 & chunks & Hrun & (_ & Hmsg & Hxid & Htime) & _ & Hts & Hs).
    + cbn. lia.
    + exists 8%nat. reflexivity.
    + reflexivity.
    + split; [cbn; lia|]. repeat constructor; cbn; lia.
    + exists pl', r3, chunks. split; [exact Hrun|]. split; [exact Hmsg|].
      split; [exact Hxid|]. split; [exact Htime|].
      destruct (Hts 3%nat _ eq_refl) as (t3 & H3 & H3f & _).
      destruct (Hts 1%nat _ eq_refl) as (t1 & H1 & H1f & _).
      destruct (Hts 2%nat _ eq_refl) as (t2 & H2 & H2f & _).
      rewrite H3, H1, H2. cbn [fmap option_fmap option_map].
      rewrite H3f, H1f, H2f.
      split; [reflexivity|]. split; [reflexivity|]. split; [reflexivity|exact Hs].
Defined.

(** * Further properties *)

(** ** Write-Metadata and the instruction loop *)

Lemma load_store_u64 (z : Z) (bytes : list Z) :
  load_u64 (store_u64 z bytes) = z mod 2 ^ 64.
Proof.
  unfold load_u64, store_u64. cbn [seq map app take foldr].
  change (256 ^ Z.of_nat 0) with 1. change (256 ^ Z.of_nat 1) with 256.
  change (256 ^ Z.of_nat 2) with (256*256).
  change (256 ^ Z.of_nat 3) with (256*256*256).
  change (256 ^ Z.of_nat 4) with (256*256*256*256).
  change (256 ^ Z.of_nat 5) with (256*256*256*256*256).
  change (256 ^ Z.of_nat 6) with (256*256*256*256*256*256).
  change (256 ^ Z.of_nat 7) with (256*256*256*256*256*256*256).
  change (2 ^ 64) with (256 * (256 * (256 * (256 * (256 * (256 * (256 * 256))))))).
  rewrite <- !Z.div_div by lia. rewrite Z.div_1_r.
  rewrite !Z.rem_mul_r by lia. rewrite take_0. cbn [foldr]. lia.
Qed.

Lemma store_u64_length (z : Z) (bytes : list Z) :
  (8 <= length bytes)%nat -> length (store_u64 z bytes) = length bytes.
Proof.
  intros H. unfold store_u64.
  rewrite length_app, length_map, length_seq, length_drop. lia.
Qed.

Lemma store_u64_drop (z : Z) (bytes : list Z) :
  drop 8 (store_u64 z bytes) = drop 8 bytes.
Proof.
  unfold store_u64. apply drop_app_length'. by rewrite length_map, length_seq.
Qed.

Lemma masked_write_bit (old metadata metadata_mask k : Z) :
  0 <= k < 64 ->
  Z.testbit (Z.lor (Z.land old (Z.lnot metadata_mask))
                   (Z.land metadata metadata_mask) mod 2 ^ 64) k
  = if Z.testbit metadata_mask k then Z.testbit metadata k else Z.testbit old k.
Proof.
  intros Hk. rewrite Z.mod_pow2_bits_low by lia.
  rewrite Z.lor_spec, !Z.land_spec, Z.lnot_spec by lia.
  by destruct (Z.testbit metadata_mask k), (Z.testbit metadata k), (Z.testbit old k).
Qed.

(** X1.  Write-Metadata rewrites every METADATA TLV of the packet's match and
    no other: in the 64-bit value, the bits selected by the mask are
    taken from the instruction and the others are kept; the header, the
    length of the value and the bytes after the eighth are unchanged.  A
    METADATA TLV is 8 bytes long, which is what the access needs. *)
Theorem write_metadata_bits (metadata metadata_mask : Z) (fields : list ofl_match_tlv) :
  Forall (fun f => header f = OXM_OF_METADATA -> (8 <= length (value f))%nat) fields ->
  exists fields',
    write_metadata metadata metadata_mask fields = Done fields' /\
    Forall2 (fun f f' =>
      if header f =? OXM_OF_METADATA then
        header f' = header f /\
        length (value f') = length (value f) /\
        drop 8 (value f') = drop 8 (value f) /\
        forall k, 0 <= k < 64 ->
          Z.testbit (load_u64 (value f')) k
          = if Z.testbit metadata_mask k then Z.testbit metadata k
            else Z.testbit (load_u64 (value f)) k
      else f' = f) fields fields'.
Proof.
  induction 1 as [|f fields Hf _ (fields' & Hw & Hall)].
  - exists []. split; [done|constructor].
  - cbn [write_metadata]. rewrite Hw. cbn -[Nat.ltb store_u64 load_u64 Z.eqb].
    destruct (Z.eqb_spec (header f) OXM_OF_METADATA) as [Hh|Hh].
    + specialize (Hf Hh).
      destruct (Nat.ltb_spec (length (value f)) 8) as [|_]; [lia|].
      eexists. split; [reflexivity|]. constructor; [|done].
      rewrite Hh. cbn [header value]. rewrite Z.eqb_refl.
      split; [done|]. split; [by apply store_u64_length|].
      split; [apply store_u64_drop|].
      intros k Hk. rewrite load_store_u64. by apply masked_write_bit.
    + eexists. split; [reflexivity|]. constructor; [|done].
      destruct (Z.eqb_spec (header f) OXM_OF_METADATA); done.
Qed.

Lemma write_metadata_bits_witness :
  Forall (fun f => header f = OXM_OF_METADATA -> (8 <= length (value f))%nat)
         [DemoMore.metadata_tlv; Demo.ipv4_dst_w 255 0 0 0] /\
  exists fields',
    write_metadata 0xAB00 0xFF00 [DemoMore.metadata_tlv; Demo.ipv4_dst_w 255 0 0 0]
    = Done fields' /\
    Forall2 (fun f f' =>
      if header f =? OXM_OF_METADATA then
        header f' = header f /\
        length (value f') = length (value f) /\
        drop 8 (value f') = drop 8 (value f) /\
        forall k, 0 <= k < 64 ->
          Z.testbit (load_u64 (value f')) k
          = if Z.testbit 0xFF00 k then Z.testbit 0xAB00 k
            else Z.testbit (load_u64 (value f)) k
      else f' = f) [DemoMore.metadata_tlv; Demo.ipv4_dst_w 255 0 0 0] fields'.
Proof.
  split.
  - repeat constructor; cbn; intros; try lia; discriminate.
  - apply (write_metadata_bits 0xAB00 0xFF00
             [DemoMore.metadata_tlv; Demo.ipv4_dst_w 255 0 0 0]).
    repeat constructor; cbn; intros; try lia; discriminate.
Defined.

Section Instructions.

Variable E : Env.
Variable pl : pipeline.
Variable entry : flow_entry.

Lemma execute_insts_none (insts : list ofl_instruction) (next : option flow_table) :
  execute_insts E pl entry insts next None = Done (next, None, []).
Proof. by destruct insts. Qed.

Lemma execute_insts_app (a b : list ofl_instruction) :
  forall next pkt,
  execute_insts E pl entry (a ++ b) next pkt =
  '(next, pkt, ev) ← execute_insts E pl entry a next pkt;
  '(next, pkt, ev') ← execute_insts E pl entry b next pkt;
  Done (next, pkt, ev ++ ev').
Proof.
  induction a as [|inst a IH]; intros next pkt.
  - cbn. by destruct (execute_insts E pl entry b next pkt) as [[[??]?]| |].
  - cbn [app execute_insts]. destruct pkt as [p|].
    + destruct (execute_instruction E pl entry inst next p)
        as [[[n1 p1] ev1]| |]; [|done..].
      cbn. rewrite IH.
      destruct (execute_insts E pl entry a n1 p1) as [[[n2 p2] ev2]| |]; [|done..].
      cbn.
      destruct (execute_insts E pl entry b n2 p2) as [[[n3 p3] ev3]| |]; [|done..].
      cbn. by rewrite app_assoc.
    + cbn. by rewrite execute_insts_none.
Qed.

End Instructions.

(** X2.  A meter that drops the packet ends the execution of the entry: the
    instructions after it are not executed, whatever they are, and the
    trace of the entry ends with the call of the meter.  The next table
    chosen so far is returned with the NULL packet. *)
Theorem meter_drop_skips_rest
    (E : Env) (pl : pipeline) (entry : flow_entry)
    (before after : list ofl_instruction) (meter_id : Z)
    (next next' : option flow_table) (pkt pkt' : packet) (ev : list event) :
  execute_insts E pl entry before next (Some pkt) = Done (next', Some pkt', ev) ->
  meter_table_apply E pkt' meter_id = None ->
  execute_insts E pl entry (before ++ ofl_instruction_meter meter_id :: after)
    next (Some pkt)
  = Done (next', None, ev ++ [ev_meter_table_apply pkt' meter_id]).
Proof.
  intros Hb Hm. rewrite execute_insts_app, Hb. cbn.
  rewrite Hm, execute_insts_none. reflexivity.
Qed.

Lemma meter_drop_skips_rest_witness :
  execute_insts (Demo.env 64) (Demo.pl 64 0) Demo.entry0
    [ofl_instruction_write_actions [Demo.out_port 3]]
    None (Some Demo.pkt0)
  = Done (None, Some (set_action_set [Demo.out_port 3] Demo.pkt0), []) /\
  meter_table_apply (Demo.env 64) (set_action_set [Demo.out_port 3] Demo.pkt0) 0
  = None /\
  execute_insts (Demo.env 64) (Demo.pl 64 0) Demo.entry0
    ([ofl_instruction_write_actions [Demo.out_port 3]]
     ++ ofl_instruction_meter 0 :: [ofl_instruction_goto_table 2])
    None (Some Demo.pkt0)
  = Done (None, None,
          [] ++ [ev_meter_table_apply
                   (set_action_set [Demo.out_port 3] Demo.pkt0) 0]).
Proof.
  split; [reflexivity|]. split; [reflexivity|].
  apply (meter_drop_skips_rest (Demo.env 64) (Demo.pl 64 0) Demo.entry0
           [ofl_instruction_write_actions [Demo.out_port 3]]
           [ofl_instruction_goto_table 2] 0 None None Demo.pkt0
           (set_action_set [Demo.out_port 3] Demo.pkt0) []);
    reflexivity.
Defined.

(** ** The shape of a run *)

Section Runs.

Variable E : Env.
Variable pl : pipeline.

Lemma write_metadata_fuel (metadata metadata_mask : Z) (fields : list ofl_match_tlv) :
  write_metadata metadata metadata_mask fields <> OutOfFuel.
Proof.
  induction fields as [|f fields IH]; [done|]. cbn [write_metadata].
  destruct (write_metadata metadata metadata_mask fields); [|done..].
  cbn -[Nat.ltb store_u64 load_u64].
  destruct (header f =? OXM_OF_METADATA); [|done].
  by destruct (length (value f) <? 8)%nat.
Qed.

Lemma goto_targets_cons (id : Z) (inst : ofl_instruction) (insts : list ofl_instruction) :
  id ∈ goto_targets [inst] \/ id ∈ goto_targets insts ->
  id ∈ goto_targets (inst :: insts).
Proof.
  intros H. apply (elem_of_app (goto_targets [inst])) in H.
  unfold goto_targets in *. by rewrite <-omap_app in H.
Qed.

Lemma execute_instruction_cases
    (entry : flow_entry) (inst : ofl_instruction)
    (next : option flow_table) (p : packet) :
  execute_instruction E pl entry inst next p = Undefined \/
  exists n1 p1 ev1,
    execute_instruction E pl entry inst next p = Done (n1, p1, ev1) /\
    quiet ev1 /\
    (p1 = None ->
     exists meter_id, ev1 = [ev_meter_table_apply p meter_id] /\
       meter_table_apply E p meter_id = None) /\
    (forall t', n1 = Some t' ->
     next = Some t' \/
     exists id, id ∈ goto_targets [inst] /\ tables pl !! Z.to_nat id = Some t').
Proof.
  destruct inst; cbn -[write_metadata].
  - destruct (tables pl !! Z.to_nat table_id) as [t|] eqn:Ht; [|by left].
    right. eexists _, _, _. split; [reflexivity|]. split; [constructor|].
    split; [done|]. intros t' [= <-]. right. exists table_id.
    split; [apply list_elem_of_here|done].
  - pose proof (write_metadata_fuel metadata metadata_mask
                  (match_fields (hs_match (packet_handle_std_validate E (handle_std p)))))
      as Hf.
    destruct (write_metadata _ _ _) as [fields| |]; [|by left|done].
    right. eexists _, _, _. split; [reflexivity|]. split; [constructor|].
    split; [done|]. intros t' ->. by left.
  - right. eexists _, _, _. split; [reflexivity|]. split; [constructor|].
    split; [done|]. intros t' ->. by left.
  - right. eexists _, _, _. split; [reflexivity|].
    split; [by repeat constructor|]. split; [done|]. intros t' ->. by left.
  - right. eexists _, _, _. split; [reflexivity|]. split; [constructor|].
    split; [done|]. intros t' ->. by left.
  - right. eexists _, _, _. split; [reflexivity|].
    split; [by repeat constructor|]. split.
    + intros Hm. by exists meter_id.
    + intros t' ->. by left.
  - right. eexists _, _, _. split; [reflexivity|].
    split; [by repeat constructor|]. split; [done|]. intros t' ->. by left.
Qed.

Lemma execute_insts_cases (entry : flow_entry) (insts : list ofl_instruction) :
  forall next p,
  execute_insts E pl entry insts next (Some p) = Undefined \/
  exists next' pkt' ev,
    execute_insts E pl entry insts next (Some p) = Done (next', pkt', ev) /\
    (forall t', next' = Some t' ->
     next = Some t' \/
     exists id, id ∈ goto_targets insts /\ tables pl !! Z.to_nat id = Some t') /\
    match pkt' with
    | Some _ => quiet ev
    | None => exists tr p' meter_id,
        ev = tr ++ [ev_meter_table_apply p' meter_id] /\ quiet tr /\
        meter_table_apply E p' meter_id = None
    end.
Proof.
  induction insts as [|inst insts IH]; intros next p.
  - right. exists next, (Some p), []. split; [done|]. split; [by left|constructor].
  - cbn [execute_insts].
    destruct (execute_instruction_cases entry inst next p)
      as [->|(n1 & p1 & ev1 & -> & Hq1 & Hdrop & Hnext)]; [by left|].
    cbn. destruct p1 as [p1|].
    + destruct (IH n1 p1) as [->|(n2 & p2 & ev2 & -> & Hnext2 & Hend)]; [by left|].
      right. cbn. eexists _, _, _. split; [reflexivity|]. split.
      * intros t' Ht'. destruct (Hnext2 t' Ht') as [Hn1|(id & Hid & Ht)].
        -- destruct (Hnext t' Hn1) as [?|(id & Hid & Ht)]; [by left|].
           right. exists id. split; [|done].
           apply goto_targets_cons. by left.
        -- right. exists id. split; [|done].
           apply goto_targets_cons. by right.
      * destruct p2 as [p2|].
        -- by apply Forall_app.
        -- destruct Hend as (tr & p' & id & -> & Hq & Hm).
           exists (ev1 ++ tr), p', id. rewrite app_assoc. split; [done|].
           split; [by apply Forall_app|done].
    + rewrite execute_insts_none. right. cbn. eexists _, _, _.
      split; [reflexivity|]. split.
      * intros t' Ht'. destruct (Hnext t' Ht') as [?|(id & Hid & Ht)]; [by left|].
        right. exists id. split; [|done].
        apply goto_targets_cons. by left.
      * destruct (Hdrop eq_refl) as (id & -> & Hm).
        exists [], p, id. rewrite app_nil_r. split; [done|]. split; [constructor|done].
Qed.

Lemma pipeline_process_loop_ends (fuel : nat) :
  forall t pkt tr, pipeline_process_loop E fuel pl t pkt = Done tr ->
  exists pre fin, tr = pre ++ fin /\ quiet pre /\ run_end E fin.
Proof.
  induction fuel as [|fuel IH]; intros t pkt tr H; [done|].
  rewrite pipeline_process_loop_S in H.
  destruct (flow_table_lookup E t (at_table t pkt)) as [entry|].
  - unfold execute_entry in H.
    destruct (execute_insts_cases entry (fs_instructions (fe_stats entry)) None
                (with_table_miss entry (at_table t pkt)))
      as [Hu|(next' & pkt' & ev & Hx & _ & Hend)]; [by rewrite Hu in H|].
    rewrite Hx in H. cbn in H. destruct pkt' as [pkt'|].
    + destruct next' as [t'|].
      * destruct (pipeline_process_loop E fuel pl t' pkt') as [rest| |] eqn:Hrest;
          [|done..].
        cbn in H. injection H as <-.
        destruct (IH _ _ _ Hrest) as (pre & fin & -> & Hq & Hfin).
        exists (ev ++ pre), fin. rewrite app_assoc. split; [done|].
        split; [by apply Forall_app|done].
      * injection H as <-. eexists ev, _. split; [reflexivity|].
        split; [done|]. apply run_end_action_set.
    + injection H as <-. destruct Hend as (pre & p' & id & -> & Hq & Hm).
      eexists pre, _. split; [reflexivity|]. split; [done|]. by apply run_end_meter.
  - injection H as <-. exists [], [ev_packet_destroy (at_table t pkt)].
    split; [done|]. split; [constructor|apply run_end_destroy].
Qed.

Lemma pipeline_process_loop_stable (fuel : nat) :
  forall fuel' t pkt, (fuel <= fuel')%nat ->
  pipeline_process_loop E fuel pl t pkt <> OutOfFuel ->
  pipeline_process_loop E fuel' pl t pkt = pipeline_process_loop E fuel pl t pkt.
Proof.
  induction fuel as [|fuel IH]; intros fuel' t pkt Hle H; [done|].
  destruct fuel' as [|fuel']; [lia|].
  rewrite pipeline_process_loop_S in H. rewrite !pipeline_process_loop_S.
  destruct (flow_table_lookup E t _) as [entry|]; [|done].
  destruct (execute_entry E pl entry None _) as [[[next pkt'] ev]| |]; [|done..].
  cbn in H |- *. destruct pkt' as [pkt'|]; [|done].
  destruct next as [t'|]; [|done].
  rewrite (IH fuel' t' pkt'); [done|lia|].
  intros Hout. by rewrite Hout in H.
Qed.

Lemma pipeline_process_loop_forward (fuel : nat) :
  forward_gotos E pl ->
  forall i t pkt, tables pl !! i = Some t ->
  (length (tables pl) <= i + fuel)%nat ->
  pipeline_process_loop E fuel pl t pkt <> OutOfFuel.
Proof.
  intros Hfw. induction fuel as [|fuel IH]; intros i t pkt Ht Hlen.
  - apply lookup_lt_Some in Ht. lia.
  - rewrite pipeline_process_loop_S.
    destruct (flow_table_lookup E t (at_table t pkt)) as [entry|] eqn:Hl; [|done].
    unfold execute_entry.
    destruct (execute_insts_cases entry (fs_instructions (fe_stats entry)) None
                (with_table_miss entry (at_table t pkt)))
      as [->|(next' & pkt' & ev & -> & Hnext & _)]; [done|].
    cbn. destruct pkt' as [pkt'|]; [|done]. destruct next' as [t'|]; [|done].
    destruct (Hnext t' eq_refl) as [|(id & Hid & Ht')]; [done|].
    pose proof (Hfw i t _ entry id Ht Hl Hid) as Hlt.
    pose proof (IH (Z.to_nat id) t' pkt' Ht' ltac:(lia)) as Hrun.
    by destruct (pipeline_process_loop E fuel pl t' pkt').
Qed.

End Runs.

(** X3.  Whatever the tables hold, a run of the pipeline that returns has
    one of three ends: the packet is destroyed; its action set is
    executed with cookie all-ones and reason ACTION_SET and then it is
    destroyed; or a meter has dropped it, and then the pipeline neither
    executes the action set nor destroys the packet.  Before that end
    there is no packet_destroy and no action_set_execute. *)
Theorem pipeline_process_packet_ends
    (E : Env) (fuel : nat) (pl : pipeline) (pkt : packet) (tr : list event) :
  pipeline_process_packet E fuel pl pkt = Done tr ->
  exists pre fin, tr = pre ++ fin /\ quiet pre /\ run_end E fin.
Proof.
  unfold pipeline_process_packet.
  destruct (packet_handle_std_is_ttl_valid E (handle_std pkt)); cbn.
  - destruct (tables pl !! 0%nat) as [t0|]; [|done]. cbn.
    apply pipeline_process_loop_ends.
  - unfold send_packet_to_controller.
    destruct (Z.land (cfg_flags (config pl)) OFPC_INVALID_TTL_TO_CONTROLLER =? 0);
      cbn.
    + intros [= <-]. exists [], [ev_packet_destroy pkt].
      split; [done|]. split; [constructor|apply run_end_destroy].
    + destruct (miss_send_len (config pl) =? OFPCML_NO_BUFFER); cbn;
        intros [= <-]; eexists [_; _], [_]; (split; [reflexivity|]);
        (split; [by repeat constructor|apply run_end_destroy]).
Qed.

Lemma pipeline_process_packet_ends_witness :
  pipeline_process_packet (Demo.env 64) 2 (Demo.pl 64 0) Demo.pkt0
  = Done (Demo.tr0 Demo.pkt0_table0 ++
          [ev_action_set_execute [Demo.out_port 3] Demo.pkt0_table2
             COOKIE_ALL_ONES OFPR_ACTION_SET;
           ev_packet_destroy Demo.pkt0_table2]) /\
  exists pre fin,
    Demo.tr0 Demo.pkt0_table0 ++
    [ev_action_set_execute [Demo.out_port 3] Demo.pkt0_table2
       COOKIE_ALL_ONES OFPR_ACTION_SET;
     ev_packet_destroy Demo.pkt0_table2] = pre ++ fin /\
    quiet pre /\ run_end (Demo.env 64) fin.
Proof.
  split; [reflexivity|].
  apply (pipeline_process_packet_ends (Demo.env 64) 2 (Demo.pl 64 0) Demo.pkt0).
  reflexivity.
Defined.

(** X4.  When every Goto-Table of every entry leads to a later table, the
    walk of a packet through the tables ends within as many rounds of the
    loop as there are tables, and more rounds change nothing. *)
Theorem forward_gotos_terminate (E : Env) (pl : pipeline) (pkt : packet) :
  forward_gotos E pl ->
  pipeline_process_packet E (length (tables pl)) pl pkt <> OutOfFuel /\
  forall fuel, (length (tables pl) <= fuel)%nat ->
    pipeline_process_packet E fuel pl pkt
    = pipeline_process_packet E (length (tables pl)) pl pkt.
Proof.
  intros Hfw. unfold pipeline_process_packet.
  destruct (packet_handle_std_is_ttl_valid E (handle_std pkt)); cbn.
  - destruct (tables pl !! 0%nat) as [t0|] eqn:Ht0; cbn; [|done].
    assert (Hrun : pipeline_process_loop E (length (tables pl)) pl t0 pkt
                   <> OutOfFuel).
    { by apply (pipeline_process_loop_forward E pl _ Hfw 0%nat). }
    split; [done|]. intros fuel Hle. by apply pipeline_process_loop_stable.
  - split; [|done].
    by destruct (Z.land (cfg_flags (config pl)) OFPC_INVALID_TTL_TO_CONTROLLER =? 0),
                (send_packet_to_controller E pl pkt 0 OFPR_INVALID_TTL).
Qed.

Lemma demo_forward_gotos : forward_gotos (Demo.env 64) (Demo.pl 64 0).
Proof.
  intros i t p entry id Ht Hl Hid.
  change (tables (Demo.pl 64 0)) with (Demo.fresh_tables 64 0) in Ht.
  unfold Demo.fresh_tables in Ht.
  apply list_lookup_fmap_Some in Ht as (k & -> & Hk).
  apply lookup_seq in Hk as [-> _].
  cbn in Hl. unfold Demo.lookup in Hl. cbn in Hl.
  destruct (Z.eqb_spec (Z.of_nat i) 0) as [H0|H0].
  - injection Hl as <-. cbn in Hid.
    apply list_elem_of_singleton in Hid as ->. lia.
  - destruct ((Z.of_nat i =? 2) && (hs_proto (handle_std p) =? 1)); [|done].
    injection Hl as <-. cbn in Hid. by apply elem_of_nil in Hid.
Defined.

Lemma forward_gotos_terminate_witness :
  forward_gotos (Demo.env 64) (Demo.pl 64 0) /\
  pipeline_process_packet (Demo.env 64) (length (tables (Demo.pl 64 0)))
    (Demo.pl 64 0) Demo.pkt0 <> OutOfFuel /\
  forall fuel, (length (tables (Demo.pl 64 0)) <= fuel)%nat ->
    pipeline_process_packet (Demo.env 64) fuel (Demo.pl 64 0) Demo.pkt0
    = pipeline_process_packet (Demo.env 64) (length (tables (Demo.pl 64 0)))
        (Demo.pl 64 0) Demo.pkt0.
Proof.
  split; [apply demo_forward_gotos|].
  apply (forward_gotos_terminate (Demo.env 64) (Demo.pl 64 0) Demo.pkt0).
  apply demo_forward_gotos.
Defined.

(** X5.  A packet whose TTL is invalid never reaches a table: the outcome
    depends on the switch configuration alone, not on the tables.  With
    OFPC_INVALID_TTL_TO_CONTROLLER clear the packet is destroyed and
    nothing is sent.  With the flag set exactly one PACKET_IN is sent,
    with reason INVALID_TTL, table 0 and cookie all-ones, then the match
    is freed and the packet destroyed; miss_send_len OFPCML_NO_BUFFER
    sends the whole packet unbuffered, any other value buffers the packet
    and caps the data at miss_send_len. *)
Theorem invalid_ttl_dropped (E : Env) (pl : pipeline) (pkt : packet) :
  packet_handle_std_is_ttl_valid E (handle_std pkt) = false ->
  exists tr,
    (forall fuel pl', config pl' = config pl ->
       pipeline_process_packet E fuel pl' pkt = Done tr) /\
    (Z.land (cfg_flags (config pl)) OFPC_INVALID_TTL_TO_CONTROLLER = 0 ->
       tr = [ev_packet_destroy pkt]) /\
    (Z.land (cfg_flags (config pl)) OFPC_INVALID_TTL_TO_CONTROLLER <> 0 ->
       exists m pkt',
         tr = [ev_dp_send_message (ofl_packet_in m);
               ev_ofl_structs_free_match (pi_match m);
               ev_packet_destroy pkt'] /\
         pi_reason m = OFPR_INVALID_TTL /\ pi_table_id m = 0 /\
         pi_cookie m = 0xffffffffffffffff /\
         pi_match m = hs_match (handle_std pkt') /\
         (miss_send_len (config pl) = OFPCML_NO_BUFFER ->
            pkt' = pkt /\ pi_buffer_id m = OFP_NO_BUFFER /\
            pi_data_length m = buffer_size pkt) /\
         (miss_send_len (config pl) <> OFPCML_NO_BUFFER ->
            pkt' = dp_buffers_save E pkt /\
            pi_buffer_id m = pkt_buffer_id pkt' /\
            pi_data_length m
            = Z.min (miss_send_len (config pl)) (buffer_size pkt'))).
Proof.
  intros Httl.
  exists (match pipeline_process_packet E 0 pl pkt with Done tr => tr | _ => [] end).
  unfold pipeline_process_packet, send_packet_to_controller. rewrite Httl. cbn.
  split.
  { intros fuel pl' ->.
    destruct (Z.land (cfg_flags (config pl)) OFPC_INVALID_TTL_TO_CONTROLLER =? 0),
             (miss_send_len (config pl) =? OFPCML_NO_BUFFER); reflexivity. }
  destruct (Z.eqb_spec (Z.land (cfg_flags (config pl))
                          OFPC_INVALID_TTL_TO_CONTROLLER) 0) as [H0|H0]; cbn.
  { split; [done|]. intros Hn. by destruct Hn. }
  split; [by intros Hn|]. intros _.
  destruct (Z.eqb_spec (miss_send_len (config pl)) OFPCML_NO_BUFFER) as [Hm|Hm]; cbn.
  - eexists (Build_ofl_msg_packet_in _ _ _ _ _ _ _ _), _.
    split; [reflexivity|]. cbn. repeat split; try done.
  - eexists (Build_ofl_msg_packet_in _ _ _ _ _ _ _ _), _.
    split; [reflexivity|]. cbn. repeat split; try done.
Qed.

Lemma invalid_ttl_dropped_witness :
  packet_handle_std_is_ttl_valid (Demo.env 64) (handle_std DemoMore.pkt_ttl) = false /\
  exists tr,
    pipeline_process_packet (Demo.env 64) 0 DemoMore.pl_ttl DemoMore.pkt_ttl = Done tr /\
    exists m,
      tr = [ev_dp_send_message (ofl_packet_in m);
            ev_ofl_structs_free_match (pi_match m);
            ev_packet_destroy DemoMore.pkt_ttl] /\
      pi_reason m = OFPR_INVALID_TTL /\ pi_data_length m = 2.
Proof.
  split; [reflexivity|].
  destruct (invalid_ttl_dropped (Demo.env 64) DemoMore.pl_ttl DemoMore.pkt_ttl
              eq_refl) as (tr & Hrun & _ & Hsend).
  exists tr. split; [by apply Hrun|].
  destruct Hsend as (m & pkt' & -> & Hreason & _ & _ & _ & _ & Hbuf); [done|].
  destruct Hbuf as (-> & _ & Hlen); [done|].
  exists m. split; [done|]. split; [done|]. rewrite Hlen. reflexivity.
Defined.

(** ** More on flow-mod *)

Lemma is_error_false (e : ofl_err) : is_error e = false <-> e = ofl_ok.
Proof. destruct e; cbn; split; done. Qed.

Lemma flow_mod_validate_actions_ok
    (E : Env) (pl : pipeline) (msg : ofl_msg_flow_mod) (insts : list ofl_instruction) :
  flow_mod_validate_actions E pl msg insts = ofl_ok
  <-> Forall (actions_valid E pl msg) insts.
Proof.
  induction insts as [|inst insts IH]; [by split; [constructor|]|].
  cbn [flow_mod_validate_actions]. rewrite Forall_cons, <-IH. clear IH.
  unfold actions_valid.
  destruct inst; cbn;
    try (split; [intros H; split; [by intros ? [=]|done] | by intros [_ H]]).
  - destruct (dp_actions_validate E pl actions) as [|ty c] eqn:Hv; cbn.
    + destruct (dp_actions_check_set_field_req E msg actions) as [|ty c] eqn:Hc; cbn.
      * split; [|by intros [_ H]]. intros H. split; [|done].
        intros ? [= <-]. by rewrite Hv, Hc.
      * split; [done|]. intros [H _]. destruct (H _ eq_refl) as [_ H'].
        by rewrite Hc in H'.
    + split; [done|]. intros [H _]. destruct (H _ eq_refl) as [H' _].
      by rewrite Hv in H'.
  - destruct (dp_actions_validate E pl actions) as [|ty c] eqn:Hv; cbn.
    + destruct (dp_actions_check_set_field_req E msg actions) as [|ty c] eqn:Hc; cbn.
      * split; [|by intros [_ H]]. intros H. split; [|done].
        intros ? [= <-]. by rewrite Hv, Hc.
      * split; [done|]. intros [H _]. destruct (H _ eq_refl) as [_ H'].
        by rewrite Hc in H'.
    + split; [done|]. intros [H _]. destruct (H _ eq_refl) as [H' _].
      by rewrite Hv in H'.
Qed.

Lemma flow_mod_validate_actions_error
    (E : Env) (pl : pipeline) (msg : ofl_msg_flow_mod) (insts : list ofl_instruction)
    (type : ofp_error_type) (code : ofp_error_code) :
  flow_mod_validate_actions E pl msg insts = ofl_error type code ->
  exists inst actions,
    inst ∈ insts /\ validated_actions inst = Some actions /\
    (dp_actions_validate E pl actions = ofl_error type code \/
     dp_actions_validate E pl actions = ofl_ok /\
     dp_actions_check_set_field_req E msg actions = ofl_error type code).
Proof.
  induction insts as [|inst insts IH]; [done|].
  cbn [flow_mod_validate_actions].
  assert (Hrest : flow_mod_validate_actions E pl msg insts = ofl_error type code ->
    exists inst0 actions,
      inst0 ∈ inst :: insts /\ validated_actions inst0 = Some actions /\
      (dp_actions_validate E pl actions = ofl_error type code \/
       dp_actions_validate E pl actions = ofl_ok /\
       dp_actions_check_set_field_req E msg actions = ofl_error type code)).
  { intros H. destruct (IH H) as (i0 & a0 & Hin & Hrest).
    exists i0, a0. split; [by apply list_elem_of_further|done]. }
  assert (Hcheck : forall actions,
    validated_actions inst = Some actions ->
    (if is_error
          (if is_error (dp_actions_validate E pl actions)
           then dp_actions_validate E pl actions
           else dp_actions_check_set_field_req E msg actions)
     then if is_error (dp_actions_validate E pl actions)
          then dp_actions_validate E pl actions
          else dp_actions_check_set_field_req E msg actions
     else flow_mod_validate_actions E pl msg insts) = ofl_error type code ->
    exists inst0 actions,
      inst0 ∈ inst :: insts /\ validated_actions inst0 = Some actions /\
      (dp_actions_validate E pl actions = ofl_error type code \/
       dp_actions_validate E pl actions = ofl_ok /\
       dp_actions_check_set_field_req E msg actions = ofl_error type code)).
  { intros actions Hva.
    destruct (dp_actions_validate E pl actions) as [|ty c] eqn:Hv; cbn.
    - destruct (dp_actions_check_set_field_req E msg actions) as [|ty c] eqn:Hc; cbn;
        [done|].
      intros [= -> ->]. exists inst, actions.
      split; [apply list_elem_of_here|]. split; [done|]. by right.
    - intros [= -> ->]. exists inst, actions.
      split; [apply list_elem_of_here|]. split; [done|]. by left. }
  destruct inst; cbn; try done.
  - by apply Hcheck.
  - by apply Hcheck.
Qed.

(** X6.  A flow-mod with an Apply-Actions or Write-Actions instruction whose
    actions fail dp_actions_validate or dp_actions_check_set_field_req is
    refused before the table id or the command is looked at: the handler
    returns the error of one of the two validators on one of the action
    lists of the message, no table is touched and nothing is freed. *)
Theorem flow_mod_invalid_actions_rejected
    (E : Env) (fuel : nat) (pl : pipeline) (msg : ofl_msg_flow_mod) (sender : sender)
    (inst : ofl_instruction) :
  role (sender_remote sender) <> OFPCR_ROLE_SLAVE ->
  qsort_contract (qsort E) ->
  inst ∈ fm_instructions msg ->
  ~ actions_valid E pl (flow_mod_sort E msg) inst ->
  exists type code,
    pipeline_handle_flow_mod E fuel pl msg sender
    = Done (ofl_error type code, pl, []) /\
    exists inst' actions,
      inst' ∈ fm_instructions msg /\ validated_actions inst' = Some actions /\
      (dp_actions_validate E pl actions = ofl_error type code \/
       dp_actions_validate E pl actions = ofl_ok /\
       dp_actions_check_set_field_req E (flow_mod_sort E msg) actions
       = ofl_error type code).
Proof.
  intros Hrole Hq Hin Hbad.
  destruct (Hq inst_compare (fm_instructions msg)
              inst_compare_total inst_compare_trans) as [Hperm _].
  destruct (flow_mod_validate_actions E pl (flow_mod_sort E msg)
              (fm_instructions (flow_mod_sort E msg))) as [|type code] eqn:Hv.
  - exfalso. apply Hbad. apply flow_mod_validate_actions_ok in Hv.
    rewrite Forall_forall in Hv. apply Hv. cbn. by rewrite Hperm.
  - exists type, code. split.
    + unfold pipeline_handle_flow_mod. rewrite Hv. cbn.
      by destruct (role (sender_remote sender)).
    + destruct (flow_mod_validate_actions_error _ _ _ _ _ _ Hv)
        as (i0 & a0 & Hi0 & Hrest).
      exists i0, a0. split; [|done]. cbn in Hi0. by rewrite Hperm in Hi0.
Qed.

Lemma flow_mod_invalid_actions_rejected_witness :
  role (sender_remote Demo.master) <> OFPCR_ROLE_SLAVE /\
  qsort_contract (qsort (Demo.env 64)) /\
  exists type code,
    pipeline_handle_flow_mod (Demo.env 64) 0 (Demo.pl 64 0)
      (Demo.flow_mod 200 OFPFC_DELETE 1 []
         [ofl_instruction_goto_table 1;
          ofl_instruction_write_actions [Demo.out_port 0]]) Demo.master
    = Done (ofl_error type code, Demo.pl 64 0, []).
Proof.
  split; [done|]. split; [apply stable_sort_contract|].
  destruct (flow_mod_invalid_actions_rejected (Demo.env 64) 0 (Demo.pl 64 0)
              (Demo.flow_mod 200 OFPFC_DELETE 1 []
                 [ofl_instruction_goto_table 1;
                  ofl_instruction_write_actions [Demo.out_port 0]])
              Demo.master (ofl_instruction_write_actions [Demo.out_port 0]))
    as (type & code & Hrun & _).
  - done.
  - apply stable_sort_contract.
  - apply list_elem_of_further, list_elem_of_here.
  - intros H. destruct (H [Demo.out_port 0] eq_refl) as [Hv _]. discriminate Hv.
  - by exists type, code.
Defined.

(** X7.  The instruction sort puts experimenter instructions first: after the
    sort no experimenter instruction stands behind an instruction of
    another type, so that [execute_entry] hands the packet to dp_exp_inst
    before it applies the meter. *)
Theorem flow_mod_sort_experimenter_first (E : Env) (msg : ofl_msg_flow_mod) :
  qsort_contract (qsort E) ->
  forall i j a b, (i < j)%nat ->
    fm_instructions (flow_mod_sort E msg) !! i = Some a ->
    fm_instructions (flow_mod_sort E msg) !! j = Some b ->
    inst_type b = OFPIT_EXPERIMENTER -> inst_type a = OFPIT_EXPERIMENTER.
Proof.
  intros Hq i j a b Hij Ha Hb Hexp.
  pose proof (flow_mod_sort_sorted E msg Hq i j a b Hij Ha Hb) as Hkey.
  destruct b; try discriminate Hexp. by destruct a; cbn in Hkey; try lia.
Qed.

Lemma flow_mod_sort_experimenter_first_witness :
  qsort_contract (qsort (Demo.env 64)) /\
  fm_instructions
    (flow_mod_sort (Demo.env 64)
       (Demo.flow_mod 0 OFPFC_ADD 1 []
          [ofl_instruction_goto_table 1; ofl_instruction_meter 1;
           ofl_instruction_experimenter 7]))
  = [ofl_instruction_experimenter 7; ofl_instruction_meter 1;
     ofl_instruction_goto_table 1] /\
  forall i j a b, (i < j)%nat ->
    fm_instructions
      (flow_mod_sort (Demo.env 64)
         (Demo.flow_mod 0 OFPFC_ADD 1 []
            [ofl_instruction_goto_table 1; ofl_instruction_meter 1;
             ofl_instruction_experimenter 7])) !! i = Some a ->
    fm_instructions
      (flow_mod_sort (Demo.env 64)
         (Demo.flow_mod 0 OFPFC_ADD 1 []
            [ofl_instruction_goto_table 1; ofl_instruction_meter 1;
             ofl_instruction_experimenter 7])) !! j = Some b ->
    inst_type b = OFPIT_EXPERIMENTER -> inst_type a = OFPIT_EXPERIMENTER.
Proof.
  split; [apply stable_sort_contract|]. split; [reflexivity|].
  apply (flow_mod_sort_experimenter_first (Demo.env 64)).
  apply stable_sort_contract.
Defined.

(** *** Netmasks in table 61 *)

Lemma lpm_scan_prefix_mask (p : Z) :
  0 <= p <= 32 -> lpm_scan 32 0 (prefix_mask p) false 32 = Some (32 - p).
Proof.
  intros Hp. assert (H : exists n, (n <= 32)%nat /\ p = Z.of_nat n).
  { exists (Z.to_nat p). lia. }
  destruct H as (n & Hn & ->).
  do 33 (destruct n as [|n]; [vm_compute; reflexivity|]). lia.
Qed.

Lemma prefix_mask_testbit (n k : Z) :
  0 <= n <= 32 -> 0 <= k ->
  Z.testbit (2 ^ 32 - 2 ^ n) k = (n <=? k) && (k <? 32).
Proof.
  intros Hn Hk.
  replace (2 ^ 32 - 2 ^ n) with (Z.shiftl (Z.ones (32 - n)) n).
  2:{ rewrite Z.shiftl_mul_pow2, Z.ones_equiv by lia. unfold Z.pred.
      rewrite Z.mul_add_distr_r, <-Z.pow_add_r by lia.
      replace (32 - n + n) with 32 by lia. lia. }
  rewrite Z.shiftl_spec by lia.
  destruct (Z.leb_spec n k) as [Hle|Hlt]; cbn.
  - destruct (Z.ltb_spec k 32).
    + apply Z.ones_spec_low. lia.
    + apply Z.ones_spec_high. lia.
  - apply Z.testbit_neg_r. lia.
Qed.

Lemma prefix_form_closed (mask n : Z) :
  0 <= mask < 2 ^ 32 ->
  ~ zero_above_one mask -> trailing_zeros mask n ->
  mask = prefix_mask (32 - n).
Proof.
  intros Hm Hz (Hn & Hlow & Hbit). unfold prefix_mask.
  replace (32 - (32 - n)) with n by lia.
  apply Z.bits_inj'. intros k Hk. rewrite prefix_mask_testbit by lia.
  destruct (Z.leb_spec n k) as [Hle|Hlt]; cbn.
  - destruct (Z.ltb_spec k 32) as [Hk32|Hk32].
    + destruct (Z.testbit mask k) eqn:Hb; [done|]. exfalso.
      destruct (Z.eq_dec k n) as [->|Hne]; [by rewrite Hbit in Hb by lia|].
      apply Hz. exists n, k. repeat split; try lia; [apply Hbit; lia|done].
    + destruct (Z.eq_dec mask 0) as [->|Hne]; [apply Z.bits_0|].
      apply Z.bits_above_log2; [lia|].
      apply Z.lt_le_trans with 32; [|done].
      apply Z.log2_lt_pow2; lia.
  - apply Hlow. lia.
Qed.

Lemma lpm_mask_range (value : list Z) (mask : Z) :
  lpm_mask value = Done mask -> 0 <= mask < 2 ^ 32.
Proof.
  unfold lpm_mask. intros H.
  destruct (value !! 4%nat); [|done]. destruct (value !! 5%nat); [|done].
  destruct (value !! 6%nat); [|done]. destruct (value !! 7%nat); [|done].
  cbn in H. injection H as <-. apply Z.mod_pos_bound. lia.
Qed.

(** X8.  The table-61 check accepts a masked IPv4 destination exactly when
    the mask is the netmask of a prefix length between 0 and 32, that is
    2^32 - 2^(32-p), and the priority of the flow is that prefix length. *)
Theorem lpm_accepts_netmasks (priority : Z) (oxm : ofl_match_tlv) (mask : Z) :
  header oxm = OXM_OF_IPV4_DST_W ->
  lpm_mask (value oxm) = Done mask ->
  lpm_check_tlv priority oxm = Done ofl_ok
  <-> 0 <= priority <= 32 /\ mask = prefix_mask priority.
Proof.
  intros Hh Hm.
  destruct (lpm_check_tlv_masked priority oxm mask Hh Hm) as [Hhole Hprefix].
  split.
  - intros Hok. destruct (lpm_scan_decides mask) as [[Hz _]|(Hz & n & _ & Htz)].
    + by rewrite (Hhole Hz) in Hok.
    + rewrite (Hprefix n Hz Htz) in Hok.
      destruct (Z.eqb_spec priority (32 - n)) as [->|]; [|done].
      pose proof Htz as (Hn & _). split; [lia|].
      apply prefix_form_closed; [|done..]. by eapply lpm_mask_range.
  - intros [Hp ->].
    destruct (lpm_scan_prefix _ _ (lpm_scan_prefix_mask priority Hp)) as [Hz Htz].
    rewrite (Hprefix _ Hz Htz).
    replace (32 - (32 - priority)) with priority by lia.
    by rewrite Z.eqb_refl.
Qed.

Lemma lpm_accepts_netmasks_witness :
  header (Demo.ipv4_dst_w 255 255 255 0) = OXM_OF_IPV4_DST_W /\
  lpm_mask (value (Demo.ipv4_dst_w 255 255 255 0)) = Done 0xFFFFFF00 /\
  (lpm_check_tlv 24 (Demo.ipv4_dst_w 255 255 255 0) = Done ofl_ok
   <-> 0 <= 24 <= 32 /\ 0xFFFFFF00 = prefix_mask 24).
Proof.
  split; [reflexivity|]. split; [reflexivity|].
  apply (lpm_accepts_netmasks 24 (Demo.ipv4_dst_w 255 255 255 0) 0xFFFFFF00);
    reflexivity.
Defined.

(** *** The mirror of table 62 *)

Lemma transpose_tlv_involutive (f : ofl_match_tlv) :
  transpose_tlv (transpose_tlv f) = f.
Proof.
  destruct f as [h v]. unfold transpose_tlv. cbn.
  destruct (Z.eqb_spec h OXM_OF_ETH_DST) as [->|Hd]; [done|].
  destruct (Z.eqb_spec h OXM_OF_ETH_SRC) as [->|Hs]; [done|]. cbn.
  destruct (Z.eqb_spec h OXM_OF_ETH_DST); [done|].
  by destruct (Z.eqb_spec h OXM_OF_ETH_SRC).
Qed.

Lemma transpose_match_involutive (m : ofl_match) :
  transpose_match (transpose_match m) = m.
Proof.
  destruct m as [len fields]. unfold transpose_match. cbn.
  destruct (len =? 0) eqn:Hlen; cbn; rewrite Hlen; cbn; [done|].
  f_equal. rewrite <-list_fmap_compose. rewrite <-(list_fmap_id fields) at 2.
  apply list_fmap_ext. intros _ f _. apply transpose_tlv_involutive.
Qed.

(** X9.  Transposing is its own inverse: the message built for table 63 from
    an ADD into table 62, transposed once more, is the ADD itself, for
    every match (also one with several ETH_SRC or ETH_DST TLVs). *)
Theorem flow_mod_slave_msg_involutive (msg : ofl_msg_flow_mod) :
  flow_mod_slave_msg (flow_mod_slave_msg msg) = msg /\
  transpose_match (transpose_match (fm_match msg)) = fm_match msg.
Proof.
  split; [|apply transpose_match_involutive].
  destruct msg. unfold flow_mod_slave_msg, set_match. cbn.
  by rewrite transpose_match_involutive.
Qed.

(** *** Table ids and buffers *)

Lemma flow_mod_checks_passed
    (E : Env) (fuel : nat) (pl : pipeline) (msg : ofl_msg_flow_mod) (sender : sender) :
  role (sender_remote sender) <> OFPCR_ROLE_SLAVE ->
  flow_mod_validate_actions E pl (flow_mod_sort E msg)
    (fm_instructions (flow_mod_sort E msg)) = ofl_ok ->
  flow_mod_validate_lpm (flow_mod_sort E msg) = Done ofl_ok ->
  pipeline_handle_flow_mod E fuel pl msg sender
  = flow_mod_dispatch E fuel pl (flow_mod_sort E msg).
Proof.
  intros Hrole Hv Hlpm. unfold pipeline_handle_flow_mod. rewrite Hv, Hlpm. cbn.
  by destruct (role (sender_remote sender)).
Qed.

(** X10.  The table id of a flow-mod is not checked against the number of
    tables: a flow-mod that passes the validation and names a table from
    PIPELINE_TABLES up, other than 0xff, makes the handler read
    pl->tables past the end of the array. *)
Theorem flow_mod_table_id_unchecked
    (E : Env) (fuel : nat) (pl : pipeline) (msg : ofl_msg_flow_mod) (sender : sender) :
  role (sender_remote sender) <> OFPCR_ROLE_SLAVE ->
  flow_mod_validate_actions E pl (flow_mod_sort E msg)
    (fm_instructions (flow_mod_sort E msg)) = ofl_ok ->
  fm_table_id msg <> 0xff ->
  fm_table_id msg <> 61 ->
  (PIPELINE_TABLES E <= Z.to_nat (fm_table_id msg))%nat ->
  pipeline_handle_flow_mod E fuel pl msg sender = Undefined.
Proof.
  intros Hrole Hv Hff H61 Hrange.
  rewrite flow_mod_checks_passed; [|done..|].
  - unfold flow_mod_dispatch. cbn -[Nat.ltb].
    destruct (Z.eqb_spec (fm_table_id msg) 255); [done|].
    destruct (Nat.ltb_spec (Z.to_nat (fm_table_id msg)) (PIPELINE_TABLES E));
      [lia|reflexivity].
  - unfold flow_mod_validate_lpm. cbn.
    destruct (Z.eqb_spec (fm_table_id msg) 61); [done|]. cbn.
    by destruct (fm_command msg).
Qed.

Lemma flow_mod_table_id_unchecked_witness :
  role (sender_remote Demo.master) <> OFPCR_ROLE_SLAVE /\
  (PIPELINE_TABLES (Demo.env 64) <= Z.to_nat 200)%nat /\
  pipeline_handle_flow_mod (Demo.env 64) 0 (Demo.pl 64 0)
    (Demo.flow_mod 200 OFPFC_ADD 1 [] []) Demo.master = Undefined.
Proof.
  split; [done|]. split; [cbn; lia|].
  apply (flow_mod_table_id_unchecked (Demo.env 64) 0 (Demo.pl 64 0)
           (Demo.flow_mod 200 OFPFC_ADD 1 [] []) Demo.master);
    [done|reflexivity|done|done|cbn; lia].
Defined.

Lemma flow_mod_sync_events
    (E : Env) (pl : pipeline) (msg : ofl_msg_flow_mod) (flow : nat)
    (pl' : pipeline) (ev : list event) :
  flow_mod_sync E pl msg flow = Done (pl', ev) ->
  Forall (fun e => is_free_flow_mod e = true) ev.
Proof.
  unfold flow_mod_sync.
  destruct (ofl_msg_clone E msg) as [error slave_msg].
  destruct (is_error error); cbn -[Nat.ltb]; [by intros [= <- <-]|].
  destruct (63 <? PIPELINE_TABLES E)%nat; cbn; [|done].
  destruct (flow_table_flow_mod E 63 _ _ pl) as [[error' [[mk ik] sf]] pl1].
  destruct (is_error error'); cbn.
  - intros [= <- <-]. by repeat constructor.
  - destruct (link_sync _ _ _); cbn; [|done..].
    intros [= <- <-]. by repeat constructor.
Qed.

Lemma flow_mod_sync_fuel
    (E : Env) (pl : pipeline) (msg : ofl_msg_flow_mod) (flow : nat) :
  flow_mod_sync E pl msg flow <> OutOfFuel.
Proof.
  unfold flow_mod_sync.
  destruct (ofl_msg_clone E msg) as [error slave_msg].
  destruct (is_error error); cbn -[Nat.ltb]; [done|].
  destruct (63 <? PIPELINE_TABLES E)%nat; cbn; [|done].
  destruct (flow_table_flow_mod E 63 _ _ pl) as [[error' [[mk ik] sf]] pl1].
  destruct (is_error error'); cbn; [done|].
  unfold link_sync. destruct sf as [slave|]; cbn; [|done].
  destruct (entries pl1 !! slave); cbn; [|done].
  by destruct (_ !! flow).
Qed.

Lemma flow_mod_replay_none (E : Env) (fuel : nat) (pl : pipeline) (msg : ofl_msg_flow_mod) :
  fm_buffer_id msg = NO_BUFFER \/
  fm_command msg = OFPFC_DELETE \/ fm_command msg = OFPFC_DELETE_STRICT \/
  dp_buffers_retrieve E (fm_buffer_id msg) = None ->
  flow_mod_replay E fuel pl msg = Done [].
Proof.
  unfold flow_mod_replay. intros [-> | [-> | [-> | ->]]]; cbn; try done.
  - by rewrite andb_false_r.
  - by destruct (_ && _).
Qed.

Local Ltac no_event :=
  split; [done|]; split; [done|]; by intros ? ? ? [= <- <- <-].

Local Ltac flow_mod_checks Hd :=
  destruct (is_error (flow_mod_validate_actions _ _ _ _)); [no_event|];
  destruct (flow_mod_validate_lpm _) as [lpm| |];
    cbn -[flow_mod_dispatch]; [|by split; [|split]..];
  destruct (is_error lpm); [no_event|exact Hd].

Lemma flow_mod_dispatch_no_replay
    (E : Env) (fuel : nat) (pl : pipeline) (msg : ofl_msg_flow_mod) :
  (forall fuel pl', flow_mod_replay E fuel pl' msg = Done []) ->
  flow_mod_dispatch E fuel pl msg = flow_mod_dispatch E 0 pl msg /\
  flow_mod_dispatch E fuel pl msg <> OutOfFuel /\
  forall error pl' ev,
    flow_mod_dispatch E fuel pl msg = Done (error, pl', ev) ->
    Forall (fun e => is_free_flow_mod e = true) ev.
Proof.
  intros Hreplay. unfold flow_mod_dispatch.
  destruct (fm_table_id msg =? 255).
  - destruct (fm_command msg); try no_event;
      destruct (flow_mod_all_tables E _ _ _ _ _) as [[e [[mk ik] f]] pl1];
      destruct (is_error e);
      (split; [done|]; split; [done|]; intros ? ? ? [= <- <- <-];
       by repeat constructor).
  - destruct (negb _); [by split; [|split]|].
    destruct (flow_table_flow_mod E _ _ _ pl) as [[e [[mk ik] f]] pl1].
    destruct (is_error e); [no_event|].
    assert (Hsync : forall pl2 evs,
      match fm_table_id msg =? 62, fm_command msg, f with
      | true, OFPFC_ADD, Some flow => flow_mod_sync E pl1 msg flow
      | _, _, _ => Done (pl1, [])
      end = Done (pl2, evs) -> Forall (fun e => is_free_flow_mod e = true) evs).
    { intros pl2 evs.
      destruct (fm_table_id msg =? 62), (fm_command msg), f;
        try (intros [= <- <-]; constructor).
      apply flow_mod_sync_events. }
    assert (Hfuel :
      match fm_table_id msg =? 62, fm_command msg, f with
      | true, OFPFC_ADD, Some flow => flow_mod_sync E pl1 msg flow
      | _, _, _ => Done (pl1, [])
      end <> OutOfFuel).
    { destruct (fm_table_id msg =? 62), (fm_command msg), f; try done.
      apply flow_mod_sync_fuel. }
    destruct (match fm_table_id msg =? 62 with true => _ | false => _ end)
      as [[pl2 evs]| |]; [|by split; [|split]..].
    cbn. rewrite !Hreplay. cbn.
    split; [done|]. split; [done|]. intros ? ? ? [= <- <- <-].
    apply Forall_app. split; [by eapply Hsync|by repeat constructor].
Qed.

(** X11.  A flow-mod that is a DELETE or DELETE_STRICT, or carries the buffer id
    NO_BUFFER, or names a buffer that dp_buffers_retrieve no longer holds,
    sends no packet through the pipeline: the handler's outcome does not
    depend on the rounds granted to the packet loop, and whenever it
    returns, all it has called besides the flow tables is
    ofl_msg_free_flow_mod. *)
Theorem flow_mod_without_buffer
    (E : Env) (fuel : nat) (pl : pipeline) (msg : ofl_msg_flow_mod) (sender : sender) :
  fm_buffer_id msg = NO_BUFFER \/
  fm_command msg = OFPFC_DELETE \/ fm_command msg = OFPFC_DELETE_STRICT \/
  dp_buffers_retrieve E (fm_buffer_id msg) = None ->
  pipeline_handle_flow_mod E fuel pl msg sender
  = pipeline_handle_flow_mod E 0 pl msg sender /\
  pipeline_handle_flow_mod E fuel pl msg sender <> OutOfFuel /\
  forall error pl' ev,
    pipeline_handle_flow_mod E fuel pl msg sender = Done (error, pl', ev) ->
    Forall (fun e => is_free_flow_mod e = true) ev.
Proof.
  intros Hbuf.
  assert (Hreplay : forall fuel pl',
            flow_mod_replay E fuel pl' (flow_mod_sort E msg) = Done []).
  { intros. by apply flow_mod_replay_none. }
  pose proof (flow_mod_dispatch_no_replay E fuel pl _ Hreplay) as Hd.
  assert (Hlpm : flow_mod_validate_lpm (flow_mod_sort E msg) <> OutOfFuel).
  { unfold flow_mod_validate_lpm. destruct (fm_command _); try done.
    destruct (_ && _); [|done].
    induction (match_fields _) as [|oxm fields IH]; [done|]. cbn [lpm_check_fields].
    assert (Htlv : lpm_check_tlv (fm_priority (flow_mod_sort E msg)) oxm <> OutOfFuel).
    { unfold lpm_check_tlv, lpm_mask.
      destruct (header oxm =? OXM_OF_IPV4_DST_W).
      - destruct (value oxm !! 4%nat); [|done]. destruct (value oxm !! 5%nat); [|done].
        destruct (value oxm !! 6%nat); [|done]. destruct (value oxm !! 7%nat); [|done].
        cbn -[lpm_scan]. destruct (lpm_scan _ _ _ _ _); [|done].
        by destruct (negb _).
      - destruct (header oxm =? OXM_OF_IPV4_DST); [|done]. by destruct (negb _). }
    destruct (lpm_check_tlv _ oxm) as [e| |]; [|done..]. cbn. by destruct (is_error e). }
  unfold pipeline_handle_flow_mod.
  destruct (role (sender_remote sender));
    [ flow_mod_checks Hd .. | no_event ].
Qed.

Lemma flow_mod_without_buffer_witness :
  fm_buffer_id Demo.eth_add = NO_BUFFER /\
  pipeline_handle_flow_mod (Demo.env 64) 5 (Demo.pl 64 0) Demo.eth_add Demo.master
  = pipeline_handle_flow_mod (Demo.env 64) 0 (Demo.pl 64 0) Demo.eth_add Demo.master /\
  exists error pl' ev,
    pipeline_handle_flow_mod (Demo.env 64) 5 (Demo.pl 64 0) Demo.eth_add Demo.master
    = Done (error, pl', ev) /\
    length ev = 2%nat /\
    Forall (fun e => is_free_flow_mod e = true) ev.
Proof.
  split; [reflexivity|].
  destruct (flow_mod_without_buffer (Demo.env 64) 5 (Demo.pl 64 0) Demo.eth_add
              Demo.master (or_introl eq_refl)) as (Hfuel & _ & Hev).
  split; [exact Hfuel|].
  eexists _, _, _. split; [vm_compute; reflexivity|]. split; [reflexivity|].
  eapply Hev. vm_compute. reflexivity.
Defined.

(** ** More on table-mod *)

Section TableMod.

Variable E : Env.

Lemma with_thresholds_twice
    (ac : Z) (v : ofl_table_mod_prop_vacancy)
    (o : option ofl_table_mod_prop_vacancy) (p : ofl_table_mod_prop) :
  with_thresholds E ac (Some v) (with_thresholds E ac o p)
  = with_thresholds E ac (Some v) p.
Proof. by destruct o, p. Qed.

Lemma with_thresholds_none (ac : Z) (props : list ofl_table_mod_prop) :
  map (with_thresholds E ac None) props = props.
Proof. induction props as [|p props IH]; [done|]. cbn. by rewrite IH. Qed.

Lemma table_mod_vacancy_ok
    (ac : Z) (v : ofl_table_mod_prop_vacancy) (props : list ofl_table_mod_prop) :
  vacancy_down v <= vacancy_up v ->
  table_mod_vacancy E ac v props = (ofl_ok, map (with_thresholds E ac (Some v)) props).
Proof.
  intros Hv. induction props as [|p props IH]; [done|].
  destruct p; cbn [table_mod_vacancy]; rewrite ?IH; try done.
  by destruct (Z.gtb_spec (vacancy_down v) (vacancy_up v)); [lia|].
Qed.

Lemma table_mod_vacancy_bare
    (ac : Z) (v : ofl_table_mod_prop_vacancy) (props : list ofl_table_mod_prop) :
  Forall (fun p => is_vacancy p = false) props ->
  table_mod_vacancy E ac v props = (ofl_ok, props).
Proof.
  induction 1 as [|p props Hp _ IH]; [done|].
  destruct p; cbn [table_mod_vacancy]; rewrite ?IH; done.
Qed.

Lemma table_mod_vacancy_inverted
    (ac : Z) (v : ofl_table_mod_prop_vacancy) (props : list ofl_table_mod_prop) :
  vacancy_down v > vacancy_up v ->
  ~ Forall (fun p => is_vacancy p = false) props ->
  table_mod_vacancy E ac v props
  = (ofl_error OFPET_TABLE_FEATURES_FAILED OFPTFFC_BAD_ARGUMENT, props).
Proof.
  intros Hv. induction props as [|p props IH]; intros Hnot.
  - destruct Hnot. constructor.
  - destruct p; cbn [table_mod_vacancy].
    + by destruct (Z.gtb_spec (vacancy_down v) (vacancy_up v)); [|lia].
    + rewrite IH; [done|]. intros H. apply Hnot. by constructor.
    + rewrite IH; [done|]. intros H. apply Hnot. by constructor.
Qed.

Lemma table_mod_props_ok (ac : Z) (msg_props : list ofl_table_mod_prop) :
  Forall vacancy_ordered msg_props ->
  forall acc props,
  table_mod_props E ac msg_props (map (with_thresholds E ac acc) props)
  = (ofl_ok,
     map (with_thresholds E ac
            (foldl (fun acc p => match p with
                                 | OFPTMPT_VACANCY v => Some v
                                 | _ => acc
                                 end) acc msg_props)) props).
Proof.
  induction 1 as [|p msg_props Hp _ IH]; intros acc props; [done|].
  destruct p; cbn [table_mod_props foldl]; try apply IH.
  rewrite table_mod_vacancy_ok by exact Hp. cbn.
  rewrite <-list_fmap_compose.
  rewrite (list_fmap_ext (with_thresholds E ac (Some v) ∘ with_thresholds E ac acc)
             (with_thresholds E ac (Some v)) props); [apply IH|].
  intros _ p _. apply with_thresholds_twice.
Qed.

Lemma table_mod_props_bare
    (ac : Z) (msg_props props : list ofl_table_mod_prop) :
  Forall (fun p => is_vacancy p = false) props ->
  table_mod_props E ac msg_props props = (ofl_ok, props).
Proof.
  intros Hb. induction msg_props as [|p msg_props IH]; [done|].
  destruct p; cbn [table_mod_props]; try apply IH.
  by rewrite table_mod_vacancy_bare.
Qed.

Lemma table_mod_props_inverted
    (ac : Z) (pre post props : list ofl_table_mod_prop)
    (v : ofl_table_mod_prop_vacancy) :
  Forall (fun p => is_vacancy p = false) pre ->
  vacancy_down v > vacancy_up v ->
  ~ Forall (fun p => is_vacancy p = false) props ->
  table_mod_props E ac (pre ++ OFPTMPT_VACANCY v :: post) props
  = (ofl_error OFPET_TABLE_FEATURES_FAILED OFPTFFC_BAD_ARGUMENT, props).
Proof.
  intros Hpre Hv Hnot. induction Hpre as [|p pre Hp _ IH].
  - cbn. by rewrite table_mod_vacancy_inverted.
  - by destruct p.
Qed.

Lemma set_desc_same (t : flow_table) :
  set_desc (set_td_properties (td_properties (desc t)) (desc t)) t = t.
Proof. by destruct t as [? ? ? []]. Qed.

Lemma table_mod_loop_ok (msg : ofl_msg_table_mod) (n : nat) :
  Forall vacancy_ordered (tm_props msg) ->
  forall (ti : nat) (pl : pipeline), (ti + n <= length (tables pl))%nat ->
  table_mod_loop E n ti msg pl
  = Done (ofl_ok,
          set_tables (take ti (tables pl)
                      ++ map (table_modded E msg) (take n (drop ti (tables pl)))
                      ++ drop (ti + n) (tables pl)) pl).
Proof.
  intros Hord. induction n as [|n IH]; intros ti pl Hlen.
  - cbn. rewrite take_0, Nat.add_0_r. cbn. rewrite take_drop. by destruct pl.
  - destruct (lookup_lt_is_Some_2 (tables pl) ti ltac:(lia)) as [t Ht].
    cbn [table_mod_loop]. rewrite Ht. cbn.
    rewrite <-(with_thresholds_none (ts_active_count (stats t))
                 (td_properties (desc t))) at 1.
    rewrite table_mod_props_ok by done. cbn.
    rewrite IH by (cbn; rewrite length_insert; lia). cbn.
    unfold set_tables. cbn. do 2 f_equal. f_equal.
    rewrite (drop_S _ _ _ Ht). cbn.
    rewrite drop_insert_lt by lia.
    rewrite (drop_insert_lt _ (S ti + n)) by lia.
    rewrite (insert_take_drop (tables pl) ti) by lia.
    assert (Htk : forall x, take (S ti) (take ti (tables pl) ++ x :: drop (S ti) (tables pl))
                            = take ti (tables pl) ++ [x]).
    { intros x. rewrite cons_middle, app_assoc. apply take_app_length'.
      rewrite length_app, length_take. cbn. lia. }
    rewrite Htk.
    replace (S ti + n)%nat with (ti + S n)%nat by lia.
    rewrite <-app_assoc. reflexivity.
Qed.

Lemma table_mod_loop_bare (msg : ofl_msg_table_mod) (before : list flow_table) :
  Forall no_vacancy_property before ->
  forall (passed rest : list flow_table) (pl : pipeline) (n : nat),
  tables pl = passed ++ before ++ rest ->
  table_mod_loop E (length before + n) (length passed) msg pl
  = table_mod_loop E n (length passed + length before) msg
      (set_tables (passed ++ map (config_set (tm_config msg)) before ++ rest) pl).
Proof.
  induction 1 as [|b before Hb _ IH]; intros passed rest pl n Htables.
  - cbn in Htables |- *. rewrite Nat.add_0_r, <-Htables. by destruct pl.
  - cbn [length Nat.add table_mod_loop].
    change ((b :: before) ++ rest) with (b :: before ++ rest) in Htables.
    rewrite Htables, list_lookup_middle by done. cbn.
    rewrite table_mod_props_bare by exact Hb. cbn.
    rewrite insert_app_r_alt, Nat.sub_diag by lia. cbn.
    assert (Hb' : set_desc (set_td_config (tm_config msg)
                     (set_td_properties (td_properties (desc b)) (desc b))) b
                  = config_set (tm_config msg) b).
    { unfold config_set. by destruct b as [? ? ? []]. }
    rewrite Hb'.
    pose proof (IH (passed ++ [config_set (tm_config msg) b]) rest
                  (set_tables (passed ++ config_set (tm_config msg) b
                                 :: before ++ rest) pl) n) as IH'.
    rewrite length_app, <-app_assoc in IH'. cbn in IH'.
    rewrite <-app_assoc in IH'. cbn in IH'.
    replace (length passed + 1)%nat with (S (length passed)) in IH' by lia.
    replace (length passed + S (length before))%nat
      with (S (length passed) + length before)%nat by lia.
    by rewrite IH'.
Qed.

End TableMod.

(** X12.  A table-mod for all tables (table_id 0xff) none of whose VACANCY
    properties has vacancy_down above vacancy_up is applied to every
    table of the pipeline: in each table every VACANCY property gets the
    thresholds of the last VACANCY property of the message (an earlier one
    is overwritten), down_set is recomputed from the table's live entry
    count, the vacancy field is kept, and desc.config becomes the config
    of the message; then the message is freed. *)
Theorem table_mod_all_tables
    (E : Env) (pl : pipeline) (msg : ofl_msg_table_mod) (sender : sender) :
  role (sender_remote sender) <> OFPCR_ROLE_SLAVE ->
  tm_table_id msg = 0xff ->
  Forall vacancy_ordered (tm_props msg) ->
  length (tables pl) = PIPELINE_TABLES E ->
  pipeline_handle_table_mod E pl msg sender
  = Done (ofl_ok, set_tables (map (table_modded E msg) (tables pl)) pl,
          [ev_ofl_msg_free_table_mod msg]).
Proof.
  intros Hrole Hid Hord Hlen. unfold pipeline_handle_table_mod. rewrite Hid. cbn.
  rewrite Nat.sub_0_r, table_mod_loop_ok by (done || lia). cbn.
  rewrite drop_0, <-Hlen, firstn_all, drop_all, app_nil_r.
  by destruct (role (sender_remote sender)).
Qed.

Lemma table_mod_all_tables_witness :
  role (sender_remote Demo.master) <> OFPCR_ROLE_SLAVE /\
  Forall vacancy_ordered (tm_props DemoMore.table_mod_all) /\
  length (tables (Demo.pl 64 0)) = PIPELINE_TABLES (Demo.env 64) /\
  pipeline_handle_table_mod (Demo.env 64) (Demo.pl 64 0) DemoMore.table_mod_all
    Demo.master
  = Done (ofl_ok,
          set_tables (map (table_modded (Demo.env 64) DemoMore.table_mod_all)
                        (tables (Demo.pl 64 0))) (Demo.pl 64 0),
          [ev_ofl_msg_free_table_mod DemoMore.table_mod_all]) /\
  table_modded (Demo.env 64) DemoMore.table_mod_all Demo.t0
  = Demo.table 0 0 OFPTC_VACANCY_EVENTS [Demo.vac 10 90 0 true].
Proof.
  assert (Hord : Forall vacancy_ordered (tm_props DemoMore.table_mod_all)).
  { repeat constructor. cbn. lia. }
  split; [done|]. split; [exact Hord|]. split; [reflexivity|].
  split; [|reflexivity].
  apply (table_mod_all_tables (Demo.env 64) (Demo.pl 64 0) DemoMore.table_mod_all
           Demo.master); [done|reflexivity|exact Hord|reflexivity].
Defined.

(** X13.  The thresholds of a table-mod are checked only when they are about to
    be stored, inside the loop over the tables.  When the first VACANCY
    property of a table-mod for all tables has vacancy_down above
    vacancy_up, the tables that come before the first table with a VACANCY
    property have their desc.config overwritten all the same; the handler
    then returns TABLE_FEATURES_FAILED / BAD_ARGUMENT, leaves that table
    and the later ones as they were, and does not free the message. *)
Theorem table_mod_rejected_midway
    (E : Env) (pl : pipeline) (msg : ofl_msg_table_mod) (sender : sender)
    (pre post : list ofl_table_mod_prop) (v : ofl_table_mod_prop_vacancy)
    (before after : list flow_table) (t : flow_table) :
  role (sender_remote sender) <> OFPCR_ROLE_SLAVE ->
  tm_table_id msg = 0xff ->
  tm_props msg = pre ++ OFPTMPT_VACANCY v :: post ->
  Forall (fun p => is_vacancy p = false) pre ->
  vacancy_down v > vacancy_up v ->
  tables pl = before ++ t :: after ->
  Forall no_vacancy_property before ->
  ~ no_vacancy_property t ->
  (length before < PIPELINE_TABLES E)%nat ->
  pipeline_handle_table_mod E pl msg sender
  = Done (ofl_error OFPET_TABLE_FEATURES_FAILED OFPTFFC_BAD_ARGUMENT,
          set_tables (map (config_set (tm_config msg)) before ++ t :: after) pl,
          []).
Proof.
  intros Hrole Hid Hprops Hpre Hv Htables Hbare Ht Hlen.
  unfold pipeline_handle_table_mod. rewrite Hid. cbn. rewrite Nat.sub_0_r.
  replace (PIPELINE_TABLES E)
    with (length before + S (PIPELINE_TABLES E - S (length before)))%nat by lia.
  pose proof (table_mod_loop_bare E msg before Hbare [] (t :: after) pl
                (S (PIPELINE_TABLES E - S (length before))) Htables) as Hloop.
  cbn [app length Nat.add] in Hloop. rewrite Hloop.
  cbn [table_mod_loop set_tables tables].
  rewrite list_lookup_middle by (by rewrite length_map). cbn.
  rewrite Hprops, table_mod_props_inverted by done. cbn.
  rewrite set_desc_same.
  rewrite insert_app_r_alt, length_map, Nat.sub_diag by (rewrite length_map; lia).
  cbn. by destruct (role (sender_remote sender)).
Qed.

Lemma table_mod_rejected_midway_witness :
  role (sender_remote Demo.master) <> OFPCR_ROLE_SLAVE /\
  Forall no_vacancy_property (DemoMore.bare_tables 2) /\
  ~ no_vacancy_property Demo.t2 /\
  pipeline_handle_table_mod (Demo.env 64) DemoMore.mixed_pl (Demo.table_mod 0xff)
    Demo.master
  = Done (ofl_error OFPET_TABLE_FEATURES_FAILED OFPTFFC_BAD_ARGUMENT,
          set_tables
            (map (config_set OFPTC_VACANCY_EVENTS) (DemoMore.bare_tables 2)
             ++ Demo.t2 :: drop 3 (Demo.fresh_tables 64 0))
            DemoMore.mixed_pl,
          []).
Proof.
  assert (Hbare : Forall no_vacancy_property (DemoMore.bare_tables 2)).
  { repeat constructor. }
  assert (Ht2 : ~ no_vacancy_property Demo.t2).
  { intros H. apply Forall_cons in H as [H _]. discriminate H. }
  split; [done|]. split; [exact Hbare|]. split; [exact Ht2|].
  apply (table_mod_rejected_midway (Demo.env 64) DemoMore.mixed_pl
           (Demo.table_mod 0xff) Demo.master []
           [] {| vacancy_down := 90; vacancy_up := 10; vacancy := 0;
                 down_set := false |}
           (DemoMore.bare_tables 2) (drop 3 (Demo.fresh_tables 64 0)) Demo.t2);
    [done|reflexivity|reflexivity|constructor|reflexivity|reflexivity
    |exact Hbare|exact Ht2|cbn; lia].
Defined.

(** ** Saving and restoring the table features *)

Lemma tables_loop_map (f : flow_table -> flow_table) (n : nat) :
  forall (i : nat) (ts : list flow_table), (i + n <= length ts)%nat ->
  tables_loop f n i ts
  = Done (take i ts ++ map f (take n (drop i ts)) ++ drop (i + n) ts).
Proof.
  induction n as [|n IH]; intros i ts Hlen.
  - cbn. rewrite take_0, Nat.add_0_r. cbn. by rewrite take_drop.
  - destruct (lookup_lt_is_Some_2 ts i ltac:(lia)) as [t Ht].
    cbn [tables_loop]. rewrite Ht. cbn.
    rewrite IH by (rewrite length_insert; lia). f_equal.
    rewrite (drop_S _ _ _ Ht). cbn.
    rewrite drop_insert_lt by lia.
    rewrite (drop_insert_lt _ (S i + n)) by lia.
    rewrite (insert_take_drop ts i) by lia.
    assert (Htk : forall x, take (S i) (take i ts ++ x :: drop (S i) ts)
                            = take i ts ++ [x]).
    { intros x. rewrite cons_middle, app_assoc. apply take_app_length'.
      rewrite length_app, length_take. cbn. lia. }
    rewrite Htk.
    replace (S i + n)%nat with (i + S n)%nat by lia.
    rewrite <-app_assoc. reflexivity.
Qed.

Lemma tables_loop_all (f : flow_table -> flow_table) (ts : list flow_table) :
  tables_loop f (length ts) 0 ts = Done (map f ts).
Proof.
  rewrite tables_loop_map by lia. cbn.
  by rewrite drop_0, firstn_all, drop_all, app_nil_r.
Qed.

Lemma features_restore_saved (t : flow_table) :
  features_restore (features_save t) = features_save t.
Proof. by destruct t as [? [] ? ?]. Qed.

Lemma tables_loop_lookup (f : flow_table -> flow_table) (ts : list flow_table) :
  exists ts',
    tables_loop f (length ts) 0 ts = Done ts' /\
    length ts' = length ts /\
    forall j t, ts !! j = Some t -> ts' !! j = Some (f t).
Proof.
  exists (map f ts). split; [apply tables_loop_all|]. split; [apply length_map|].
  intros j t Ht. by rewrite list_lookup_fmap, Ht.
Qed.

(** X14.  On a pipeline with its PIPELINE_TABLES tables, the save handler
    returns 0 and sets, in every table, the config of the saved features
    to the config of the features; the restore handler returns 0 and
    sets, in every table, the config of the features to the config of the
    saved features.  Each changes that one field only: the other fields of
    both descriptors, the statistics, the description, the switch
    configuration and the flow entries stay.  A restore right after a save
    changes nothing. *)
Theorem features_save_restore (E : Env) (pl : pipeline) :
  length (tables pl) = PIPELINE_TABLES E ->
  exists pl1 pl2,
    pipeline_handle_table_features_save E pl = Done (ofl_ok, pl1) /\
    pipeline_handle_table_features_restore E pl = Done (ofl_ok, pl2) /\
    pipeline_handle_table_features_restore E pl1 = Done (ofl_ok, pl1) /\
    (config pl1 = config pl /\ entries pl1 = entries pl /\
     length (tables pl1) = length (tables pl)) /\
    (config pl2 = config pl /\ entries pl2 = entries pl /\
     length (tables pl2) = length (tables pl)) /\
    forall j t, tables pl !! j = Some t ->
      (exists t1, tables pl1 !! j = Some t1 /\
         tf_config (saved_features t1) = tf_config (features t) /\
         tf_table_id (saved_features t1) = tf_table_id (saved_features t) /\
         tf_body (saved_features t1) = tf_body (saved_features t) /\
         features t1 = features t /\ stats t1 = stats t /\ desc t1 = desc t) /\
      (exists t2, tables pl2 !! j = Some t2 /\
         tf_config (features t2) = tf_config (saved_features t) /\
         tf_table_id (features t2) = tf_table_id (features t) /\
         tf_body (features t2) = tf_body (features t) /\
         saved_features t2 = saved_features t /\ stats t2 = stats t /\
         desc t2 = desc t).
Proof.
  intros Hlen.
  destruct (tables_loop_lookup features_save (tables pl)) as (ts1 & Hsave & Hl1 & H1).
  destruct (tables_loop_lookup features_restore (tables pl))
    as (ts2 & Hrestore & Hl2 & H2).
  destruct (tables_loop_lookup features_restore ts1) as (ts3 & Hagain & Hl3 & H3).
  assert (Hsame : ts3 = ts1).
  { apply list_eq. intros j. destruct (ts1 !! j) as [t1|] eqn:Ht1.
    - rewrite (H3 j t1 Ht1).
      destruct (lookup_lt_is_Some_2 (tables pl) j) as [t Ht].
      { apply lookup_lt_Some in Ht1. lia. }
      rewrite (H1 j t Ht) in Ht1. injection Ht1 as <-.
      by rewrite features_restore_saved.
    - apply lookup_ge_None. apply lookup_ge_None in Ht1. lia. }
  subst ts3.
  exists (set_tables ts1 pl), (set_tables ts2 pl).
  unfold pipeline_handle_table_features_save, pipeline_handle_table_features_restore.
  cbn [tables set_tables]. rewrite <-Hlen, Hsave, Hrestore.
  rewrite <-Hl1, Hagain. cbn.
  split; [done|]. split; [done|]. split; [done|].
  split; [repeat split; (done || lia)|]. split; [repeat split; (done || lia)|].
  intros j t Ht. split.
  - exists (features_save t). split; [by apply H1|]. by repeat split.
  - exists (features_restore t). split; [by apply H2|]. by repeat split.
Qed.

Lemma features_save_restore_witness :
  length (tables (DemoMore.configured_pl 64)) = PIPELINE_TABLES (Demo.env 64) /\
  (tf_config ∘ features <$> tables (DemoMore.configured_pl 64) !! 3%nat = Some 5 /\
   tf_config ∘ saved_features <$> tables (DemoMore.configured_pl 64) !! 3%nat
   = Some 9) /\
  exists pl1 pl2,
    pipeline_handle_table_features_save (Demo.env 64) (DemoMore.configured_pl 64)
    = Done (ofl_ok, pl1) /\
    pipeline_handle_table_features_restore (Demo.env 64) (DemoMore.configured_pl 64)
    = Done (ofl_ok, pl2) /\
    (tf_config ∘ features <$> tables pl1 !! 3%nat = Some 5 /\
     tf_config ∘ saved_features <$> tables pl1 !! 3%nat = Some 5) /\
    (tf_config ∘ features <$> tables pl2 !! 3%nat = Some 9 /\
     tf_config ∘ saved_features <$> tables pl2 !! 3%nat = Some 9).
Proof.
  split; [reflexivity|]. split; [split; reflexivity|].
  destruct (features_save_restore (Demo.env 64) (DemoMore.configured_pl 64) eq_refl)
    as (pl1 & pl2 & Hsave & Hrestore & _ & _ & _ & Hspec).
  exists pl1, pl2. split; [exact Hsave|]. split; [exact Hrestore|].
  destruct (Hspec 3%nat _ eq_refl)
    as ((t1 & H1 & H1c & _ & _ & H1f & _) & (t2 & H2 & H2c & _ & _ & H2s & _)).
  rewrite H1, H2. cbn [fmap option_fmap option_map compose].
  rewrite H1c, H1f, H2c, H2s. repeat split; reflexivity.
Defined.

(** ** The table-features update *)


(** ** The table-features update *)

(** X15.  A table-features request replaces the features of exactly the tables
    its descriptors name: a table named by no descriptor keeps its
    features, and when several descriptors name the same table the last
    one is installed.  Statistics, saved features and description of every
    table are left alone.  The descriptors must name tables of the
    pipeline: the handler indexes pl->tables with their table_id unchecked. *)
Theorem features_update_last_wins
    (n : nat) (table_features : list ofl_table_features) (ts : list flow_table) :
  (n <= length table_features)%nat ->
  Forall (fun f => (Z.to_nat (tf_table_id f) < length ts)%nat)
         (take n table_features) ->
  exists ts',
    features_update n 0 table_features ts = Done ts' /\
    length ts' = length ts /\
    forall j t, ts !! j = Some t ->
      ts' !! j = Some match requested_features n table_features j with
                      | Some f => set_features f t
                      | None => t
                      end.
Proof.
  intros Hn Hids.
  destruct (features_update_runs n 0 table_features ts) as [ts' Hrun]; [lia|done|].
  exists ts'. split; [done|]. by apply features_update_spec in Hrun.
Qed.

Lemma features_update_last_wins_witness :
  exists ts',
    features_update 3 0
      [DemoMore.features_of 3 5; DemoMore.features_of 1 6; DemoMore.features_of 3 7]
      (Demo.fresh_tables 64 0) = Done ts' /\
    features <$> ts' !! 3%nat = Some (DemoMore.features_of 3 7) /\
    features <$> ts' !! 2%nat = features <$> Demo.fresh_tables 64 0 !! 2%nat.
Proof.
  destruct (features_update_last_wins 3
              [DemoMore.features_of 3 5; DemoMore.features_of 1 6;
               DemoMore.features_of 3 7]
              (Demo.fresh_tables 64 0)) as (ts' & Hrun & _ & Hspec).
  - cbn. lia.
  - repeat constructor; cbn; lia.
  - exists ts'. split; [exact Hrun|].
    rewrite (Hspec 3%nat _ eq_refl), (Hspec 2%nat _ eq_refl). split; reflexivity.
Defined.

(** X16.  Restoring after a table-features request does not undo the request:
    of the features a request has installed since the save, the restore
    handler resets the config field to the saved value and leaves the
    rest of the new descriptor (its table_id and its body) in place. *)
Theorem features_restore_after_update
    (E : Env) (pl : pipeline)
    (feat : ofl_msg_multipart_request_table_features) (ts2 : list flow_table) :
  length (tables pl) = PIPELINE_TABLES E ->
  features_requested feat (map features_save (tables pl)) = Done ts2 ->
  pipeline_handle_table_features_restore E (set_tables ts2 pl)
  = Done (ofl_ok, set_tables (map features_restore ts2) pl) /\
  length ts2 = length (tables pl) /\
  forall j t t2, tables pl !! j = Some t -> ts2 !! j = Some t2 ->
    tf_config (features (features_restore t2)) = tf_config (features t) /\
    tf_table_id (features (features_restore t2)) = tf_table_id (features t2) /\
    tf_body (features (features_restore t2)) = tf_body (features t2).
Proof.
  intros Hlen Hreq.
  assert (Hspec : length ts2 = length (tables pl) /\
            forall j t, tables pl !! j = Some t ->
              exists t2, ts2 !! j = Some t2 /\
                saved_features t2 = saved_features (features_save t)).
  { unfold features_requested in Hreq. destruct (rq_table_features feat) as [tf|].
    - apply features_update_spec in Hreq as [Hl Hspec].
      rewrite length_map in Hl. split; [done|]. intros j t Ht.
      eexists. split; [apply Hspec; by rewrite list_lookup_fmap, Ht|].
      by destruct (last _).
    - injection Hreq as <-. split; [by rewrite length_map|]. intros j t Ht.
      eexists. split; [by rewrite list_lookup_fmap, Ht|done]. }
  destruct Hspec as [Hl Hspec]. split; [|split; [done|]].
  - unfold pipeline_handle_table_features_restore. cbn.
    rewrite <-Hlen, <-Hl, tables_loop_all. reflexivity.
  - intros j t t2 Ht Ht2. destruct (Hspec j t Ht) as (t2' & Ht2' & Hsaved).
    assert (t2' = t2) as -> by congruence.
    cbn. rewrite Hsaved. done.
Qed.

Lemma features_restore_after_update_witness :
  length (tables (Demo.pl 64 0)) = PIPELINE_TABLES (Demo.env 64) /\
  exists ts2,
    features_requested DemoMore.features_request
      (map features_save (tables (Demo.pl 64 0))) = Done ts2 /\
    pipeline_handle_table_features_restore (Demo.env 64) (set_tables ts2 (Demo.pl 64 0))
    = Done (ofl_ok, set_tables (map features_restore ts2) (Demo.pl 64 0)) /\
    features <$> map features_restore ts2 !! 3%nat
    = Some (DemoMore.features_of 3 0).
Proof.
  split; [reflexivity|]. eexists. split; [vm_compute; reflexivity|].
  split; [|reflexivity].
  apply (features_restore_after_update (Demo.env 64) (Demo.pl 64 0)
           DemoMore.features_request); reflexivity.
Defined.

(** ** More on the table-desc and table-stats requests *)

Lemma reply_stream_length {A} (size : nat) (chunks : list (Z * list A)) (all : list A) :
  reply_stream size chunks all -> (size <= length all)%nat.
Proof.
  induction 1 as [c Hc|c rest all Hc _ IH]; [lia|]. rewrite length_app. lia.
Qed.

Lemma reply_stream_inj {A} (size : nat) (chunks chunks' : list (Z * list A))
    (all : list A) :
  (0 < size)%nat ->
  reply_stream size chunks all -> reply_stream size chunks' all -> chunks = chunks'.
Proof.
  intros Hsize H. revert chunks'.
  induction H as [c Hc|c rest all Hc Hrest IH]; intros chunks' H'.
  - inversion H' as [c' Hc' Hchunks Hall|c' rest' all' Hc' Hrest' Hchunks Hall];
      [done|]. subst.
    apply reply_stream_length in Hrest'. rewrite ?length_app in *. lia.
  - inversion H' as [c' Hc' Hchunks Hall|c' rest' all' Hc' Hrest' Hchunks Hall];
      subst.
    + apply reply_stream_length in Hrest. rewrite ?length_app in *. lia.
    + apply app_inj_1 in Hall as [-> ->]; [|congruence].
      f_equal. by apply IH.
Qed.

Lemma desc_sent_refresh (E : Env) (t : flow_table) :
  desc_sent E (desc_refresh E t) = desc_sent E t.
Proof.
  unfold desc_refresh, desc_sent, desc_update_vacancy, set_td_properties. cbn.
  f_equal. rewrite <-list_fmap_compose. apply list_fmap_ext. intros _ p _. cbn.
  destruct (negb _); [|done]. by destruct p.
Qed.

Lemma desc_refresh_idemp (E : Env) (t : flow_table) :
  desc_refresh E (desc_refresh E t) = desc_refresh E t.
Proof.
  unfold desc_refresh at 1 3. rewrite desc_sent_refresh. reflexivity.
Qed.

Lemma desc_refresh_same_but_vacancy (E : Env) (t : flow_table) :
  stats (desc_refresh E t) = stats t /\
  features (desc_refresh E t) = features t /\
  saved_features (desc_refresh E t) = saved_features t /\
  td_table_id (desc (desc_refresh E t)) = td_table_id (desc t) /\
  td_config (desc (desc_refresh E t)) = td_config (desc t) /\
  Forall2 same_but_vacancy (td_properties (desc t))
          (td_properties (desc (desc_refresh E t))).
Proof.
  repeat split. cbn. apply Forall2_fmap_r, Forall_Forall2_diag, Forall_forall.
  intros p _. destruct (negb _); by destruct p.
Qed.

(** X17.  The table-desc request is idempotent: a second request right after
    the first is answered with the same messages and leaves the tables as
    the first left them.  All it ever changes in a table is the vacancy
    field of VACANCY properties; thresholds, down_set, config, statistics
    and features stay. *)
Theorem table_desc_request_idempotent (E : Env) (pl : pipeline) :
  (0 < PIPELINE_TABLES E)%nat ->
  (16 | PIPELINE_TABLES E)%nat ->
  length (tables pl) = PIPELINE_TABLES E ->
  exists pl' ev,
    pipeline_handle_stats_request_table_desc_request E pl = Done (ofl_ok, pl', ev) /\
    pipeline_handle_stats_request_table_desc_request E pl' = Done (ofl_ok, pl', ev) /\
    config pl' = config pl /\ entries pl' = entries pl /\
    Forall2 (fun t t' =>
               stats t' = stats t /\ features t' = features t /\
               saved_features t' = saved_features t /\
               td_table_id (desc t') = td_table_id (desc t) /\
               td_config (desc t') = td_config (desc t) /\
               Forall2 same_but_vacancy (td_properties (desc t))
                       (td_properties (desc t')))
            (tables pl) (tables pl').
Proof.
  intros Hpos Hdiv Hlen.
  destruct (divide_chunks 16 (PIPELINE_TABLES E) ltac:(lia) Hpos Hdiv) as (m & Hm & Hfuel).
  destruct (desc_reply_loop_stream E m (S (PIPELINE_TABLES E)) (tables pl) 0
              ltac:(lia) Hlen Hm) as (chunks & Hrun & Hstream).
  destruct (desc_reply_loop_stream E m (S (PIPELINE_TABLES E))
              (map (desc_refresh E) (tables pl)) 0
              ltac:(lia) ltac:(by rewrite length_map) Hm)
    as (chunks' & Hrun' & Hstream').
  rewrite drop_0, take_0 in Hrun, Hrun'. rewrite drop_0 in Hstream, Hstream'.
  cbn [app] in Hrun, Hrun'.
  assert (Hsame : chunks' = chunks).
  { apply (reply_stream_inj 16 _ _ (map (desc_sent E) (tables pl))); [lia| |done].
    rewrite <-list_fmap_compose in Hstream'.
    rewrite (list_fmap_ext (desc_sent E ∘ desc_refresh E) (desc_sent E) (tables pl))
      in Hstream'; [done|].
    intros _ t _. apply desc_sent_refresh. }
  subst chunks'.
  rewrite <-list_fmap_compose in Hrun'.
  rewrite (list_fmap_ext (desc_refresh E ∘ desc_refresh E) (desc_refresh E) (tables pl))
    in Hrun' by (intros _ t _; apply desc_refresh_idemp).
  exists (set_tables (map (desc_refresh E) (tables pl)) pl), (map desc_reply chunks).
  unfold pipeline_handle_stats_request_table_desc_request. cbn [set_tables tables].
  rewrite Hrun, Hrun'. cbn.
  split; [done|]. split; [done|]. split; [done|]. split; [done|].
  apply Forall2_fmap_r, Forall_Forall2_diag, Forall_forall.
  intros t _. apply desc_refresh_same_but_vacancy.
Qed.

Lemma table_desc_request_idempotent_witness :
  (0 < PIPELINE_TABLES (Demo.env 64))%nat /\
  (16 | PIPELINE_TABLES (Demo.env 64))%nat /\
  length (tables (Demo.pl 64 8)) = PIPELINE_TABLES (Demo.env 64) /\
  exists pl' ev,
    pipeline_handle_stats_request_table_desc_request (Demo.env 64) (Demo.pl 64 8)
    = Done (ofl_ok, pl', ev) /\
    pipeline_handle_stats_request_table_desc_request (Demo.env 64) pl'
    = Done (ofl_ok, pl', ev).
Proof.
  assert (Hdiv : (16 | PIPELINE_TABLES (Demo.env 64))%nat) by (exists 4%nat; reflexivity).
  split; [cbn; lia|]. split; [exact Hdiv|]. split; [reflexivity|].
  destruct (table_desc_request_idempotent (Demo.env 64) (Demo.pl 64 8))
    as (pl' & ev & Hrun & Hrun' & _); [cbn; lia|exact Hdiv|reflexivity|].
  exists pl', ev. split; [exact Hrun|exact Hrun'].
Defined.

Lemma table_stats_collect_ok (n : nat) :
  forall (i : nat) (ts : list flow_table), (i + n <= length ts)%nat ->
  table_stats_collect n i ts = Done (map stats (take n (drop i ts))).
Proof.
  induction n as [|n IH]; intros i ts Hlen; [done|].
  destruct (lookup_lt_is_Some_2 ts i ltac:(lia)) as [t Ht].
  cbn [table_stats_collect]. rewrite Ht. cbn. rewrite IH by lia. cbn.
  by rewrite (drop_S _ _ _ Ht).
Qed.

(** X18.  The table-stats request is answered with one message, flags 0,
    that carries the statistics of the tables 0 to PIPELINE_TABLES-1 in
    table order, stats_num being PIPELINE_TABLES; no table is modified
    and 0 is returned. *)
Theorem table_stats_reply (E : Env) (pl : pipeline) :
  (PIPELINE_TABLES E <= length (tables pl))%nat ->
  exists reply,
    pipeline_handle_stats_request_table E pl = Done (ofl_ok, reply) /\
    rt_flags reply = 0 /\
    rt_stats reply = map stats (take (PIPELINE_TABLES E) (tables pl)) /\
    length (rt_stats reply) = rt_stats_num reply /\
    rt_stats_num reply = PIPELINE_TABLES E.
Proof.
  unfold pipeline_handle_stats_request_table.
  intros Hlen. rewrite table_stats_collect_ok by lia. cbn. eexists.
  split; [reflexivity|]. cbn. rewrite drop_0. repeat split.
  rewrite length_map, length_take. lia.
Qed.

Lemma table_stats_reply_witness :
  (PIPELINE_TABLES (Demo.env 64) <= length (tables (DemoMore.configured_pl 64)))%nat /\
  exists reply,
    pipeline_handle_stats_request_table (Demo.env 64) (DemoMore.configured_pl 64)
    = Done (ofl_ok, reply) /\
    rt_flags reply = 0 /\
    rt_stats_num reply = 64%nat /\
    rt_stats reply !! 5%nat = Some {| ts_table_id := 5; ts_active_count := 6 |} /\
    rt_stats reply !! 63%nat = Some {| ts_table_id := 63; ts_active_count := 64 |} /\
    rt_stats reply !! 64%nat = None.
Proof.
  split; [cbn; lia|].
  destruct (table_stats_reply (Demo.env 64) (DemoMore.configured_pl 64))
    as (reply & Hrun & Hflags & Hstats & _ & Hnum); [cbn; lia|].
  exists reply. split; [exact Hrun|]. split; [exact Hflags|]. split; [exact Hnum|].
  rewrite Hstats. repeat split; reflexivity.
Defined.
